(** * UniMatchAI front end: the form and selection logic of [frontend/app.js]

    A shallow embedding of the client logic shared by the two variants of
    [app.js] (the plain one and the chatbot-enabled one, whose form,
    selection, validation and payload code is the same text):

    - the field accessor [val] with [clamp] and the JavaScript primitives it
      relies on ([trim], [Number], [Math.round], [Math.min], [Math.max]);
    - the selection store [SELECTION_PAIRS] with [selectItem],
      [clearSelection], [setMajorDisabled] and the reset loop;
    - the availability resolver, the two dropdown renderers and the Enter
      key of a selector input;
    - [validateForm], [collectPayload], [renderResult] and the synchronous
      part of the click handler of [predictBtn];
    - the two loaders, the listeners of a selector and of the program
      field, and a session of the page: the events of the user and the
      answers to the two requests, in any order;
    - the rest of the click handler of [predictBtn], the reset handler,
      [programOfMajor] and the theme toggle;
    - of the chatbot-enabled variant, the view toggle and the chatbot:
      its transcript, its history and its calls.

    Conventions of the embedding.
    - A JavaScript string is a [string] of bytes; [toLowerCase] and [trim]
      act on the ASCII letters and the ASCII white space only.
    - A JavaScript number is [NaN], an infinity or an exact rational: the
      rounding of a literal to the nearest double is not modelled, and
      neither is the sign of zero (which no function below observes).
    - Code that only reads is a function of the state it reads; code that
      writes returns the new state.  A call that throws leaves the state
      it had reached, and what follows it in its caller does not run.
    - What the document answers is an argument of the function that asks:
      the remove button [renderSelectedItem] looks for in the chip it has
      just written ([removeBtn], absent when the markup of the name has
      swallowed it), the answers to the requests, the focus.  *)

From Stdlib Require Import ZArith QArith Qround Lqa Lia Ascii String.
From stdpp Require Import gmap strings list fin_maps finite.

Open Scope string_scope.
Open Scope list_scope.

(** ** JavaScript strings *)

Module JsString.

(** White space removed by [String.prototype.trim] (ASCII part):
    TAB, LF, VT, FF, CR and SPACE. *)
Definition isWhiteSpace (c : ascii) : bool :=
  let n := N_of_ascii c in
  (n =? 32)%N || ((9 <=? n)%N && (n <=? 13)%N).

Fixpoint trimStart (s : string) : string :=
  match s with
  | String c s' => if isWhiteSpace c then trimStart s' else s
  | EmptyString => EmptyString
  end.

Fixpoint trimEnd (s : string) : string :=
  match s with
  | String c s' =>
      let r := trimEnd s' in
      if isWhiteSpace c && (r =? "")%string then "" else String c r
  | EmptyString => EmptyString
  end.

Definition trim (s : string) : string := trimEnd (trimStart s).

Definition lowerChar (c : ascii) : ascii :=
  let n := N_of_ascii c in
  if (65 <=? n)%N && (n <=? 90)%N then ascii_of_N (n + 32) else c.

Fixpoint toLowerCase (s : string) : string :=
  match s with
  | String c s' => String (lowerChar c) (toLowerCase s')
  | EmptyString => EmptyString
  end.

(** [s.includes(q)]: [q] occurs in [s] at some position. *)
Fixpoint includes (s q : string) : bool :=
  String.prefix q s ||
  match s with
  | String _ s' => includes s' q
  | EmptyString => false
  end.

(** Truthiness of a string: every string but the empty one. *)
Definition truthy (s : string) : bool := negb (s =? "")%string.

End JsString.

(** ** JavaScript numbers and values *)

Inductive JsNumber : Type :=
| NaN
| PosInfinity
| NegInfinity
| Num (q : Q).

Inductive JsValue : Type :=
| undefined
| VNumber (n : JsNumber)
| VString (s : string).

Module JsNumeric.

Definition isNaN (n : JsNumber) : bool :=
  match n with NaN => true | _ => false end.

Definition negate (n : JsNumber) : JsNumber :=
  match n with
  | NaN => NaN
  | PosInfinity => NegInfinity
  | NegInfinity => PosInfinity
  | Num q => Num (- q)
  end.

Definition Math_min (a b : JsNumber) : JsNumber :=
  match a, b with
  | NaN, _ | _, NaN => NaN
  | NegInfinity, _ | _, NegInfinity => NegInfinity
  | PosInfinity, x | x, PosInfinity => x
  | Num p, Num q => if Qle_bool p q then a else b
  end.

Definition Math_max (a b : JsNumber) : JsNumber :=
  match a, b with
  | NaN, _ | _, NaN => NaN
  | PosInfinity, _ | _, PosInfinity => PosInfinity
  | NegInfinity, x | x, NegInfinity => x
  | Num p, Num q => if Qle_bool p q then b else a
  end.

(** [Math.round]: the nearest integer, a tie going up. *)
Definition Math_round (n : JsNumber) : JsNumber :=
  match n with
  | Num q => Num (inject_Z (Qfloor (q + (1 # 2))))
  | _ => n
  end.

(** *** [Number(string)]: the StringToNumber grammar *)

Definition digitValue (base : Z) (c : ascii) : option Z :=
  let n := Z.of_N (N_of_ascii c) in
  let d :=
    if (48 <=? n)%Z && (n <=? 57)%Z then Some (n - 48)%Z
    else if (97 <=? n)%Z && (n <=? 102)%Z then Some (n - 87)%Z
    else if (65 <=? n)%Z && (n <=? 70)%Z then Some (n - 55)%Z
    else None in
  match d with
  | Some v => if (v <? base)%Z then Some v else None
  | None => None
  end.

(** The longest prefix of digits of [s] in [base]: its value (after
    [acc]), the number of digits read (after [len]) and the rest. *)
Fixpoint spanDigits (base : Z) (s : string) (acc : Z) (len : nat)
  : Z * nat * string :=
  match s with
  | String c s' =>
      match digitValue base c with
      | Some d => spanDigits base s' (acc * base + d)%Z (S len)
      | None => (acc, len, s)
      end
  | EmptyString => (acc, len, EmptyString)
  end.

(** ExponentPart, or nothing: the whole of [s] must be consumed. *)
Definition exponentPart (s : string) : option Z :=
  match s with
  | EmptyString => Some 0%Z
  | String c s' =>
      if (c =? "e")%char || (c =? "E")%char then
        let '(neg, ds) :=
          match s' with
          | String "-"%char t => (true, t)
          | String "+"%char t => (false, t)
          | _ => (false, s')
          end in
        match spanDigits 10 ds 0 0 with
        | (v, S _, EmptyString) => Some (if neg then (- v)%Z else v)
        | _ => None
        end
      else None
  end.

Definition pow10 (e : Z) : Q :=
  if (0 <=? e)%Z then inject_Z (10 ^ e)
  else 1 # Z.to_pos (10 ^ (- e)).

Definition strUnsignedDecimalLiteral (s : string) : JsNumber :=
  if (s =? "Infinity")%string then PosInfinity
  else
    let '(i, ni, r1) := spanDigits 10 s 0 0 in
    let '(f, nf, r2) :=
      match r1 with
      | String "."%char t => spanDigits 10 t 0 0
      | _ => (0%Z, 0%nat, r1)
      end in
    if (ni + nf =? 0)%nat then NaN
    else
      match exponentPart r2 with
      | Some e =>
          let scale := (10 ^ Z.of_nat nf)%Z in
          Num (((i * scale + f) # Z.to_pos scale) * pow10 e)
      | None => NaN
      end.

Definition strDecimalLiteral (s : string) : JsNumber :=
  match s with
  | String "+"%char t => strUnsignedDecimalLiteral t
  | String "-"%char t => negate (strUnsignedDecimalLiteral t)
  | _ => strUnsignedDecimalLiteral s
  end.

(** [0x], [0o] and [0b] literals: [None] when [s] has no such prefix. *)
Definition nonDecimalIntegerLiteral (s : string) : option JsNumber :=
  match s with
  | String "0"%char (String c t) =>
      let base :=
        if (c =? "x")%char || (c =? "X")%char then Some 16%Z
        else if (c =? "o")%char || (c =? "O")%char then Some 8%Z
        else if (c =? "b")%char || (c =? "B")%char then Some 2%Z
        else None in
      match base with
      | Some b =>
          match spanDigits b t 0 0 with
          | (v, S _, EmptyString) => Some (Num (inject_Z v))
          | _ => Some NaN
          end
      | None => None
      end
  | _ => None
  end.

Definition Number (s : string) : JsNumber :=
  let t := JsString.trim s in
  if (t =? "")%string then Num 0
  else
    match nonDecimalIntegerLiteral t with
    | Some n => n
    | None => strDecimalLiteral t
    end.

Definition ToNumber (v : JsValue) : JsNumber :=
  match v with
  | undefined => NaN
  | VNumber n => n
  | VString s => Number s
  end.

(** [typeof v === "number"] *)
Definition isNumber (v : JsValue) : bool :=
  match v with VNumber _ => true | _ => false end.

(** Truthiness: [undefined], [NaN], zero and the empty string are falsy. *)
Definition truthy (v : JsValue) : bool :=
  match v with
  | undefined => false
  | VNumber NaN => false
  | VNumber (Num q) => negb (Qeq_bool q 0)
  | VNumber _ => true
  | VString s => JsString.truthy s
  end.

End JsNumeric.

(** ** The field accessor (app.js, lines 4-28) *)

Definition GRADE_FIELDS : list string :=
  [ "s1"; "s2"; "s3"; "s4"; "s5";
    "math"; "language"; "physics"; "chemistry"; "biology";
    "economics"; "geography"; "history" ].

Definition NUMERIC_FIELDS : list string := GRADE_FIELDS ++ ["rank_percentile"].

(** [Array.prototype.includes] on an array of strings. *)
Definition arrayIncludes (l : list string) (x : string) : bool :=
  bool_decide (x ∈ l).

Definition clamp (n min max : JsNumber) : JsValue :=
  if JsNumeric.isNaN n then undefined
  else VNumber (JsNumeric.Math_max min (JsNumeric.Math_min max n)).

(** The form: the [value] of every [input] and [select] element, by id.
    An id that is not bound has no element ([$(id)] is [null]). *)
Abbreviation Form := (gmap string string).

Definition val (form : Form) (id : string) : JsValue :=
  match form !! id with
  | None => undefined
  | Some value =>
      let raw := JsString.trim value in
      if (raw =? "")%string then undefined
      else if negb (JsNumeric.isNaN (JsNumeric.Number raw))
              && arrayIncludes NUMERIC_FIELDS id then
        let n := VNumber (JsNumeric.Number raw) in
        let n :=
          if arrayIncludes GRADE_FIELDS id
          then clamp (JsNumeric.ToNumber n) (Num 0) (Num 100) else n in
        let n :=
          if (id =? "rank_percentile")%string
          then clamp (JsNumeric.Math_round (JsNumeric.ToNumber n))
                     (Num 1) (Num 100)
          else n in
        n
      else VString raw
  end.

Definition atLeastOneGradeFilled (form : Form) : bool :=
  existsb (fun k => JsNumeric.isNumber (val form k)) (take 5 GRADE_FIELDS).

(** ** The knowledge base (app.js, lines 30-32 and 71-91)

    [UNIVERSITIES_DATA.all], [MAJORS_DATA.all] and [MAJORS_DATA.details] as
    the two loaders leave them.  Only the presence of a key of [details] is
    read by the code below. *)

Record MajorDetail : Type := {
  program : option string;
  tags : list string
}.

Record KnowledgeBase : Type := {
  UNIVERSITIES_DATA_all : list string;
  MAJORS_DATA_all : list string;
  MAJORS_DATA_details : gmap string MajorDetail
}.

(** ** The selection store (app.js, lines 34-48) *)

Inductive ChoiceKey : Type := Choice1 | Choice2 | Choice3.

Inductive SelectorType : Type := University | Major.

#[global] Instance ChoiceKey_eq_dec : EqDecision ChoiceKey.
Proof. solve_decision. Defined.

#[global] Instance SelectorType_eq_dec : EqDecision SelectorType.
Proof. solve_decision. Defined.

(** What a dropdown element shows: its [.opt] children, or the one
    [.empty] note. *)
Inductive DropdownContent : Type :=
| Options (items : list string)
| EmptyNote (message : string).

Record Dropdown : Type := {
  hidden : bool;
  content : DropdownContent
}.

(** One selector with the state of the elements bound to it.
    - [selected] is [null] ([None]) or the chosen name;
    - [disabled] stands for the [disabled] property and for the three things
      [setMajorDisabled] derives from the same boolean (the [disabled] class
      of the box, [input.disabled], the placeholder); a university selector
      has no such property, which reads as [false];
    - [input_value] and [input_block] are [input.value] and whether
      [input.style.display] is ['block'];
    - [selectedDiv] is the label of the chip, [None] for an empty element,
      and [chip_button] tells whether the chip holds its remove button. *)
Record Selector : Type := {
  selected : option string;
  disabled : bool;
  input_value : string;
  input_block : bool;
  dropdown : Dropdown;
  selectedDiv : option string;
  chip_button : bool
}.

Record Pair : Type := {
  university : Selector;
  major : Selector
}.

Record Store : Type := {
  choice1 : Pair;
  choice2 : Pair;
  choice3 : Pair
}.

(** [Object.keys(SELECTION_PAIRS)], in insertion order. *)
Definition keys : list ChoiceKey := [Choice1; Choice2; Choice3].

Definition pairOf (st : Store) (key : ChoiceKey) : Pair :=
  match key with
  | Choice1 => choice1 st
  | Choice2 => choice2 st
  | Choice3 => choice3 st
  end.

(** [SELECTION_PAIRS[choiceKey][type]] *)
Definition selector (st : Store) (key : ChoiceKey) (type : SelectorType)
  : Selector :=
  match type with
  | University => university (pairOf st key)
  | Major => major (pairOf st key)
  end.

Definition updatePair (f : Selector -> Selector) (type : SelectorType)
    (p : Pair) : Pair :=
  match type with
  | University => {| university := f (university p); major := major p |}
  | Major => {| university := university p; major := f (major p) |}
  end.

(** The store after [SELECTION_PAIRS[choiceKey][type]] has been changed by
    [f], every other selector being the same object as before. *)
Definition update (st : Store) (key : ChoiceKey) (type : SelectorType)
    (f : Selector -> Selector) : Store :=
  match key with
  | Choice1 => {| choice1 := updatePair f type (choice1 st);
                  choice2 := choice2 st; choice3 := choice3 st |}
  | Choice2 => {| choice1 := choice1 st;
                  choice2 := updatePair f type (choice2 st);
                  choice3 := choice3 st |}
  | Choice3 => {| choice1 := choice1 st; choice2 := choice2 st;
                  choice3 := updatePair f type (choice3 st) |}
  end.

Definition set_selected (v : option string) (s : Selector) : Selector :=
  {| selected := v; disabled := disabled s; input_value := input_value s;
     input_block := input_block s; dropdown := dropdown s;
     selectedDiv := selectedDiv s; chip_button := chip_button s |}.

Definition set_disabled (v : bool) (s : Selector) : Selector :=
  {| selected := selected s; disabled := v; input_value := input_value s;
     input_block := input_block s; dropdown := dropdown s;
     selectedDiv := selectedDiv s; chip_button := chip_button s |}.

Definition set_input_value (v : string) (s : Selector) : Selector :=
  {| selected := selected s; disabled := disabled s; input_value := v;
     input_block := input_block s; dropdown := dropdown s;
     selectedDiv := selectedDiv s; chip_button := chip_button s |}.

Definition set_input_block (v : bool) (s : Selector) : Selector :=
  {| selected := selected s; disabled := disabled s;
     input_value := input_value s; input_block := v; dropdown := dropdown s;
     selectedDiv := selectedDiv s; chip_button := chip_button s |}.

Definition set_dropdown (v : Dropdown) (s : Selector) : Selector :=
  {| selected := selected s; disabled := disabled s;
     input_value := input_value s; input_block := input_block s;
     dropdown := v; selectedDiv := selectedDiv s;
     chip_button := chip_button s |}.

(** [selectedDiv.innerHTML = ...]: the chip with its label, with or without
    its remove button, or nothing. *)
Definition set_selectedDiv (v : option string) (button : bool) (s : Selector)
  : Selector :=
  {| selected := selected s; disabled := disabled s;
     input_value := input_value s; input_block := input_block s;
     dropdown := dropdown s; selectedDiv := v; chip_button := button |}.

Definition set_hidden (v : bool) (s : Selector) : Selector :=
  set_dropdown {| hidden := v; content := content (dropdown s) |} s.

(** [x || null] for [x] a string or [null]: the empty string is falsy. *)
Definition orNull (x : option string) : option string :=
  match x with
  | Some s => if JsString.truthy s then Some s else None
  | None => None
  end.

(** The test [if (x)] for [x] a string or [null]. *)
Definition isTruthy (x : option string) : bool :=
  match orNull x with Some _ => true | None => false end.

(** The store of lines 35-48 once [initSelectors] has bound the elements,
    for a page whose inputs start empty and whose dropdowns start hidden. *)
Definition emptySelector (dis : bool) : Selector :=
  {| selected := None; disabled := dis; input_value := "";
     input_block := true;
     dropdown := {| hidden := true; content := Options [] |};
     selectedDiv := None; chip_button := false |}.

Definition emptyPair : Pair :=
  {| university := emptySelector false; major := emptySelector true |}.

Definition SELECTION_PAIRS : Store :=
  {| choice1 := emptyPair; choice2 := emptyPair; choice3 := emptyPair |}.

(** ** Selection operations (app.js, lines 159-219 and 610-615) *)

(** How a call ends: it returns, or it throws and what follows the call
    does not run.  Either way it leaves a store. *)
Inductive Outcome : Type :=
| Returns (st : Store)
| Throws (st : Store).

Definition storeOf (o : Outcome) : Store :=
  match o with
  | Returns st => st
  | Throws st => st
  end.

(** [renderSelectedItem] writes the name into the markup of the chip as it
    is (lines 164-169) and then asks the chip for its remove button (line
    173).  [removeBtn] is the answer of [querySelector]: the button, or
    [null] when the markup of the name has swallowed it (a name that opens
    a comment, say).  On [null] the call of [addEventListener] throws, with
    the chip written and the input hidden. *)
Definition renderSelectedItem (st : Store) (choiceKey : ChoiceKey)
    (type : SelectorType) (removeBtn : bool) : Outcome :=
  let s := selector st choiceKey type in
  if isTruthy (selected s) then
    let st :=
      update st choiceKey type (fun s =>
        set_input_block false (set_selectedDiv (selected s) removeBtn s)) in
    if removeBtn then Returns st else Throws st
  else
    Returns
      (update st choiceKey type (fun s =>
         set_input_block true (set_selectedDiv None false s))).

Definition setMajorDisabled (st : Store) (choiceKey : ChoiceKey)
    (dis : bool) : Store :=
  update st choiceKey Major (set_disabled dis).

(** Lines 184-187, which [clearSelection] runs for either type.  When line
    187 runs the selector holds [null], so [renderSelectedItem] writes no
    chip, asks for no button and returns. *)
Definition clearSelector (st : Store) (choiceKey : ChoiceKey)
    (type : SelectorType) : Store :=
  let st := update st choiceKey type (set_selected None) in
  let st := update st choiceKey type (set_input_value "") in
  let st := update st choiceKey type (set_hidden true) in
  storeOf (renderSelectedItem st choiceKey type false).

(** [clearSelection]: for a university the function calls itself once on
    the major of the same choice, and that call ends after line 187. *)
Definition clearSelection (st : Store) (choiceKey : ChoiceKey)
    (type : SelectorType) : Store :=
  let st := clearSelector st choiceKey type in
  match type with
  | University =>
      let st := clearSelector st choiceKey Major in
      setMajorDisabled st choiceKey true
  | Major => st
  end.

(** [selectItem], with the answer [removeBtn] the call of line 200 gets.
    When that call throws, [selectItem] ends there: lines 203-206 do not
    run, and the listener that called it ends with it. *)
Definition selectItem (st : Store) (choiceKey : ChoiceKey)
    (type : SelectorType) (item : string) (removeBtn : bool) : Store :=
  let st := update st choiceKey type (set_selected (Some item)) in
  let st := update st choiceKey type (set_input_value "") in
  let st := update st choiceKey type (set_hidden true) in
  match renderSelectedItem st choiceKey type removeBtn with
  | Throws st => st
  | Returns st =>
      match type with
      | University =>
          let st := clearSelection st choiceKey Major in
          setMajorDisabled st choiceKey false
      | Major => st
      end
  end.

(** Whether a call of [selectItem] throws: the item is truthy, so that a
    chip is written, and the chip gives no button. *)
Definition throws (item : string) (removeBtn : bool) : bool :=
  JsString.truthy item && negb removeBtn.

(** The loop of the reset handler (lines 611-615).  The lines before it
    empty the form fields, and with them the inputs of the selectors, which
    the loop empties as well. *)
Definition resetSelections (st : Store) : Store :=
  foldl (fun st choiceKey =>
           let st := clearSelection st choiceKey University in
           let st := clearSelection st choiceKey Major in
           setMajorDisabled st choiceKey true)
        st keys.

(** ** The availability resolver (app.js, lines 93-157) *)

Section Availability.

Variable kb : KnowledgeBase.

Definition getMajorsForUniversity (universityName : option string)
  : list string :=
  match orNull universityName with
  | None => []
  | Some name =>
      filter (fun m => is_Some (MAJORS_DATA_details kb !! (name +:+ " | " +:+ m)))
             (MAJORS_DATA_all kb)
  end.

Definition getSelected (type : SelectorType) (st : Store) : list string :=
  foldl (fun acc key =>
           match orNull (selected (selector st key type)) with
           | Some s => acc ++ [s]
           | None => acc
           end)
        [] keys.

Definition getSelectedUniversities : Store -> list string :=
  getSelected University.

Definition getSelectedMajors : Store -> list string :=
  getSelected Major.

(** The [Set] that both resolvers build from the other selectors. *)
Definition alreadySelected (type : SelectorType) (st : Store)
    (currentKey : ChoiceKey) : gset string :=
  foldl (fun acc key =>
           if bool_decide (key ≠ currentKey) then
             match orNull (selected (selector st key type)) with
             | Some s => {[ s ]} ∪ acc
             | None => acc
             end
           else acc)
        ∅ keys.

Definition getAvailableUniversities (st : Store) (currentKey : ChoiceKey)
  : list string :=
  let already := alreadySelected University st currentKey in
  filter (fun u => u ∉ already) (UNIVERSITIES_DATA_all kb).

Definition getAvailableMajorsForChoice (st : Store) (choiceKey : ChoiceKey)
  : list string :=
  let universitySelected := selected (selector st choiceKey University) in
  if negb (isTruthy universitySelected) then []
  else
    let alreadySelectedMajors := alreadySelected Major st choiceKey in
    filter (fun m => m ∉ alreadySelectedMajors)
           (getMajorsForUniversity universitySelected).

(** The local [available] of [showAllOptions] and [renderSearchResults]
    (lines 223-230 and 267-273): it starts as [[]] and is still so where
    the two functions return on a disabled major selector. *)
Definition availableFor (st : Store) (choiceKey : ChoiceKey)
    (type : SelectorType) : list string :=
  match type with
  | University => getAvailableUniversities st choiceKey
  | Major =>
      if disabled (selector st choiceKey Major) then []
      else getAvailableMajorsForChoice st choiceKey
  end.

(** ** The dropdown renderers (app.js, lines 221-303) *)

Definition show (c : DropdownContent) (s : Selector) : Selector :=
  set_dropdown {| hidden := false; content := c |} s.

Definition showAllOptions (st : Store) (choiceKey : ChoiceKey)
    (type : SelectorType) : Store :=
  if bool_decide (type = Major) && disabled (selector st choiceKey type)
  then st
  else
    let available := availableFor st choiceKey type in
    match available with
    | [] =>
        let message :=
          match type with
          | University => "No universities available."
          | Major => "No majors available."
          end in
        update st choiceKey type (show (EmptyNote message))
    | _ => update st choiceKey type (show (Options (take 12 available)))
    end.

Definition renderSearchResults (st : Store) (choiceKey : ChoiceKey)
    (type : SelectorType) (query : string) : Store :=
  if negb (JsString.truthy query)
  then update st choiceKey type (set_hidden true)
  else if bool_decide (type = Major) && disabled (selector st choiceKey type)
  then st
  else
    let available := availableFor st choiceKey type in
    let filtered :=
      take 12
        (filter (fun item =>
                   JsString.includes (JsString.toLowerCase item)
                                     (JsString.toLowerCase query) = true)
                available) in
    match filtered with
    | [] =>
        update st choiceKey type
          (show (EmptyNote ("No matches for " +:+ String "034"%char query
                            +:+ String "034"%char ".")))
    | _ => update st choiceKey type (show (Options filtered))
    end.

(** The [keydown] listener of the input of a selector on the Enter key
    (lines 330-335): it fires the [mousedown] listener of the first [.opt]
    child of the dropdown, which selects the item that option was rendered
    for; [removeBtn] is the answer that call of [selectItem] gets. *)
Definition keydownEnter (st : Store) (choiceKey : ChoiceKey)
    (type : SelectorType) (removeBtn : bool) : Store :=
  if bool_decide (type = Major) && disabled (selector st choiceKey type)
  then st
  else
    match content (dropdown (selector st choiceKey type)) with
    | Options (first :: _) => selectItem st choiceKey type first removeBtn
    | _ => st
    end.

(** The options a user can pick from a dropdown: none while it is hidden. *)
Definition offered (st : Store) (choiceKey : ChoiceKey) (type : SelectorType)
  : list string :=
  let d := dropdown (selector st choiceKey type) in
  if hidden d then []
  else match content d with Options items => items | EmptyNote _ => [] end.

End Availability.

(** ** Validation (app.js, lines 503-553) *)

(** [v === s] for a string literal [s]. *)
Definition strictEquals (v : JsValue) (s : string) : bool :=
  match v with
  | VString x => (x =? s)%string
  | _ => false
  end.

(** [index + 1] in a template literal, for the three indices of [keys]. *)
Definition choiceNumber (index : nat) : string :=
  match index with
  | 0 => "1"
  | 1 => "2"
  | 2 => "3"
  | _ => ""
  end.

Definition ISSUE_GRADES : string := "Please fill at least one of S1—S5 grades".
Definition ISSUE_UNIVERSITY : string :=
  "Please select at least one target university".
Definition ISSUE_MAJOR : string := "Please select at least one target major".
Definition ISSUE_PAIR (index : nat) (univSelected : string) : string :=
  "Please select a major for Choice " +:+ choiceNumber index
    +:+ " (" +:+ univSelected +:+ ")".
Definition ISSUE_MATH : string :=
  "Math grade is highly recommended for Saintek program".
Definition ISSUE_SCIENCE : string :=
  "At least one science subject (Physics/Chemistry/Biology) is recommended".
Definition ISSUE_LANGUAGE : string :=
  "Language grade is highly recommended for Soshum program".

(** [issues.push(x)] under a condition. *)
Definition pushIf (c : bool) (x : string) (issues : list string)
  : list string :=
  if c then issues ++ [x] else issues.

Definition validateForm (form : Form) (st : Store) : list string :=
  let issues := [] in
  let issues := pushIf (negb (atLeastOneGradeFilled form)) ISSUE_GRADES issues in
  let selectedUniversities := getSelectedUniversities st in
  let selectedMajors := getSelectedMajors st in
  let issues :=
    pushIf (length selectedUniversities =? 0)%nat ISSUE_UNIVERSITY issues in
  let issues := pushIf (length selectedMajors =? 0)%nat ISSUE_MAJOR issues in
  let issues :=
    foldl (fun issues '(index, key) =>
             let univSelected := selected (selector st key University) in
             let majorSelected := selected (selector st key Major) in
             match orNull univSelected with
             | Some u =>
                 pushIf (negb (isTruthy majorSelected)) (ISSUE_PAIR index u)
                        issues
             | None => issues
             end)
          issues (imap (fun index key => (index, key)) keys) in
  let program := val form "program" in
  let issues :=
    if strictEquals program "saintek" && (0 <? length selectedMajors)%nat then
      let issues :=
        pushIf (negb (JsNumeric.truthy (val form "math"))) ISSUE_MATH issues in
      pushIf (negb (JsNumeric.truthy (val form "physics"))
              && negb (JsNumeric.truthy (val form "chemistry"))
              && negb (JsNumeric.truthy (val form "biology")))
             ISSUE_SCIENCE issues
    else issues in
  let issues :=
    if strictEquals program "soshum" && (0 <? length selectedMajors)%nat then
      pushIf (negb (JsNumeric.truthy (val form "language"))) ISSUE_LANGUAGE
             issues
    else issues in
  issues.

(** ** The payload (app.js, lines 405-430) *)

Record Payload : Type := {
  p_program : JsValue;
  target_university : string;
  target_universities : list string;
  target_university_1 : option string;
  target_university_2 : option string;
  target_university_3 : option string;
  target_major : string;
  target_majors : list string;
  target_major_1 : option string;
  target_major_2 : option string;
  target_major_3 : option string;
  competitiveness : JsValue;
  grades : list (string * JsValue);
  rank_percentile : JsValue;
  achievement : JsValue;
  accreditation : JsValue
}.

(** [xs[0] || "Unknown"] *)
Definition firstOrUnknown (xs : list string) : string :=
  match orNull (head xs) with
  | Some x => x
  | None => "Unknown"
  end.

(** [v ?? d] *)
Definition nullish (v d : JsValue) : JsValue :=
  match v with
  | undefined => d
  | _ => v
  end.

Definition collectPayload (form : Form) (st : Store) : Payload :=
  let selectedUniversities := getSelectedUniversities st in
  let selectedMajors := getSelectedMajors st in
  {| p_program := val form "program";
     target_university := firstOrUnknown selectedUniversities;
     target_universities := selectedUniversities;
     target_university_1 := orNull (selected (university (choice1 st)));
     target_university_2 := orNull (selected (university (choice2 st)));
     target_university_3 := orNull (selected (university (choice3 st)));
     target_major := firstOrUnknown selectedMajors;
     target_majors := selectedMajors;
     target_major_1 := orNull (selected (major (choice1 st)));
     target_major_2 := orNull (selected (major (choice2 st)));
     target_major_3 := orNull (selected (major (choice3 st)));
     competitiveness := val form "competitiveness";
     grades := map (fun k => (k, val form k)) GRADE_FIELDS;
     rank_percentile :=
       nullish (val form "rank_percentile") (VNumber (Num 100));
     achievement := val form "achievement";
     accreditation := val form "accreditation" |}.

(** ** The page and the click on [predictBtn] (app.js, lines 432-452,
    492-501 and 556-600) *)

(** The argument of [renderResult]: an [error] that is an array or a single
    text, or a prediction.  The markup of a prediction (lines 441-451)
    formats floating-point numbers and is carried here as it is rendered. *)
Inductive ResultData : Type :=
| ErrorList (errors : list string)
| ErrorText (error : string)
| Prediction (markup : string).

Record ResultElement : Type := {
  className : string;
  innerHTML : string
}.

Definition concat_strings (l : list string) : string :=
  fold_right String.append "" l.

Definition renderResult (data : ResultData) : ResultElement :=
  match data with
  | ErrorList errors =>
      {| className := "error";
         innerHTML :=
           "<strong>Please check:</strong><ul>"
           +:+ concat_strings (map (fun e => "<li>" +:+ e +:+ "</li>") errors)
           +:+ "</ul>" |}
  | ErrorText error =>
      {| className := "error"; innerHTML := "Error: " +:+ error |}
  | Prediction markup => {| className := "result"; innerHTML := markup |}
  end.

Record Button : Type := {
  btn_disabled : bool;
  textContent : string;
  dataset_t : option string
}.

Definition setLoading (v : bool) (b : Button) : Button :=
  if v then
    {| btn_disabled := v; textContent := " Predicting…";
       dataset_t := Some (textContent b) |}
  else
    {| btn_disabled := v;
       textContent :=
         match orNull (dataset_t b) with Some t => t | None => "Predict" end;
       dataset_t := dataset_t b |}.

Record Request : Type := {
  url : string;
  body : Payload
}.

(** The state a click on [predictBtn] can read or write; [requests] is the
    log of the calls to [fetch], the latest first. *)
Record Page : Type := {
  form : Form;
  store : Store;
  result : ResultElement;
  predictBtn : Button;
  requests : list Request
}.

(** The click handler up to its first [await]: what runs before the server
    answers.  With issues it ends at line 563; without, it has sent the
    request to [/api/predict] and waits. *)
Definition predictBtn_click (p : Page) : Page :=
  let issues := validateForm (form p) (store p) in
  if (0 <? length issues)%nat then
    {| form := form p; store := store p;
       result := renderResult (ErrorList issues);
       predictBtn := predictBtn p; requests := requests p |}
  else
    let payload := collectPayload (form p) (store p) in
    {| form := form p; store := store p; result := result p;
       predictBtn := setLoading true (predictBtn p);
       requests := {| url := "/api/predict"; body := payload |} :: requests p |}.

(** ** Reachable stores

    The stores the page can be in: from an empty store, by the three
    operations of the selection coordinator and by the rendering of the
    dropdowns.  An item can only be selected from the list the dropdown of
    that selector is filled from.  [found] says which answers the chip of a
    selection may give about its remove button. *)

Definition initialStore (st : Store) : Prop :=
  forall key,
    selected (selector st key University) = None /\
    selected (selector st key Major) = None /\
    disabled (selector st key Major) = true /\
    offered st key Major = [].

Inductive reachableWith (found : bool -> Prop) (kb : KnowledgeBase)
  : Store -> Prop :=
| reach_init st :
    initialStore st -> reachableWith found kb st
| reach_select st key type item removeBtn :
    reachableWith found kb st ->
    item ∈ availableFor kb st key type ->
    found removeBtn ->
    reachableWith found kb (selectItem st key type item removeBtn)
| reach_clear st key type :
    reachableWith found kb st ->
    reachableWith found kb (clearSelection st key type)
| reach_reset st :
    reachableWith found kb st ->
    reachableWith found kb (resetSelections st)
| reach_show st key type :
    reachableWith found kb st ->
    reachableWith found kb (showAllOptions kb st key type)
| reach_search st key type query :
    reachableWith found kb st ->
    reachableWith found kb (renderSearchResults kb st key type query)
| reach_hide st key type :
    reachableWith found kb st ->
    reachableWith found kb (update st key type (set_hidden true)).

(** Every store the page can reach, whatever the chips answer. *)
Definition reachable (kb : KnowledgeBase) (st : Store) : Prop :=
  reachableWith (fun _ => True) kb st.

(** The stores reached while every chip written holds its remove button:
    no call of [selectItem] has thrown. *)
Definition reachableIntact (kb : KnowledgeBase) (st : Store) : Prop :=
  reachableWith (fun removeBtn => removeBtn = true) kb st.

(** Two stores with the same selections: the same [selected] and the same
    [disabled] in every selector. *)
Definition sameSelection (st st' : Store) : Prop :=
  forall key type,
    selected (selector st' key type) = selected (selector st key type) /\
    disabled (selector st' key type) = disabled (selector st key type).

(** The value chosen in a selector, [None] when nothing is ([null] or the
    empty string). *)
Definition chosen (st : Store) (key : ChoiceKey) (type : SelectorType)
  : option string :=
  orNull (selected (selector st key type)).

(** A name is selected in a selector of another choice. *)
Definition selectedElsewhere (type : SelectorType) (st : Store)
    (key : ChoiceKey) (x : string) : Prop :=
  exists other, other ≠ key /\ chosen st other type = Some x.

#[global] Instance ChoiceKey_finite : Finite ChoiceKey.
Proof.
  refine {| enum := keys |}.
  - unfold keys.
    repeat (apply NoDup_cons; split;
            [rewrite ?elem_of_cons, ?elem_of_nil; intuition discriminate|]).
    apply NoDup_nil_2.
  - intros []; unfold keys; rewrite ?elem_of_cons; auto.
Defined.

#[global] Instance selectedElsewhere_dec type st key x :
  Decision (selectedElsewhere type st key x).
Proof. unfold selectedElsewhere. apply _. Defined.

(** No name is chosen in two choices. *)
Definition distinctChoices (type : SelectorType) (st : Store) : Prop :=
  forall k1 k2 x,
    k1 ≠ k2 -> chosen st k1 type = Some x -> chosen st k2 type ≠ Some x.




(** [q] occurs in [s]. *)
Definition Substring (q s : string) : Prop :=
  exists a b, s = a +:+ q +:+ b.

(** An item matches a query when, both in lower case, the query occurs in
    the item. *)
Definition matchesQuery (query item : string) : Prop :=
  Substring (JsString.toLowerCase query) (JsString.toLowerCase item).

(** ** Reading a field, in the words of the specification *)

(** A text of white space only (the empty text is one). *)
Definition blank (s : string) : Prop :=
  forall c, c ∈ list_ascii_of_string s -> JsString.isWhiteSpace c = true.

(** [r] is [n] clamped to the interval from [lo] to [hi]. *)
Definition clampsTo (lo hi : Q) (n : JsNumber) (r : Q) : Prop :=
  (lo <= r <= hi)%Q /\
  match n with
  | NaN => False
  | PosInfinity => (r == hi)%Q
  | NegInfinity => (r == lo)%Q
  | Num q =>
      ((q < lo)%Q -> (r == lo)%Q) /\
      ((hi < q)%Q -> (r == hi)%Q) /\
      ((lo <= q <= hi)%Q -> (r == q)%Q)
  end.

(** [m] is the integer nearest to [q], the upper one of two. *)
Definition roundsTo (q : Q) (m : Z) : Prop :=
  (inject_Z m - (1 # 2) <= q < inject_Z m + (1 # 2))%Q.

(** ** The rules of the validator, one by one

    What each rule of the specification contributes to the list of issues,
    as a function of the form and the store alone. *)

Definition whenever (c : bool) (x : string) : list string :=
  if c then [x] else [].

Definition issuesGrades (form : Form) : list string :=
  whenever (negb (atLeastOneGradeFilled form)) ISSUE_GRADES.

Definition issuesUniversity (st : Store) : list string :=
  whenever (bool_decide (getSelectedUniversities st = [])) ISSUE_UNIVERSITY.

Definition issuesMajor (st : Store) : list string :=
  whenever (bool_decide (getSelectedMajors st = [])) ISSUE_MAJOR.

Definition issuesPair (st : Store) (index : nat) (key : ChoiceKey)
  : list string :=
  match chosen st key University, chosen st key Major with
  | Some u, None => [ISSUE_PAIR index u]
  | _, _ => []
  end.

Definition issuesPairs (st : Store) : list string :=
  issuesPair st 0 Choice1 ++ issuesPair st 1 Choice2 ++ issuesPair st 2 Choice3.

(** The guard of the two advisory rules: the program read from the form,
    and a major chosen in some choice. *)
Definition advisoryFor (prog : string) (form : Form) (st : Store) : bool :=
  strictEquals (val form "program") prog
  && bool_decide (getSelectedMajors st ≠ []).

Definition issuesSaintek (form : Form) (st : Store) : list string :=
  if advisoryFor "saintek" form st then
    whenever (negb (JsNumeric.truthy (val form "math"))) ISSUE_MATH
    ++ whenever (negb (JsNumeric.truthy (val form "physics"))
                 && negb (JsNumeric.truthy (val form "chemistry"))
                 && negb (JsNumeric.truthy (val form "biology")))
                ISSUE_SCIENCE
  else [].

Definition issuesSoshum (form : Form) (st : Store) : list string :=
  if advisoryFor "soshum" form st then
    whenever (negb (JsNumeric.truthy (val form "language"))) ISSUE_LANGUAGE
  else [].

(** The first choice, in the order of [keys], that holds a value. *)
Definition firstPopulated (type : SelectorType) (st : Store) : option string :=
  match chosen st Choice1 type, chosen st Choice2 type, chosen st Choice3 type with
  | Some x, _, _ => Some x
  | None, Some y, _ => Some y
  | None, None, z => z
  end.

(** * The rest of the page *)

(** ** The knowledge-base loaders (app.js, lines 71-91)

    What a loader gets: the request fails, its body cannot be read or is
    no object ([FetchFailed]: the [catch] runs), or the body is read and
    the field is an array of names or something else.  For the majors the
    body also carries the details, or nothing truthy in their place. *)

Inductive Fetched (A : Type) : Type :=
| FetchFailed
| FetchedOther
| FetchedArray (items : A).

Arguments FetchFailed {A}.
Arguments FetchedOther {A}.
Arguments FetchedArray {A} items.

Definition loadUniversitiesOptions (answer : Fetched (list string))
    (kb : KnowledgeBase) : KnowledgeBase :=
  {| UNIVERSITIES_DATA_all :=
       match answer with
       | FetchedArray universities => universities
       | FetchedOther => []
       | FetchFailed => []
       end;
     MAJORS_DATA_all := MAJORS_DATA_all kb;
     MAJORS_DATA_details := MAJORS_DATA_details kb |}.

Definition loadMajorsOptions
    (answer : Fetched (list string)) (details : option (gmap string MajorDetail))
    (kb : KnowledgeBase) : KnowledgeBase :=
  {| UNIVERSITIES_DATA_all := UNIVERSITIES_DATA_all kb;
     MAJORS_DATA_all :=
       match answer with
       | FetchedArray majors => majors
       | FetchedOther => []
       | FetchFailed => []
       end;
     MAJORS_DATA_details :=
       match answer with
       | FetchFailed => ∅
       | _ => match details with Some d => d | None => ∅ end
       end |}.

(** [UNIVERSITIES_DATA] and [MAJORS_DATA] as the script declares them.
    [MAJORS_DATA.details] does not exist yet; the functions that take a
    [KnowledgeBase] read it only inside the [filter] over [MAJORS_DATA.all]
    (line 104), which calls nothing while that list is empty, so the empty
    map stands for it here.  [programOfMajor], which reads it outright,
    does not take a [KnowledgeBase]: it takes the details as they are at
    that moment, set or not ([detailsAfter] below). *)
Definition kb_initial : KnowledgeBase :=
  {| UNIVERSITIES_DATA_all := []; MAJORS_DATA_all := [];
     MAJORS_DATA_details := ∅ |}.

(** ** The listeners of a selector (app.js, lines 173-176, 248-256,
    293-302 and 305-398) *)

Section Listeners.

Variable kb : KnowledgeBase.

(** The [mousedown] listener of the option at [index] of a dropdown, which
    a user can reach while the dropdown is shown; [removeBtn] is the answer
    its call of [selectItem] gets. *)
Definition optionMousedown (st : Store) (choiceKey : ChoiceKey)
    (type : SelectorType) (index : nat) (removeBtn : bool) : Store :=
  let d := dropdown (selector st choiceKey type) in
  if hidden d then st
  else
    match content d with
    | Options items =>
        match items !! index with
        | Some item => selectItem st choiceKey type item removeBtn
        | None => st
        end
    | EmptyNote _ => st
    end.

(** The [click] listener of the remove button of a chip, for a chip that
    holds the button. *)
Definition removeClick (st : Store) (choiceKey : ChoiceKey)
    (type : SelectorType) : Store :=
  let s := selector st choiceKey type in
  match selectedDiv s with
  | Some _ => if chip_button s then clearSelection st choiceKey type else st
  | None => st
  end.

(** The [focus] listener of the input. *)
Definition inputFocus (st : Store) (choiceKey : ChoiceKey)
    (type : SelectorType) : Store :=
  let sel := selector st choiceKey type in
  if bool_decide (type = Major) && disabled sel then st
  else
    let query := JsString.trim (input_value sel) in
    if JsString.truthy query
    then renderSearchResults kb st choiceKey type query
    else st.

(** The [input] listener (lines 318-320), run after the browser has left
    [text] in the input. *)
Definition inputTyped (st : Store) (choiceKey : ChoiceKey)
    (type : SelectorType) (text : string) : Store :=
  let st := update st choiceKey type (set_input_value text) in
  renderSearchResults kb st choiceKey type (JsString.trim text).

(** The [keydown] listener on the Escape key. *)
Definition keydownEscape (st : Store) (choiceKey : ChoiceKey)
    (type : SelectorType) : Store :=
  if bool_decide (type = Major) && disabled (selector st choiceKey type)
  then st
  else update st choiceKey type (set_hidden true).

(** The callback the [blur] listener leaves with the timer. *)
Definition blurTimeout (st : Store) (choiceKey : ChoiceKey)
    (type : SelectorType) : Store :=
  update st choiceKey type (set_hidden true).

(** The [click] listener of the box, for a click that is not on the remove
    button.  [input.focus()] runs the focus listener, unless the input has
    the focus already or cannot take it ([focused]). *)
Definition boxClick (st : Store) (choiceKey : ChoiceKey)
    (type : SelectorType) (focused : bool) : Store :=
  let sel := selector st choiceKey type in
  if bool_decide (type = Major) && disabled sel then st
  else
    let st :=
      if isTruthy (selected sel)
      then update st choiceKey type (set_input_block true)
      else st in
    let st := if focused then st else inputFocus st choiceKey type in
    showAllOptions kb st choiceKey type.

(** The [change] listener of the input (lines 363-374): for either type it
    searches the universities. *)
Definition inputChange (st : Store) (choiceKey : ChoiceKey)
    (type : SelectorType) : Store :=
  let query := JsString.trim (input_value (selector st choiceKey type)) in
  let st :=
    if JsString.truthy query
    then renderSearchResults kb st choiceKey University query
    else st in
  if isTruthy (selected (selector st choiceKey type))
  then showAllOptions kb (setMajorDisabled st choiceKey false) choiceKey Major
  else st.

(** The [change] listener of the program field (lines 384-398). *)
Definition programChange (st : Store) : Store :=
  foldl (fun st choiceKey =>
           foldl (fun st type =>
                    let sel := selector st choiceKey type in
                    if negb (hidden (dropdown sel)) then
                      if JsString.truthy (JsString.trim (input_value sel))
                      then renderSearchResults kb st choiceKey type
                             (JsString.trim (input_value sel))
                      else showAllOptions kb st choiceKey type
                    else st)
                 st [University; Major])
        st keys.

(** Line 603 of the reset handler, for the inputs of the selectors: it
    empties every [input] of the page. *)
Definition emptyInputs (st : Store) : Store :=
  foldl (fun st choiceKey =>
           foldl (fun st type => update st choiceKey type (set_input_value ""))
                 st [University; Major])
        st keys.

(** The reset handler (lines 602-620), for the store.  On a page with
    the five fields of lines 604-608 it runs to its end; on a page that
    lacks one of them ([allFields] is [false]) the assignment to that field
    throws and the handler ends before its loop. *)
Definition resetClick (st : Store) (allFields : bool) : Store :=
  let st := emptyInputs st in
  if allFields then resetSelections st else st.

(** What can happen to the selectors of a page. *)
Inductive UiEvent : Type :=
| OptionMousedown (choiceKey : ChoiceKey) (type : SelectorType) (index : nat)
                  (removeBtn : bool)
| RemoveClick (choiceKey : ChoiceKey) (type : SelectorType)
| BoxClick (choiceKey : ChoiceKey) (type : SelectorType) (focused : bool)
| InputFocus (choiceKey : ChoiceKey) (type : SelectorType)
| InputTyped (choiceKey : ChoiceKey) (type : SelectorType) (text : string)
| KeydownEnter (choiceKey : ChoiceKey) (type : SelectorType)
               (removeBtn : bool)
| KeydownEscape (choiceKey : ChoiceKey) (type : SelectorType)
| BlurTimeout (choiceKey : ChoiceKey) (type : SelectorType)
| InputChange (choiceKey : ChoiceKey) (type : SelectorType)
| ProgramChange
| ResetClick (allFields : bool).

Definition dispatch (st : Store) (e : UiEvent) : Store :=
  match e with
  | OptionMousedown k t i removeBtn => optionMousedown st k t i removeBtn
  | RemoveClick k t => removeClick st k t
  | BoxClick k t focused => boxClick st k t focused
  | InputFocus k t => inputFocus st k t
  | InputTyped k t text => inputTyped st k t text
  | KeydownEnter k t removeBtn => keydownEnter st k t removeBtn
  | KeydownEscape k t => keydownEscape st k t
  | BlurTimeout k t => blurTimeout st k t
  | InputChange k t => inputChange st k t
  | ProgramChange => programChange st
  | ResetClick allFields => resetClick st allFields
  end.

End Listeners.


(** The answer an event gets from the chip it writes, for the two events
    that select; no other event asks. *)
Definition buttonFound (e : UiEvent) : bool :=
  match e with
  | OptionMousedown _ _ _ removeBtn | KeydownEnter _ _ removeBtn => removeBtn
  | _ => true
  end.

(** ** A session of the page

    The globals of the script: the two data objects and the store.  A
    session starts with the data empty (lines 31-32) and the store of lines
    35-48; the two requests of [initSelectors] (line 401) are answered at
    some time between the events of the user. *)

Record Globals : Type := {
  DATA : KnowledgeBase;
  PAIRS : Store
}.

Inductive Step : Type :=
| Ui (e : UiEvent)
| UniversitiesLoaded (answer : Fetched (list string))
| MajorsLoaded (answer : Fetched (list string))
               (details : option (gmap string MajorDetail)).

Definition step (g : Globals) (s : Step) : Globals :=
  match s with
  | Ui e => {| DATA := DATA g; PAIRS := dispatch (DATA g) (PAIRS g) e |}
  | UniversitiesLoaded answer =>
      {| DATA := loadUniversitiesOptions answer (DATA g); PAIRS := PAIRS g |}
  | MajorsLoaded answer details =>
      {| DATA := loadMajorsOptions answer details (DATA g); PAIRS := PAIRS g |}
  end.

Definition session (steps : list Step) : Globals :=
  foldl step {| DATA := kb_initial; PAIRS := SELECTION_PAIRS |} steps.


Definition isMajorsLoaded (s : Step) : bool :=
  match s with MajorsLoaded _ _ => true | _ => false end.


(** [MAJORS_DATA.details] in the course of a session: the script declares
    [MAJORS_DATA] without it (line 32), and the loader of the majors writes
    it when its request is answered, however it is answered. *)
Definition detailsAfter (steps : list Step)
  : option (gmap string MajorDetail) :=
  if existsb isMajorsLoaded steps
  then Some (MAJORS_DATA_details (DATA (session steps)))
  else None.

(** Every chip written in the session holds its remove button: no call of
    [selectItem] has thrown. *)
Definition buttonsFound (steps : list Step) : Prop :=
  forall e, Ui e ∈ steps -> buttonFound e = true.

(** ** Properties of a store, in words *)

(** The chip of every selector shows what is selected, and an empty
    selector shows its input. *)
Definition chipsShowSelection (st : Store) : Prop :=
  forall key type,
    selectedDiv (selector st key type) =
      orNull (selected (selector st key type)) /\
    (isTruthy (selected (selector st key type)) = false ->
     input_block (selector st key type) = true).

(** The names of the knowledge base for one type of selector. *)
Definition namesOf (kb : KnowledgeBase) (type : SelectorType) : list string :=
  match type with
  | University => UNIVERSITIES_DATA_all kb
  | Major => MAJORS_DATA_all kb
  end.

(** Every name in a selection or among the options of a dropdown has the
    property [N] of its type. *)
Definition within (N : SelectorType -> string -> Prop) (st : Store) : Prop :=
  forall key type,
    (forall x, selected (selector st key type) = Some x -> N type x) /\
    (forall items, content (dropdown (selector st key type)) = Options items ->
                   forall x, x ∈ items -> N type x).



(** What holds of the two selectors of a choice whatever the chips
    answer: an enabled major selector stands beside a university that holds
    a value, a major is held only by an enabled selector, and the dropdown
    of a disabled major selector is hidden. *)
Definition guarded (st : Store) : Prop :=
  forall key,
    (disabled (selector st key Major) = false ->
     selected (selector st key University) ≠ None) /\
    (selected (selector st key Major) ≠ None ->
     disabled (selector st key Major) = false) /\
    (disabled (selector st key Major) = true ->
     hidden (dropdown (selector st key Major)) = true).

(** A dropdown lists twelve options at most, and one that is shown is not
    blank: it lists an option or holds a note. *)
Definition tidyContent (vis : bool) (c : DropdownContent) : Prop :=
  match c with
  | Options items => length items <= 12 /\ (vis = true -> items ≠ [])
  | EmptyNote _ => True
  end.

Definition tidy (st : Store) : Prop :=
  forall key type,
    tidyContent (negb (hidden (dropdown (selector st key type))))
                (content (dropdown (selector st key type))).

(** The selector an operation leaves behind: emptied, with its major
    switch set to [dis], or holding [item]; the content of its dropdown
    stays and the dropdown is hidden. *)
Definition cleared (dis : bool) (s : Selector) : Selector :=
  {| selected := None; disabled := dis; input_value := "";
     input_block := true;
     dropdown := {| hidden := true; content := content (dropdown s) |};
     selectedDiv := None; chip_button := false |}.

Definition picked (item : string) (removeBtn : bool) (s : Selector)
  : Selector :=
  {| selected := Some item; disabled := disabled s; input_value := "";
     input_block := negb (JsString.truthy item);
     dropdown := {| hidden := true; content := content (dropdown s) |};
     selectedDiv := orNull (Some item);
     chip_button := JsString.truthy item && removeBtn |}.

(** The properties together, as the induction over a session needs them.
    With [intact], every chip written so far holds its button, and a
    university that holds a value has enabled its major selector. *)
Definition pageInvariant (intact : bool)
    (N : SelectorType -> string -> Prop) (st : Store) : Prop :=
  chipsShowSelection st /\ within N st /\ guarded st /\ tidy st /\
  (intact = true ->
   forall key, selected (selector st key University) ≠ None ->
               disabled (selector st key Major) = false).

(** A change of a selector that keeps the selection, the chip and the
    content of the dropdown, opens no dropdown and hides no input. *)
Definition quiet (f : Selector -> Selector) : Prop :=
  forall s,
    selected (f s) = selected s /\ disabled (f s) = disabled s /\
    selectedDiv (f s) = selectedDiv s /\
    content (dropdown (f s)) = content (dropdown s) /\
    (hidden (dropdown s) = true -> hidden (dropdown (f s)) = true) /\
    (input_block s = true -> input_block (f s) = true).



(** ** The rest of the click on [predictBtn] (app.js, lines 568-599)

    What an awaited call ends with, as the handler sees it: an exception
    ([fetch] or the reading of the body rejects, or what is done with the
    body throws) with its [message], an answer whose status is not ok, or
    the body read. *)

Inductive Awaited (A : Type) : Type :=
| Thrown (message : string)
| NotOk (status : string)
| Body (data : A).

Arguments Thrown {A} message.
Arguments NotOk {A} status.
Arguments Body {A} data.

(** The [catch] and the [finally] of the handler (lines 592-599). *)
Definition predictFailed (message : string) (p : Page) : Page :=
  let error :=
    if JsString.truthy message then message
    else "Unable to connect to server. Please try again." in
  {| form := form p; store := store p;
     result := renderResult (ErrorText error);
     predictBtn := setLoading false (predictBtn p);
     requests := requests p |}.

(** Lines 575-586, when the call to [/api/predict] has ended: with a body
    the handler renders it, sends the payload it built at the click to
    [/api/recommend] and waits again. *)
Definition predictAnswered (payload : Payload) (answer : Awaited ResultData)
    (p : Page) : Page :=
  match answer with
  | Thrown message => predictFailed message p
  | NotOk status => predictFailed ("Server error: " +:+ status) p
  | Body data =>
      {| form := form p; store := store p;
         result := renderResult data;
         predictBtn := predictBtn p;
         requests :=
           {| url := "/api/recommend?pref_n=8&alt_n=8&per_uni=2";
              body := payload |} :: requests p |}
  end.

(** Lines 588-599, when the call to [/api/recommend] has ended.  The body
    read is the markup of the two tables of [renderRecommendations], or
    nothing when neither [rec.preferred] nor [rec.alternatives] is
    truthy. *)
Definition recommendAnswered (answer : Awaited (option string)) (p : Page)
  : Page :=
  match answer with
  | Thrown message => predictFailed message p
  | Body (Some tables) =>
      {| form := form p; store := store p;
         result := {| className := className (result p);
                      innerHTML := innerHTML (result p) +:+ tables |};
         predictBtn := setLoading false (predictBtn p);
         requests := requests p |}
  | Body None | NotOk _ =>
      {| form := form p; store := store p; result := result p;
         predictBtn := setLoading false (predictBtn p);
         requests := requests p |}
  end.

(** ** The click on [resetBtn] (app.js, lines 602-620)

    Line 603 empties every [input] and [select], the inputs of the six
    selectors among them.  Lines 604-608 give five fields their defaults;
    on a page without one of them the assignment throws and the handler
    ends there. *)

Definition RESET_DEFAULTS : list (string * string) :=
  [ ("program", "saintek"); ("competitiveness", "high");
    ("achievement", "none"); ("accreditation", "B");
    ("rank_percentile", "100") ].

(** The assignments [$(id).value = v] in turn: the form they leave, and
    whether all of them ran. *)
Fixpoint assignValues (l : list (string * string)) (form : Form)
  : Form * bool :=
  match l with
  | [] => (form, true)
  | (id, v) :: l =>
      match form !! id with
      | Some _ => assignValues l (<[id := v]> form)
      | None => (form, false)
      end
  end.

Definition resetBtn_click (p : Page) : Page :=
  let form0 : Form := (fun _ => "") <$> form p in
  match assignValues RESET_DEFAULTS form0 with
  | (form1, true) =>
      {| form := form1; store := resetClick (store p) true;
         result := {| className := "muted";
                      innerHTML := "Fill the form and click Predict." |};
         predictBtn := predictBtn p; requests := requests p |}
  | (form1, false) =>
      {| form := form1; store := resetClick (store p) false;
         result := result p;
         predictBtn := predictBtn p; requests := requests p |}
  end.

(** ** The program of a major (app.js, lines 50-69) *)

Definition SAINTEK_WORDS : list string :=
  [ "fisika"; "kimia"; "biologi"; "kedokteran"; "informatika"; "statistika";
    "elektro"; "mesin"; "teknik"; "matematika"; "farmasi"; "geologi";
    "perikanan"; "arsitektur"; "kehutanan"; "pertanian"; "perkapalan" ].

Definition SOSHUM_WORDS : list string :=
  [ "hukum"; "ekonomi"; "manajemen"; "akuntansi"; "psikologi"; "sosiologi";
    "sejarah"; "ilmu"; "komunikasi"; "bahasa"; "pendidikan"; "administrasi";
    "hubungan"; "politik"; "pariwisata"; "bisnis" ].

(** The two arguments are names or [null].  [details] is
    [MAJORS_DATA.details]: the script declares [MAJORS_DATA] without it
    (line 32), so it is undefined until [loadMajorsOptions] has run, and
    line 54 throws on it ([None] is that [TypeError]). *)
Definition programOfMajor (details : option (gmap string MajorDetail))
    (university name : option string) : option string :=
  match orNull university, orNull name with
  | Some u, Some n =>
      let key := u +:+ " | " +:+ n in
      match details with
      | None => None
      | Some all =>
          match all !! key ≫= (fun d => orNull (program d)) with
          | Some p => Some (JsString.toLowerCase p)
          | None =>
              let s := JsString.toLowerCase n in
              if existsb (fun k => JsString.includes s k) SAINTEK_WORDS
              then Some "saintek"
              else if existsb (fun k => JsString.includes s k) SOSHUM_WORDS
              then Some "soshum"
              else Some "unknown"
          end
      end
  | _, _ => Some "unknown"
  end.

(** ** The theme (app.js, lines 622-637)

    The [data-theme] attribute of the root element and the entry of
    [localStorage] under the key of the script. *)

Record Theme : Type := {
  data_theme : option string;
  storage : option string
}.

(** What the script does when the page loads; [prefersDark] is the answer
    of [matchMedia], [false] where the browser has none. *)
Definition themeInit (prefersDark : bool) (t : Theme) : Theme :=
  let saved :=
    match orNull (storage t) with
    | Some saved => saved
    | None => if prefersDark then "dark" else "light"
    end in
  {| data_theme := Some saved; storage := storage t |}.

(** The [click] listener of [themeToggle]. *)
Definition themeToggle_click (t : Theme) : Theme :=
  let next :=
    if bool_decide (data_theme t = Some "dark") then "light" else "dark" in
  {| data_theme := Some next; storage := Some next |}.

(** ** The two views (part_000, lines 34-54 and 863-866) *)

Record Views : Type := {
  predictionView_display : string;
  chatbotView_display : string;
  toggleBtn_textContent : string;
  currentView : string
}.

Definition switchView (view : string) (v : Views) : Views :=
  if (view =? "chatbot")%string then
    {| predictionView_display := "none"; chatbotView_display := "block";
       toggleBtn_textContent := "SNBP Prediction"; currentView := "chatbot" |}
  else
    {| predictionView_display := "block"; chatbotView_display := "none";
       toggleBtn_textContent := "Konsultasi Chatbot";
       currentView := "prediction" |}.

(** The [click] listener of [toggleView]. *)
Definition toggleView_click (v : Views) : Views :=
  switchView (if (currentView v =? "prediction")%string
              then "chatbot" else "prediction") v.

(** ** The chatbot (part_000, lines 400-647) *)

(** The children of [chatMessages]: a message of the user with its text, a
    message of the bot with its markup, the typing indicator, and the two
    cards, whose markup is carried as it is rendered. *)
Inductive ChatItem : Type :=
| UserMessage (textContent : string)
| BotMessage (innerHTML : string)
| TypingIndicator
| RecommendationCard (innerHTML : string)
| StudyPlanCard (innerHTML : string).

#[global] Instance ChatItem_eq_dec : EqDecision ChatItem.
Proof. solve_decision. Defined.

(** [chatbotHistory] holds the message and [isUser] of every entry (the
    timestamp is left out); [posted] is the log of the messages sent to
    [/api/chatbot], the oldest first, and [awaiting] counts the calls that
    have not ended. *)
Record Chat : Type := {
  chatInput_value : string;
  chatMessages : list ChatItem;
  chatbotHistory : list (string * bool);
  posted : list string;
  awaiting : nat
}.

(** [message.replace(/\n/g, '<br>')] *)
Fixpoint replaceNewlines (message : string) : string :=
  match message with
  | EmptyString => EmptyString
  | String c rest =>
      if Ascii.eqb c "010"%char then "<br>" +:+ replaceNewlines rest
      else String c (replaceNewlines rest)
  end.

Definition addMessageToChat (message : string) (isUser : bool) (c : Chat)
  : Chat :=
  let item :=
    if isUser then UserMessage message
    else BotMessage (replaceNewlines message) in
  {| chatInput_value := chatInput_value c;
     chatMessages := chatMessages c ++ [item];
     chatbotHistory := chatbotHistory c ++ [(message, isUser)];
     posted := posted c; awaiting := awaiting c |}.

(** [existingIndicator.remove()]: the element found by its id is the first
    one in the document. *)
Fixpoint removeIndicator (items : list ChatItem) : list ChatItem :=
  match items with
  | [] => []
  | TypingIndicator :: rest => rest
  | item :: rest => item :: removeIndicator rest
  end.

Definition setTypingIndicator (show : bool) (c : Chat) : Chat :=
  let existingIndicator := bool_decide (TypingIndicator ∈ chatMessages c) in
  let items :=
    if show && negb existingIndicator
    then chatMessages c ++ [TypingIndicator]
    else if negb show && existingIndicator
    then removeIndicator (chatMessages c)
    else chatMessages c in
  {| chatInput_value := chatInput_value c; chatMessages := items;
     chatbotHistory := chatbotHistory c;
     posted := posted c; awaiting := awaiting c |}.

(** [sendChatMessage] up to its [await] (lines 452-470). *)
Definition sendChatMessage (message : string) (c : Chat) : Chat :=
  if negb (JsString.truthy (JsString.trim message)) then c
  else
    let c := addMessageToChat message true c in
    let c :=
      {| chatInput_value := ""; chatMessages := chatMessages c;
         chatbotHistory := chatbotHistory c;
         posted := posted c; awaiting := awaiting c |} in
    let c := setTypingIndicator true c in
    {| chatInput_value := chatInput_value c; chatMessages := chatMessages c;
       chatbotHistory := chatbotHistory c;
       posted := posted c ++ [message]; awaiting := S (awaiting c) |}.

(** What the body of an answer holds for a card: nothing to show, the
    markup of the card, or a value whose rendering throws. *)
Inductive Card : Type :=
| NoCard
| CardMarkup (innerHTML : string)
| CardThrows.

(** The body of an answer: [data.response], when it is a string, and the
    two cards. *)
Record ChatData : Type := {
  response : option string;
  recommendations : Card;
  study_plan : Card
}.

Definition APOLOGY : string := "Maaf, terjadi kesalahan. Silakan coba lagi nanti. üòî".

(** The [catch] of [sendChatMessage] (lines 494-498). *)
Definition chatFailed (c : Chat) : Chat :=
  addMessageToChat APOLOGY false (setTypingIndicator false c).

Definition appendItem (item : ChatItem) (c : Chat) : Chat :=
  {| chatInput_value := chatInput_value c;
     chatMessages := chatMessages c ++ [item];
     chatbotHistory := chatbotHistory c;
     posted := posted c; awaiting := awaiting c |}.

(** [sendChatMessage] from the end of its call (lines 472-498). *)
Definition chatAnswered (answer : Awaited ChatData) (c : Chat) : Chat :=
  let c :=
    {| chatInput_value := chatInput_value c; chatMessages := chatMessages c;
       chatbotHistory := chatbotHistory c;
       posted := posted c; awaiting := pred (awaiting c) |} in
  match answer with
  | Thrown _ | NotOk _ => chatFailed c
  | Body data =>
      let c := setTypingIndicator false c in
      match response data with
      | None => chatFailed c
      | Some text =>
          let c := addMessageToChat text false c in
          match recommendations data with
          | CardThrows => chatFailed c
          | shown =>
              let c :=
                match shown with
                | CardMarkup html => appendItem (RecommendationCard html) c
                | _ => c
                end in
              match study_plan data with
              | CardThrows => chatFailed c
              | CardMarkup html => appendItem (StudyPlanCard html) c
              | NoCard => c
              end
          end
      end
  end.

(** The listeners of [initChatbot] (lines 593-623), and the end of a call
    that is awaited. *)
Inductive ChatEvent : Type :=
| ChatTyped (text : string)
| SendClick
| EnterKeypress (shiftKey : bool)
| SuggestionClick (dataset_text : string)
| ChatAnswered (answer : Awaited ChatData).

Definition sendTrimmed (c : Chat) : Chat :=
  let message := JsString.trim (chatInput_value c) in
  if JsString.truthy message then sendChatMessage message c else c.

Definition chatDispatch (c : Chat) (e : ChatEvent) : Chat :=
  match e with
  | ChatTyped text =>
      {| chatInput_value := text; chatMessages := chatMessages c;
         chatbotHistory := chatbotHistory c;
         posted := posted c; awaiting := awaiting c |}
  | SendClick => sendTrimmed c
  | EnterKeypress shiftKey => if shiftKey then c else sendTrimmed c
  | SuggestionClick text =>
      if JsString.truthy text then
        sendChatMessage text
          {| chatInput_value := text; chatMessages := chatMessages c;
             chatbotHistory := chatbotHistory c;
             posted := posted c; awaiting := awaiting c |}
      else c
  | ChatAnswered answer =>
      match awaiting c with
      | 0 => c
      | S _ => chatAnswered answer c
      end
  end.

Definition chat_initial : Chat :=
  {| chatInput_value := ""; chatMessages := []; chatbotHistory := [];
     posted := []; awaiting := 0 |}.

Definition chatRun (events : list ChatEvent) : Chat :=
  foldl chatDispatch chat_initial events.

(** The height, in pixels, that the [input] listener (lines 626-638) and
    the callback of the [paste] listener (lines 641-647) give the input
    whose content is [scrollHeight] pixels high. *)
Definition inputHeight (scrollHeight : Z) : Z :=
  let newHeight := Z.min scrollHeight 160 in
  if (newHeight <? 56)%Z then 56%Z else newHeight.

Definition pasteHeight (scrollHeight : Z) : Z :=
  let newHeight := Z.min scrollHeight 160 in
  Z.max newHeight 56.

(** The message an entry of the transcript shows, as the history holds
    it. *)
Definition shownAs (entry : string * bool) : ChatItem :=
  if entry.2 then UserMessage entry.1
  else BotMessage (replaceNewlines entry.1).

Definition isMessage (item : ChatItem) : bool :=
  match item with
  | UserMessage _ | BotMessage _ => true
  | _ => false
  end.

Definition userText (item : ChatItem) : option string :=
  match item with
  | UserMessage text => Some text
  | _ => None
  end.

Definition isIndicator (item : ChatItem) : bool :=
  match item with
  | TypingIndicator => true
  | _ => false
  end.

(** The number of typing indicators in a transcript. *)
Definition indicators (items : list ChatItem) : nat :=
  length (List.filter isIndicator items).

(** What holds of the chat at every moment, as the induction over a run
    needs it. *)
Definition chatInvariant (c : Chat) : Prop :=
  indicators (chatMessages c) <= 1 /\
  (0 < indicators (chatMessages c) -> 0 < awaiting c) /\
  List.filter isMessage (chatMessages c) = map shownAs (chatbotHistory c) /\
  omap userText (chatMessages c) = posted c /\
  Forall (fun message => JsString.trim message ≠ "") (posted c) /\
  awaiting c <= length (posted c).

(** What the end of a call appends to the transcript, once the indicator
    is removed. *)
Definition replyItems (answer : Awaited ChatData) : list ChatItem :=
  match answer with
  | Thrown _ | NotOk _ => [BotMessage (replaceNewlines APOLOGY)]
  | Body data =>
      match response data with
      | None => [BotMessage (replaceNewlines APOLOGY)]
      | Some text =>
          BotMessage (replaceNewlines text) ::
          match recommendations data with
          | CardThrows => [BotMessage (replaceNewlines APOLOGY)]
          | shown =>
              match shown with
              | CardMarkup html => [RecommendationCard html]
              | _ => []
              end ++
              match study_plan data with
              | CardThrows => [BotMessage (replaceNewlines APOLOGY)]
              | CardMarkup html => [StudyPlanCard html]
              | NoCard => []
              end
          end
      end
  end.

(** ** Sample data *)

Definition detail_saintek : MajorDetail :=
  {| program := Some "saintek"; tags := [] |}.

Definition kb_example : KnowledgeBase :=
  {| UNIVERSITIES_DATA_all :=
       ["Universitas Indonesia"; "Institut Teknologi Bandung";
        "Universitas Gadjah Mada"];
     MAJORS_DATA_all := ["Informatika"; "Kedokteran"];
     MAJORS_DATA_details :=
       {[ "Universitas Indonesia | Informatika" := detail_saintek;
          "Universitas Indonesia | Kedokteran" := detail_saintek;
          "Institut Teknologi Bandung | Informatika" := detail_saintek ]} |}.

(** Choice 1 is Informatika at Universitas Indonesia; choice 2 is Institut
    Teknologi Bandung with no major yet. *)
Definition st_example : Store :=
  selectItem
    (selectItem
       (selectItem SELECTION_PAIRS Choice1 University "Universitas Indonesia"
                   true)
       Choice1 Major "Informatika" true)
    Choice2 University "Institut Teknologi Bandung" true.



(** One complete choice: Informatika at Universitas Indonesia. *)
Definition st_one : Store :=
  selectItem
    (selectItem SELECTION_PAIRS Choice1 University "Universitas Indonesia"
                true)
    Choice1 Major "Informatika" true.

(** A knowledge base with a university whose name opens a comment in the
    markup of a chip, so that the chip of that name has no remove button;
    and the store after that name is selected over the complete choice 1:
    the call stops at the chip. *)
Definition kb_markup : KnowledgeBase :=
  {| UNIVERSITIES_DATA_all := ["Universitas Indonesia"; "A<!--B"];
     MAJORS_DATA_all := ["Informatika"];
     MAJORS_DATA_details :=
       {[ "Universitas Indonesia | Informatika" := detail_saintek;
          "A<!--B | Informatika" := detail_saintek ]} |}.

Definition st_markup : Store :=
  selectItem st_one Choice1 University "A<!--B" false.

(** A Saintek form with a semester grade, a physics grade and the math
    grade 0. *)
Definition form_math_zero : Form :=
  {[ "program" := "saintek"; "s1" := "80"; "math" := "0"; "physics" := "75" ]}.

(** The same form with a text that is not a number in the math field. *)
Definition form_math_text : Form :=
  {[ "program" := "saintek"; "s1" := "80"; "math" := "abc"; "physics" := "75" ]}.

(** A Saintek form with a semester grade and none of the four subjects. *)
Definition form_no_science : Form :=
  {[ "program" := "saintek"; "s1" := "80" ]}.

(** Only choice 2 is filled. *)
Definition st_second : Store :=
  selectItem
    (selectItem SELECTION_PAIRS Choice2 University "Universitas Gadjah Mada"
                true)
    Choice2 Major "Kedokteran" true.

(** The page as it loads: nothing filled, nothing chosen, nothing sent. *)
Definition page_empty : Page :=
  {| form := ∅; store := SELECTION_PAIRS;
     result := {| className := "muted"; innerHTML := "" |};
     predictBtn := {| btn_disabled := false; textContent := "Predict";
                      dataset_t := None |};
     requests := [] |}.




(** A form with one semester grade. *)
Definition form_s1 : Form := {[ "s1" := "80" ]}.

(** A page with one semester grade and one complete choice. *)
Definition page_ready : Page :=
  {| form := form_s1; store := st_one;
     result := {| className := "muted"; innerHTML := "" |};
     predictBtn := {| btn_disabled := false; textContent := "Predict";
                      dataset_t := None |};
     requests := [] |}.

(** A page with the five fields the reset handler writes to, a grade and
    one complete choice. *)
Definition page_filled : Page :=
  {| form := {[ "program" := "soshum"; "competitiveness" := "low";
                "achievement" := "national"; "accreditation" := "A";
                "rank_percentile" := "12"; "s1" := "80" ]};
     store := st_one;
     result := {| className := "result"; innerHTML := "" |};
     predictBtn := {| btn_disabled := false; textContent := "Predict";
                      dataset_t := None |};
     requests := [] |}.

(** * Properties *)

(** ** Occurrence of a text in another *)

Lemma prefix_spec q s : String.prefix q s = true <-> exists b, s = q +:+ b.
Proof.
  revert s. induction q as [|c q IH]; intros s.
  - split; [intros _; exists s; reflexivity|by destruct s].
  - destruct s as [|d s]; simpl.
    { split; [discriminate|intros [b Hb]; discriminate]. }
    destruct (ascii_dec c d) as [->|Hne].
    + rewrite IH. split; intros [b Hb]; exists b.
      * by rewrite Hb.
      * by injection Hb.
    + split; [discriminate|].
      intros [b Hb]. injection Hb as Hcd _. congruence.
Qed.

Lemma includes_spec s q : JsString.includes s q = true <-> Substring q s.
Proof.
  unfold Substring. induction s as [|c s IH].
  - change (JsString.includes "" q) with (String.prefix q "" || false).
    rewrite orb_false_r, prefix_spec. split.
    + intros [b Hb]. exists "", b. exact Hb.
    + intros [a [b Hab]]. destruct a; [by exists b|discriminate].
  - change (JsString.includes (String c s) q)
      with (String.prefix q (String c s) || JsString.includes s q).
    rewrite orb_true_iff, prefix_spec, IH. split.
    + intros [[b Hb]|[a [b Hab]]]; [exists "", b; exact Hb|].
      exists (String c a), b. simpl. by rewrite Hab.
    + intros [a [b Hab]]. destruct a as [|c' a]; [left; by exists b|].
      right. simpl in Hab. injection Hab as _ Hab. by exists a, b.
Qed.

#[global] Instance Substring_dec q s : Decision (Substring q s).
Proof.
  destruct (JsString.includes s q) eqn:E.
  - left. by apply includes_spec.
  - right. intros H%includes_spec. congruence.
Defined.

#[global] Instance matchesQuery_dec query item :
  Decision (matchesQuery query item).
Proof. unfold matchesQuery. apply _. Defined.

(** ** Reading the store after an operation *)

Lemma selector_update_same st key type f :
  selector (update st key type f) key type = f (selector st key type).
Proof. destruct key, type; reflexivity. Qed.

Lemma selector_update_other st key type f key' type' :
  (key', type') ≠ (key, type) ->
  selector (update st key type f) key' type' = selector st key' type'.
Proof.
  intros Hne. destruct key, type, key', type'; try reflexivity; congruence.
Qed.

Lemma orNull_Some x s : orNull x = Some s -> x = Some s /\ s ≠ "".
Proof.
  destruct x as [y|]; simpl; [|discriminate].
  unfold JsString.truthy. destruct (String.eqb_spec y ""); simpl; [discriminate|].
  intros [= ->]. auto.
Qed.

Lemma orNull_Some_intro s : s ≠ "" -> orNull (Some s) = Some s.
Proof.
  intros Hs. simpl. unfold JsString.truthy.
  destruct (String.eqb_spec s ""); [contradiction|reflexivity].
Qed.


Lemma isTruthy_false x : isTruthy x = false <-> orNull x = None.
Proof. unfold isTruthy. destruct (orNull x); split; congruence. Qed.

(** A call of [selectItem] that throws has stored the item and leaves the
    other selector of the choice as it was. *)
Lemma selected_selectItem st key type item removeBtn key' type' :
  selected (selector (selectItem st key type item removeBtn) key' type') =
  if decide (key' = key) then
    if decide (type' = type) then Some item
    else match type with
         | University =>
             if throws item removeBtn then selected (selector st key' type')
             else None
         | Major => selected (selector st key' type')
         end
  else selected (selector st key' type').
Proof.
  unfold throws, selectItem, renderSelectedItem, isTruthy.
  destruct key, type, key', type'; cbn;
    destruct (JsString.truthy item), removeBtn; reflexivity.
Qed.

Lemma disabled_selectItem st key type item removeBtn key' :
  disabled (selector (selectItem st key type item removeBtn) key' Major) =
  if decide (key' = key) then
    match type with
    | University =>
        if throws item removeBtn then disabled (selector st key' Major)
        else false
    | Major => disabled (selector st key' Major)
    end
  else disabled (selector st key' Major).
Proof.
  unfold throws, selectItem, renderSelectedItem, isTruthy.
  destruct key, type, key'; cbn;
    destruct (JsString.truthy item), removeBtn; reflexivity.
Qed.

Lemma selected_clearSelection st key type key' type' :
  selected (selector (clearSelection st key type) key' type') =
  if decide (key' = key) then
    if decide (type' = type) then None
    else match type with
         | University => None
         | Major => selected (selector st key' type')
         end
  else selected (selector st key' type').
Proof. destruct key, type, key', type'; reflexivity. Qed.

Lemma disabled_clearSelection st key type key' :
  disabled (selector (clearSelection st key type) key' Major) =
  if decide (key' = key) then
    match type with
    | University => true
    | Major => disabled (selector st key' Major)
    end
  else disabled (selector st key' Major).
Proof. destruct key, type, key'; reflexivity. Qed.

Lemma selected_resetSelections st key type :
  selected (selector (resetSelections st) key type) = None.
Proof. destruct key, type; reflexivity. Qed.


(** Rendering a dropdown changes no selection. *)
Lemma update_sameSelection st key type f :
  (forall s, selected (f s) = selected s /\ disabled (f s) = disabled s) ->
  sameSelection st (update st key type f).
Proof.
  intros Hf k t. destruct (decide ((k, t) = (key, type))) as [[= -> ->]|Hne].
  - rewrite selector_update_same. apply Hf.
  - by rewrite selector_update_other.
Qed.

Lemma showAllOptions_sameSelection kb st key type :
  sameSelection st (showAllOptions kb st key type).
Proof.
  unfold showAllOptions.
  destruct (bool_decide (type = Major) && disabled (selector st key type));
    [by intros ? ?|].
  destruct (availableFor kb st key type); by apply update_sameSelection.
Qed.

Lemma renderSearchResults_sameSelection kb st key type query :
  sameSelection st (renderSearchResults kb st key type query).
Proof.
  unfold renderSearchResults.
  destruct (negb (JsString.truthy query)); [by apply update_sameSelection|].
  destruct (bool_decide (type = Major) && disabled (selector st key type));
    [by intros ? ?|].
  destruct (take 12 _); by apply update_sameSelection.
Qed.

(** Induction over the reachable stores for a property of the selections
    alone. *)
Lemma reachable_selection_ind found kb (P : Store -> Prop) :
  (forall st st', sameSelection st st' -> P st -> P st') ->
  (forall st, initialStore st -> P st) ->
  (forall st key type item removeBtn,
     reachableWith found kb st -> P st ->
     item ∈ availableFor kb st key type -> found removeBtn ->
     P (selectItem st key type item removeBtn)) ->
  (forall st key type, reachableWith found kb st -> P st ->
                       P (clearSelection st key type)) ->
  (forall st, reachableWith found kb st -> P st -> P (resetSelections st)) ->
  forall st, reachableWith found kb st -> P st.
Proof.
  intros Hsame Hinit Hsel Hclear Hreset.
  induction 1 as [st Hi|st key ty item removeBtn Hr IH Hav Hf|st key ty Hr IH
                 |st Hr IH|st key ty Hr IH|st key ty query Hr IH
                 |st key ty Hr IH].
  - by apply Hinit.
  - by apply Hsel.
  - by apply Hclear.
  - by apply Hreset.
  - eapply Hsame; [apply showAllOptions_sameSelection|exact IH].
  - eapply Hsame; [apply renderSearchResults_sameSelection|exact IH].
  - eapply Hsame; [by apply update_sameSelection|exact IH].
Qed.

(** A store reached with every button found is a reachable store. *)
Lemma reachableIntact_reachable kb st :
  reachableIntact kb st -> reachable kb st.
Proof.
  induction 1 as [st Hi|st key ty item removeBtn Hr IH Hav Hf|st key ty Hr IH
                 |st Hr IH|st key ty Hr IH|st key ty query Hr IH
                 |st key ty Hr IH].
  - by apply reach_init.
  - by apply reach_select.
  - by apply reach_clear.
  - by apply reach_reset.
  - by apply reach_show.
  - by apply reach_search.
  - by apply reach_hide.
Qed.

Lemma st_example_reachable : reachableIntact kb_example st_example.
Proof.
  unfold st_example.
  apply reach_select;
    [apply reach_select;
     [apply reach_select; [apply reach_init| |]| |]| |];
    try reflexivity;
    [intros []; repeat split; reflexivity| | |];
    apply (bool_decide_unpack _); vm_compute; exact I.
Qed.

(** What [selectItem] leaves in a choice when it is called on the
    university: the item is stored; the major is emptied and its selector
    enabled when line 200 returns, and both are left as they were when it
    throws. *)
Lemma selectItem_university (st : Store) (key : ChoiceKey) (item : string)
    (removeBtn : bool) :
  let st' := selectItem st key University item removeBtn in
  selected (selector st' key University) = Some item /\
  if throws item removeBtn then
    selector st' key Major = selector st key Major
  else
    selected (selector st' key Major) = None /\
    disabled (selector st' key Major) = false.
Proof.
  unfold throws, selectItem, renderSelectedItem, isTruthy.
  destruct key; cbn; destruct (JsString.truthy item), removeBtn; cbn;
    repeat split; by destruct st as [[? []] [? []] [? []]].
Qed.

(** A name that writes no chip asks for no button: the answer plays no
    part. *)
Lemma selectItem_unasked (st : Store) (key : ChoiceKey) (type : SelectorType)
    (item : string) (removeBtn : bool) :
  JsString.truthy item = false ->
  selectItem st key type item removeBtn = selectItem st key type item true.
Proof.
  intros Hi. unfold selectItem, renderSelectedItem, isTruthy.
  destruct key, type; cbn; rewrite Hi; reflexivity.
Qed.

Lemma clearSelection_university (st : Store) (key : ChoiceKey) :
  let st' := clearSelection st key University in
  selected (selector st' key University) = None /\
  selected (selector st' key Major) = None /\
  disabled (selector st' key Major) = true.
Proof.
  cbv zeta. rewrite !selected_clearSelection, disabled_clearSelection.
  repeat split; repeat case_decide; congruence.
Qed.

(** C4 fails on the code.  The name [A<!--B], which the knowledge base
    [kb_markup] offers in choice 1, opens a comment in the markup of its
    chip, the chip has no remove button, and line 173 throws: over a
    complete choice the university is replaced and the major stays, and in
    the empty store the major selector stays disabled.  For every other
    call (the button found, or the empty name, which writes no chip) the
    claim holds, as it does for [clearSelection]. *)
Theorem select_university_stops_at_chip :
  ("A<!--B" ∈ availableFor kb_markup st_one Choice1 University /\
   selected (selector st_markup Choice1 University) = Some "A<!--B" /\
   selected (selector st_markup Choice1 Major) = Some "Informatika" /\
   disabled (selector
               (selectItem SELECTION_PAIRS Choice1 University "A<!--B" false)
               Choice1 Major) = true)
  /\
  (forall st key item removeBtn,
     throws item removeBtn = false ->
     selected (selector (selectItem st key University item removeBtn)
                        key University) = Some item /\
     selected (selector (selectItem st key University item removeBtn)
                        key Major) = None /\
     disabled (selector (selectItem st key University item removeBtn)
                        key Major) = false)
  /\
  (forall st key,
     selected (selector (clearSelection st key University) key University)
       = None /\
     selected (selector (clearSelection st key University) key Major)
       = None /\
     disabled (selector (clearSelection st key University) key Major)
       = true).
Proof.
  split; [|split].
  - split; [apply (bool_decide_unpack _); vm_compute; exact I|].
    repeat split; reflexivity.
  - intros st key item removeBtn Ht.
    pose proof (selectItem_university st key item removeBtn) as H.
    cbv zeta in H. rewrite Ht in H. exact H.
  - intros st key. apply clearSelection_university.
Qed.

Lemma elem_of_alreadySelected type st key x :
  x ∈ alreadySelected type st key <-> selectedElsewhere type st key x.
Proof.
  unfold selectedElsewhere, alreadySelected, chosen, keys. simpl foldl.
  split.
  - destruct key; repeat case_bool_decide; try congruence;
      repeat match goal with
             | |- context [orNull ?o] => destruct (orNull o) eqn:?
             end;
      rewrite ?elem_of_union, ?elem_of_singleton, ?elem_of_empty;
      intros Hin; repeat destruct Hin as [Hin|Hin]; try contradiction; subst;
      first [ exists Choice1; split; [discriminate|assumption]
            | exists Choice2; split; [discriminate|assumption]
            | exists Choice3; split; [discriminate|assumption] ].
  - intros [other [Hne Hx]].
    destruct key, other; try congruence; repeat case_bool_decide; try congruence;
      rewrite Hx;
      repeat match goal with
             | |- context [orNull ?o] => destruct (orNull o) eqn:?
             end; set_solver.
Qed.

(** The two resolvers as filters of the lists of the knowledge base. *)
Lemma availableFor_filter (kb : KnowledgeBase) (st : Store) (key : ChoiceKey) :
  availableFor kb st key University =
    filter (fun u => ¬ selectedElsewhere University st key u)
           (UNIVERSITIES_DATA_all kb)
  /\
  availableFor kb st key Major =
    if disabled (selector st key Major) then []
    else
      match chosen st key University with
      | Some u =>
          filter (fun m => ¬ selectedElsewhere Major st key m)
            (filter (fun m =>
                       is_Some (MAJORS_DATA_details kb !! (u +:+ " | " +:+ m)))
                    (MAJORS_DATA_all kb))
      | None => []
      end.
Proof.
  split.
  - unfold availableFor, getAvailableUniversities.
    apply list_filter_iff. intros u. by rewrite elem_of_alreadySelected.
  - unfold availableFor.
    destruct (disabled (selector st key Major)); [reflexivity|].
    unfold getAvailableMajorsForChoice, getMajorsForUniversity, chosen, isTruthy.
    destruct (orNull (selected (selector st key University))); simpl;
      [|reflexivity].
    apply list_filter_iff. intros m. by rewrite elem_of_alreadySelected.
Qed.

Lemma selectedElsewhere_update st key type f x :
  selectedElsewhere type (update st key type f) key x <->
  selectedElsewhere type st key x.
Proof.
  unfold selectedElsewhere, chosen.
  split; intros [other [Hne Hx]]; exists other; (split; [exact Hne|]);
    [rewrite selector_update_other in Hx by congruence
    |rewrite selector_update_other by congruence]; exact Hx.
Qed.

Lemma throws_found item : throws item true = false.
Proof. unfold throws. apply andb_false_r. Qed.

(** In a store reached with every button found, a disabled major selector
    goes with a university selector that holds nothing, so that the
    resolver of the majors returns nothing there, as the list the dropdown
    is filled from does. *)
Lemma reachable_disabled_major kb st :
  reachableIntact kb st ->
  forall key,
    disabled (selector st key Major) = true ->
    selected (selector st key University) = None /\
    getAvailableMajorsForChoice kb st key = [].
Proof.
  intros Hr.
  assert (Hinv : forall key, disabled (selector st key Major) = true ->
                             selected (selector st key University) = None).
  { revert st Hr.
    apply (reachable_selection_ind _ kb
             (fun st => forall key,
                disabled (selector st key Major) = true ->
                selected (selector st key University) = None)).
    - intros st st' Hs IH k.
      destruct (Hs k Major) as [_ ->]. destruct (Hs k University) as [-> _].
      apply IH.
    - intros st Hi k _. by destruct (Hi k) as (-> & _).
    - intros st key ty item removeBtn _ IH Hav -> k.
      rewrite disabled_selectItem, selected_selectItem, throws_found.
      destruct (decide (k = key)) as [->|Hk]; [|apply IH].
      destruct ty; [discriminate|].
      rewrite decide_False by discriminate. apply IH.
    - intros st key ty _ IH k.
      rewrite disabled_clearSelection, selected_clearSelection.
      destruct (decide (k = key)) as [->|Hk]; [|apply IH].
      destruct ty; [by rewrite decide_True by reflexivity|].
      rewrite decide_False by discriminate. apply IH.
    - intros st _ IH k _. apply selected_resetSelections. }
  intros key Hdis. split; [by apply Hinv|].
  unfold getAvailableMajorsForChoice. by rewrite (Hinv key Hdis).
Qed.

(** C5.  The list a dropdown is filled from.  For a university: the
    universities of the knowledge base, in its order, but those chosen in
    another choice; what the choice itself holds plays no part, so that its
    own university stays in its list.  For a major: nothing while the major
    selector is disabled; otherwise what [getAvailableMajorsForChoice]
    returns, the majors [m] of the knowledge base that have a detail under
    the key made of the chosen university, [" | "] and [m], in the order of
    the knowledge base, but those chosen in another choice (and nothing when
    no university is chosen). *)
Theorem availableFor_spec (kb : KnowledgeBase) (st : Store) (key : ChoiceKey) :
  (availableFor kb st key University = getAvailableUniversities kb st key /\
   getAvailableUniversities kb st key =
     filter (fun u => ¬ selectedElsewhere University st key u)
            (UNIVERSITIES_DATA_all kb) /\
   forall f,
     getAvailableUniversities kb (update st key University f) key =
     getAvailableUniversities kb st key)
  /\
  (availableFor kb st key Major =
     (if disabled (selector st key Major) then []
      else getAvailableMajorsForChoice kb st key) /\
   getAvailableMajorsForChoice kb st key =
     match chosen st key University with
     | Some u =>
         filter (fun m => ¬ selectedElsewhere Major st key m)
           (filter (fun m =>
                      is_Some (MAJORS_DATA_details kb !! (u +:+ " | " +:+ m)))
                   (MAJORS_DATA_all kb))
     | None => []
     end /\
   availableFor kb st key Major =
     if disabled (selector st key Major) then []
     else
       match chosen st key University with
       | Some u =>
           filter (fun m => ¬ selectedElsewhere Major st key m)
             (filter (fun m =>
                        is_Some
                          (MAJORS_DATA_details kb !! (u +:+ " | " +:+ m)))
                     (MAJORS_DATA_all kb))
       | None => []
       end).
Proof.
  destruct (availableFor_filter kb st key) as [HU HM].
  split; split; try reflexivity.
  - split; [exact HU|]. intros f.
    destruct (availableFor_filter kb (update st key University f) key)
      as [HU' _].
    change (availableFor kb (update st key University f) key University =
            availableFor kb st key University).
    rewrite HU', HU. apply list_filter_iff. intros u.
    by rewrite selectedElsewhere_update.
  - split; [|exact HM].
    unfold getAvailableMajorsForChoice, getMajorsForUniversity, chosen,
      isTruthy.
    destruct (orNull (selected (selector st key University))); simpl;
      [|reflexivity].
    apply list_filter_iff. intros m. by rewrite elem_of_alreadySelected.
Qed.

(** [getAvailableMajorsForChoice] tests the university and not the
    [disabled] property.  The two agree in every store reached with every
    button found; after a selection that stopped at its chip the resolver
    still answers for a selector that is disabled. *)
Lemma resolver_agrees_when_intact kb st key :
  reachableIntact kb st ->
  availableFor kb st key Major = getAvailableMajorsForChoice kb st key.
Proof.
  intros Hr. unfold availableFor.
  destruct (disabled (selector st key Major)) eqn:Hd; [|reflexivity].
  symmetry. by apply (reachable_disabled_major kb st Hr key).
Qed.

Example resolver_ignores_disabled :
  let st := selectItem SELECTION_PAIRS Choice1 University "A<!--B" false in
  disabled (selector st Choice1 Major) = true /\
  availableFor kb_markup st Choice1 Major = [] /\
  getAvailableMajorsForChoice kb_markup st Choice1 = ["Informatika"].
Proof. repeat split; reflexivity. Qed.

(** ** Searching *)

Lemma offered_show st key type c :
  offered (update st key type (show c)) key type =
  match c with Options items => items | EmptyNote _ => [] end.
Proof. unfold offered. by rewrite selector_update_same. Qed.

(** The three ways a search ends: on the empty query, on a disabled major
    selector, and with the dropdown shown. *)
Lemma renderSearchResults_cases (kb : KnowledgeBase) (st : Store)
    (key : ChoiceKey) (type : SelectorType) (query : string) :
  let st' := renderSearchResults kb st key type query in
  if decide (query = "") then
    hidden (dropdown (selector st' key type)) = true /\
    offered st' key type = []
  else if bool_decide (type = Major) && disabled (selector st key type) then
    st' = st /\
    take 12 (filter (matchesQuery query) (availableFor kb st key type)) = []
  else
    hidden (dropdown (selector st' key type)) = false /\
    offered st' key type =
      take 12 (filter (matchesQuery query) (availableFor kb st key type)) /\
    length (offered st' key type) <= 12.
Proof.
  unfold renderSearchResults, JsString.truthy. simpl.
  destruct (decide (query = "")) as [->|Hq].
  - simpl. unfold offered. rewrite selector_update_same. by simpl.
  - destruct (String.eqb_spec query ""); [contradiction|]. simpl.
    destruct (bool_decide (type = Major) && disabled (selector st key type))
      eqn:Hdis.
    + split; [reflexivity|].
      apply andb_true_iff in Hdis as [->%bool_decide_eq_true Hd].
      simpl in *. by rewrite Hd.
    + rewrite (list_filter_iff _ (matchesQuery query)
                 (availableFor kb st key type))
        by (intros x; apply includes_spec).
      destruct (take 12 (filter (matchesQuery query)
                           (availableFor kb st key type))) as [|x l] eqn:E.
      * unfold offered. rewrite selector_update_same. simpl. repeat split; lia.
      * rewrite offered_show, selector_update_same.
        split; [reflexivity|]. split; [reflexivity|].
        rewrite <- E, length_take. lia.
Qed.

(** ** The invariants of the selection store *)

Lemma availableFor_not_elsewhere kb st key type item :
  item ∈ availableFor kb st key type ->
  ¬ selectedElsewhere type st key item.
Proof.
  destruct (availableFor_filter kb st key) as [HU HM].
  destruct type; [rewrite HU|rewrite HM].
  - by intros [? _]%list_elem_of_filter.
  - destruct (disabled _); [by intros ?%elem_of_nil|].
    destruct (chosen st key University); [|by intros ?%elem_of_nil].
    by intros [? _]%list_elem_of_filter.
Qed.


Lemma availableFor_major_enabled kb st key item :
  item ∈ availableFor kb st key Major ->
  disabled (selector st key Major) = false /\
  exists u, chosen st key University = Some u.
Proof.
  destruct (availableFor_filter kb st key) as [_ ->].
  destruct (disabled _); [by intros ?%elem_of_nil|].
  destruct (chosen st key University) as [u|]; [|by intros ?%elem_of_nil].
  intros _. split; [reflexivity|by exists u].
Qed.

Lemma chosen_selectItem st key type item removeBtn key' type' :
  chosen (selectItem st key type item removeBtn) key' type' =
  if decide (key' = key) then
    if decide (type' = type) then orNull (Some item)
    else match type with
         | University =>
             if throws item removeBtn then chosen st key' type' else None
         | Major => chosen st key' type'
         end
  else chosen st key' type'.
Proof.
  unfold chosen. rewrite selected_selectItem.
  repeat case_decide; try reflexivity.
  destruct type; [|reflexivity]. by destruct (throws item removeBtn).
Qed.

Lemma chosen_clearSelection st key type key' type' :
  chosen (clearSelection st key type) key' type' = chosen st key' type' \/
  chosen (clearSelection st key type) key' type' = None.
Proof.
  unfold chosen. rewrite selected_clearSelection.
  repeat case_decide; auto. destruct type; auto.
Qed.

Lemma chosen_resetSelections st key type :
  chosen (resetSelections st) key type = None.
Proof. unfold chosen. by rewrite selected_resetSelections. Qed.

(** Emptying selectors keeps the choices distinct. *)
Lemma distinctChoices_shrink type st st' :
  (forall key, chosen st' key type = chosen st key type \/
               chosen st' key type = None) ->
  distinctChoices type st -> distinctChoices type st'.
Proof.
  intros Hsub Hd k1 k2 x Hne H1 H2.
  destruct (Hsub k1) as [E1|E1]; [|congruence].
  destruct (Hsub k2) as [E2|E2]; [|congruence].
  rewrite E1 in H1. rewrite E2 in H2. by apply (Hd k1 k2 x).
Qed.

Lemma distinctChoices_selectItem kb st key type item removeBtn type' :
  item ∈ availableFor kb st key type ->
  distinctChoices type' st ->
  distinctChoices type' (selectItem st key type item removeBtn).
Proof.
  intros Hav Hd. destruct (decide (type' = type)) as [->|Hty].
  - apply availableFor_not_elsewhere in Hav.
    intros k1 k2 x Hne. rewrite !chosen_selectItem.
    rewrite !(decide_True (P := type = type)) by reflexivity.
    destruct (decide (k1 = key)) as [->|H1], (decide (k2 = key)) as [->|H2];
      try congruence.
    + intros [[= ->] _]%orNull_Some Hx. apply Hav. by exists k2.
    + intros Hx [[= ->] _]%orNull_Some. apply Hav. by exists k1.
    + by apply Hd.
  - apply (distinctChoices_shrink type' st); [|assumption].
    intros k. rewrite chosen_selectItem.
    repeat case_decide; try congruence; auto.
    destruct type; auto. destruct (throws item removeBtn); auto.
Qed.

Lemma getSelected_chosen type st :
  getSelected type st =
  option_list (chosen st Choice1 type) ++ option_list (chosen st Choice2 type)
    ++ option_list (chosen st Choice3 type).
Proof.
  unfold getSelected, keys, chosen. simpl foldl.
  destruct (orNull (selected (selector st Choice1 type))),
           (orNull (selected (selector st Choice2 type))),
           (orNull (selected (selector st Choice3 type))); reflexivity.
Qed.

Lemma distinctChoices_NoDup type st :
  distinctChoices type st -> NoDup (getSelected type st).
Proof.
  intros Hd. rewrite getSelected_chosen.
  assert (H12 := Hd Choice1 Choice2). assert (H13 := Hd Choice1 Choice3).
  assert (H23 := Hd Choice2 Choice3).
  destruct (chosen st Choice1 type) as [a|], (chosen st Choice2 type) as [b|],
           (chosen st Choice3 type) as [c|]; simpl;
    repeat (apply NoDup_cons; split;
            [rewrite ?elem_of_cons, ?elem_of_nil|]);
    try apply NoDup_nil_2;
    try (intros Hin; repeat destruct Hin as [Hin|Hin]; try contradiction;
         subst;
         first [ by eapply H12 | by eapply H13 | by eapply H23 ]).
Qed.

Lemma initialStore_chosen st key type :
  initialStore st -> chosen st key type = None.
Proof.
  intros Hi. destruct (Hi key) as (HU & HM & _).
  unfold chosen. destruct type; [by rewrite HU|by rewrite HM].
Qed.

Lemma sameSelection_chosen st st' key type :
  sameSelection st st' -> chosen st' key type = chosen st key type.
Proof. intros Hs. unfold chosen. by destruct (Hs key type) as [-> _]. Qed.

Lemma reachable_distinct kb st type :
  reachable kb st -> distinctChoices type st.
Proof.
  revert st. apply (reachable_selection_ind _ kb (distinctChoices type)).
  - intros st st' Hs IH k1 k2 x.
    rewrite !(sameSelection_chosen st st') by assumption. apply IH.
  - intros st Hi k1 k2 x _ Hx. by rewrite initialStore_chosen in Hx.
  - intros st key ty item removeBtn _ IH Hav _.
    by eapply distinctChoices_selectItem.
  - intros st key ty _ IH. eapply distinctChoices_shrink; [|exact IH].
    intros k. apply chosen_clearSelection.
  - intros st _ IH k1 k2 x _ Hx. by rewrite chosen_resetSelections in Hx.
Qed.

(** ** What a disabled major selector offers *)

Lemma selector_selectItem_other st key type item removeBtn key' type' :
  key' ≠ key ->
  selector (selectItem st key type item removeBtn) key' type' =
  selector st key' type'.
Proof.
  intros Hne. unfold selectItem, renderSelectedItem, isTruthy.
  destruct key, type, key', type'; try congruence; cbn;
    destruct (JsString.truthy item), removeBtn; reflexivity.
Qed.

Lemma selector_clearSelection_other st key type key' type' :
  key' ≠ key ->
  selector (clearSelection st key type) key' type' = selector st key' type'.
Proof.
  intros Hne. destruct key, type, key', type'; try congruence; reflexivity.
Qed.

Lemma hidden_clearSelection st key type :
  hidden (dropdown (selector (clearSelection st key type) key Major)) = true.
Proof. destruct key, type; reflexivity. Qed.

Lemma hidden_resetSelections st key :
  hidden (dropdown (selector (resetSelections st) key Major)) = true.
Proof. destruct key; reflexivity. Qed.

Lemma offered_hidden st key type :
  hidden (dropdown (selector st key type)) = true -> offered st key type = [].
Proof. unfold offered. by intros ->. Qed.

Lemma offered_same_selector st st' key type :
  selector st' key type = selector st key type ->
  offered st' key type = offered st key type.
Proof. unfold offered. by intros ->. Qed.

(** In a reachable store a disabled major selector offers nothing. *)
Lemma reachable_disabled_offers kb st :
  reachable kb st ->
  forall key,
    disabled (selector st key Major) = true -> offered st key Major = [].
Proof.
  induction 1 as [st Hi|st key ty item removeBtn Hr IH Hav _|st key ty Hr IH
                 |st Hr IH|st key ty Hr IH|st key ty query Hr IH
                 |st key ty Hr IH];
    intros k.
  - intros _. by destruct (Hi k) as (_ & _ & _ & ->).
  - destruct (decide (k = key)) as [->|Hk].
    + rewrite disabled_selectItem, decide_True by reflexivity.
      destruct ty.
      * pose proof (selectItem_university st key item removeBtn) as [_ Hm].
        destruct (throws item removeBtn); [|discriminate].
        rewrite (offered_same_selector st) by exact Hm. apply IH.
      * apply availableFor_major_enabled in Hav as [Hen _]. congruence.
    + rewrite disabled_selectItem, decide_False by assumption.
      rewrite (offered_same_selector st) by by apply selector_selectItem_other.
      apply IH.
  - destruct (decide (k = key)) as [->|Hk].
    + intros _. apply offered_hidden, hidden_clearSelection.
    + rewrite disabled_clearSelection, decide_False by assumption.
      rewrite (offered_same_selector st)
        by by apply selector_clearSelection_other.
      apply IH.
  - intros _. apply offered_hidden, hidden_resetSelections.
  - destruct (showAllOptions_sameSelection kb st key ty k Major) as [_ ->].
    intros Hd. unfold showAllOptions.
    destruct (bool_decide (ty = Major) && disabled (selector st key ty))
      eqn:E; [by apply IH|].
    assert (Hne : (k, Major) ≠ (key, ty)).
    { intros [= -> <-]. rewrite Hd, bool_decide_eq_true_2 in E by reflexivity.
      discriminate. }
    destruct (availableFor kb st key ty);
      rewrite (offered_same_selector st)
        by (by apply selector_update_other); by apply IH.
  - destruct (renderSearchResults_sameSelection kb st key ty query k Major)
      as [_ ->].
    intros Hd. unfold renderSearchResults.
    destruct (negb (JsString.truthy query)).
    { destruct (decide ((k, Major) = (key, ty))) as [[= -> <-]|Hne].
      - apply offered_hidden. by rewrite selector_update_same.
      - rewrite (offered_same_selector st)
          by (by apply selector_update_other). by apply IH. }
    destruct (bool_decide (ty = Major) && disabled (selector st key ty))
      eqn:E; [by apply IH|].
    assert (Hne : (k, Major) ≠ (key, ty)).
    { intros [= -> <-]. rewrite Hd, bool_decide_eq_true_2 in E by reflexivity.
      discriminate. }
    destruct (take 12 _);
      rewrite (offered_same_selector st)
        by (by apply selector_update_other); by apply IH.
  - destruct (update_sameSelection st key ty (set_hidden true)
                (fun s => conj eq_refl eq_refl) k Major) as [_ ->].
    intros Hd. destruct (decide ((k, Major) = (key, ty))) as [[= -> <-]|Hne].
    + apply offered_hidden. by rewrite selector_update_same.
    + rewrite (offered_same_selector st)
        by (by apply selector_update_other). by apply IH.
Qed.

(** C6.  A search with the empty query hides the dropdown, so that nothing
    is offered, and not the whole list.  A search with another query offers
    the items of [availableFor] that match the query without regard to
    case, in the order of [availableFor], and the first twelve of them at
    most.  On a disabled major selector, whose [availableFor] is empty, the
    search renders nothing and leaves the page as it is; in a reachable
    store that selector offers nothing. *)
Theorem renderSearchResults_spec (kb : KnowledgeBase) (st : Store)
    (key : ChoiceKey) (type : SelectorType) (query : string) :
  (if decide (query = "") then
     hidden (dropdown (selector (renderSearchResults kb st key type query)
                         key type)) = true /\
     offered (renderSearchResults kb st key type query) key type = []
   else if bool_decide (type = Major) && disabled (selector st key type) then
     renderSearchResults kb st key type query = st /\
     take 12 (filter (matchesQuery query) (availableFor kb st key type)) = []
   else
     hidden (dropdown (selector (renderSearchResults kb st key type query)
                         key type)) = false /\
     offered (renderSearchResults kb st key type query) key type =
       take 12 (filter (matchesQuery query) (availableFor kb st key type)) /\
     length (offered (renderSearchResults kb st key type query) key type)
       <= 12)
  /\
  (reachable kb st -> query ≠ "" ->
   offered (renderSearchResults kb st key type query) key type =
     take 12 (filter (matchesQuery query) (availableFor kb st key type))).
Proof.
  pose proof (renderSearchResults_cases kb st key type query) as Hc.
  simpl in Hc. split; [exact Hc|].
  intros Hr Hq. destruct (decide (query = "")) as [|_]; [contradiction|].
  destruct (bool_decide (type = Major) && disabled (selector st key type))
    eqn:Hdis.
  - destruct Hc as [-> ->].
    apply andb_true_iff in Hdis as [->%bool_decide_eq_true Hd].
    by apply (reachable_disabled_offers kb).
  - by destruct Hc as (_ & -> & _).
Qed.

Lemma renderSearchResults_spec_witness :
  reachable kb_example st_example /\
  "gadjah" ≠ "" /\
  offered (renderSearchResults kb_example st_example Choice3 University
             "gadjah") Choice3 University =
    take 12 (filter (matchesQuery "gadjah")
               (availableFor kb_example st_example Choice3 University)).
Proof.
  assert (Hq : "gadjah" ≠ "") by discriminate.
  pose proof (reachableIntact_reachable _ _ st_example_reachable) as Hr.
  split; [exact Hr|]. split; [exact Hq|].
  exact (proj2 (renderSearchResults_spec kb_example st_example Choice3
                  University "gadjah") Hr Hq).
Defined.

Example search_gadjah :
  offered (renderSearchResults kb_example st_example Choice3 University
             "gadjah") Choice3 University = ["Universitas Gadjah Mada"].
Proof. reflexivity. Qed.

(** C1.  In every store reachable from an empty one by selecting (an item
    of [availableFor] of that selector), clearing and resetting, with the
    dropdowns rendered in between, the universities chosen in the three
    choices are pairwise distinct, and so are the majors. *)
Theorem selections_pairwise_distinct (kb : KnowledgeBase) (st : Store) :
  reachable kb st ->
  (NoDup (getSelectedUniversities st) /\ distinctChoices University st) /\
  (NoDup (getSelectedMajors st) /\ distinctChoices Major st).
Proof.
  intros Hr. pose proof (reachable_distinct kb st University Hr) as HU.
  pose proof (reachable_distinct kb st Major Hr) as HM.
  repeat split; try assumption; by apply distinctChoices_NoDup.
Qed.

Lemma selections_pairwise_distinct_witness :
  reachable kb_example st_example /\
  (NoDup (getSelectedUniversities st_example) /\
   distinctChoices University st_example) /\
  (NoDup (getSelectedMajors st_example) /\ distinctChoices Major st_example).
Proof.
  pose proof (reachableIntact_reachable _ _ st_example_reachable) as Hr.
  split; [exact Hr|].
  exact (selections_pairwise_distinct kb_example st_example Hr).
Defined.






(** After a selection that stopped at its chip the university selector
    holds the name and the major selector is still disabled. *)
Example major_disabled_beside_university :
  let st := selectItem SELECTION_PAIRS Choice1 University "A<!--B" false in
  reachable kb_markup st /\
  isTruthy (selected (selector st Choice1 University)) = true /\
  disabled (selector st Choice1 Major) = true.
Proof.
  split; [|by split].
  apply reach_select; [| |exact I].
  - apply reach_init. intros []; repeat split; reflexivity.
  - apply (bool_decide_unpack _). vm_compute. exact I.
Qed.

(** ** The field accessor *)

Example val_s1_105 : val {[ "s1" := "105" ]} "s1" = VNumber (Num 100).
Proof. reflexivity. Qed.

Example val_s1_minus5 : val {[ "s1" := "-5" ]} "s1" = VNumber (Num 0).
Proof. reflexivity. Qed.

Example val_rank_150 :
  val {[ "rank_percentile" := "150" ]} "rank_percentile" = VNumber (Num 100).
Proof. reflexivity. Qed.

Example val_rank_0_4 :
  val {[ "rank_percentile" := "0.4" ]} "rank_percentile" = VNumber (Num 1).
Proof. reflexivity. Qed.

Example val_blank : val {[ "math" := "   " ]} "math" = undefined.
Proof. reflexivity. Qed.

Example val_text : val {[ "math" := " abc " ]} "math" = VString "abc".
Proof. reflexivity. Qed.

Lemma trimStart_blank s : blank s -> JsString.trimStart s = "".
Proof.
  induction s as [|c s IH]; intros Hb; [reflexivity|]. simpl.
  rewrite (Hb c) by (simpl; apply list_elem_of_here).
  apply IH. intros d Hd. apply Hb. simpl. by apply list_elem_of_further.
Qed.

Lemma trim_blank s : blank s -> JsString.trim s = "".
Proof. intros Hb. unfold JsString.trim. by rewrite trimStart_blank. Qed.

Lemma arrayIncludes_true l x : arrayIncludes l x = true <-> x ∈ l.
Proof. unfold arrayIncludes. apply bool_decide_eq_true. Qed.

Lemma grade_field_is_numeric id :
  id ∈ GRADE_FIELDS -> arrayIncludes NUMERIC_FIELDS id = true.
Proof.
  intros H. apply arrayIncludes_true. unfold NUMERIC_FIELDS.
  apply elem_of_app. by left.
Qed.

Lemma grade_field_not_rank id :
  id ∈ GRADE_FIELDS -> (id =? "rank_percentile")%string = false.
Proof.
  intros H. destruct (String.eqb_spec id "rank_percentile") as [->|]; [|done].
  exfalso. revert H. apply (bool_decide_unpack _). vm_compute. exact I.
Qed.

Lemma clamp_spec lo hi n :
  (lo <= hi)%Q -> n ≠ NaN ->
  exists r, clamp n (Num lo) (Num hi) = VNumber (Num r) /\ clampsTo lo hi n r.
Proof.
  intros Hlh Hn. unfold clamp, clampsTo. destruct n as [| | |q]; try done; simpl.
  - destruct (Qle_bool lo hi) eqn:E.
    + exists hi. repeat split; lra.
    + apply not_true_iff_false in E. rewrite Qle_bool_iff in E. lra.
  - exists lo. repeat split; lra.
  - destruct (Qle_bool hi q) eqn:E1.
    + apply Qle_bool_iff in E1. destruct (Qle_bool lo hi) eqn:E2.
      * exists hi. repeat split; intros; lra.
      * apply not_true_iff_false in E2. rewrite Qle_bool_iff in E2. lra.
    + apply not_true_iff_false in E1. rewrite Qle_bool_iff in E1.
      destruct (Qle_bool lo q) eqn:E2.
      * apply Qle_bool_iff in E2. exists q. repeat split; intros; lra.
      * apply not_true_iff_false in E2. rewrite Qle_bool_iff in E2.
        exists lo. repeat split; intros; lra.
Qed.

Lemma Math_round_roundsTo q : roundsTo q (Qfloor (q + (1 # 2))).
Proof.
  unfold roundsTo.
  pose proof (Qfloor_le (q + (1 # 2))) as H1.
  pose proof (Qlt_floor (q + (1 # 2))) as H2.
  rewrite inject_Z_plus in H2. change (inject_Z 1) with 1%Q in H2.
  split; lra.
Qed.

Lemma clamp_integer lo hi m :
  clamp (Num (inject_Z m)) (Num (inject_Z lo)) (Num (inject_Z hi)) =
  VNumber (Num (inject_Z (Z.max lo (Z.min hi m)))).
Proof.
  unfold clamp. simpl. unfold Qle_bool. simpl. rewrite !Z.mul_1_r.
  destruct (Z.leb_spec hi m); simpl; unfold Qle_bool; simpl;
    rewrite !Z.mul_1_r.
  - destruct (Z.leb_spec lo hi); do 3 f_equal; lia.
  - destruct (Z.leb_spec lo m); do 3 f_equal; lia.
Qed.

(** C7.  The field accessor: a field whose text is empty or only white space
    reads as absent; a grade field with numeric text reads as that number
    clamped to the interval from 0 to 100; the rank-percentile field with
    numeric text reads as the number rounded to the nearest integer and then
    clamped to the interval from 1 to 100.  The four readings of the
    specification follow.  (The accessor is a function of the form: it
    returns a value and no new form.) *)
Theorem val_spec :
  (forall (form : Form) (id value : string),
     form !! id = Some value ->
     (blank value -> val form id = undefined) /\
     (JsString.trim value ≠ "" ->
      JsNumeric.Number (JsString.trim value) ≠ NaN ->
      (id ∈ GRADE_FIELDS ->
       exists r, val form id = VNumber (Num r) /\
                 clampsTo 0 100 (JsNumeric.Number (JsString.trim value)) r) /\
      (id = "rank_percentile" ->
       exists z, val form id = VNumber (Num (inject_Z z)) /\
                 (1 <= z <= 100)%Z /\
                 match JsNumeric.Number (JsString.trim value) with
                 | Num q =>
                     exists m, roundsTo q m /\ z = Z.max 1 (Z.min 100 m)
                 | PosInfinity => z = 100%Z
                 | NegInfinity => z = 1%Z
                 | NaN => False
                 end)))
  /\ val {[ "s1" := "105" ]} "s1" = VNumber (Num 100)
  /\ val {[ "s1" := "-5" ]} "s1" = VNumber (Num 0)
  /\ val {[ "rank_percentile" := "150" ]} "rank_percentile" = VNumber (Num 100)
  /\ val {[ "rank_percentile" := "0.4" ]} "rank_percentile" = VNumber (Num 1).
Proof.
  split; [|repeat split; reflexivity].
  intros form id value Hid. unfold val. rewrite Hid. split.
  - intros Hb. by rewrite trim_blank.
  - intros Hraw Hnum.
    destruct (String.eqb_spec (JsString.trim value) "") as [|_];
      [contradiction|].
    set (num := JsNumeric.Number (JsString.trim value)) in *.
    assert (Hn : JsNumeric.isNaN num = false) by (by destruct num).
    rewrite Hn. simpl negb. split.
    + intros Hg. rewrite (grade_field_is_numeric id Hg).
      rewrite (proj2 (arrayIncludes_true _ _) Hg), (grade_field_not_rank id Hg).
      simpl. apply clamp_spec; [lra|assumption].
    + intros ->. simpl.
      destruct num as [| | |q] eqn:En; try done.
      * exists 100%Z. repeat split; lia.
      * exists 1%Z. repeat split; lia.
      * exists (Z.max 1 (Z.min 100 (Qfloor (q + (1 # 2))))).
        split; [apply (clamp_integer 1 100)|]. split; [lia|].
        exists (Qfloor (q + (1 # 2))). split; [apply Math_round_roundsTo|done].
Qed.

Lemma val_spec_witness :
  ({[ "s1" := "99.5" ]} : Form) !! "s1" = Some "99.5" /\
  JsString.trim "99.5" ≠ "" /\
  JsNumeric.Number (JsString.trim "99.5") ≠ NaN /\
  "s1" ∈ GRADE_FIELDS /\
  exists r, val {[ "s1" := "99.5" ]} "s1" = VNumber (Num r) /\
            clampsTo 0 100 (JsNumeric.Number (JsString.trim "99.5")) r.
Proof.
  assert (H1 : ({[ "s1" := "99.5" ]} : Form) !! "s1" = Some "99.5")
    by reflexivity.
  assert (H2 : JsString.trim "99.5" ≠ "") by (vm_compute; discriminate).
  assert (H3 : JsNumeric.Number (JsString.trim "99.5") ≠ NaN)
    by (vm_compute; discriminate).
  assert (H4 : "s1" ∈ GRADE_FIELDS)
    by (apply (bool_decide_unpack _); vm_compute; exact I).
  repeat split; try assumption.
  exact (proj1 (proj2 (proj1 val_spec _ _ _ H1) H2 H3) H4).
Defined.

Lemma val_delete_other (form : Form) id k :
  k ≠ id -> val (delete id form) k = val form k.
Proof. intros Hne. unfold val. by rewrite lookup_delete_ne. Qed.

Lemma val_delete_same (form : Form) id : val (delete id form) id = undefined.
Proof. unfold val. by rewrite lookup_delete_eq. Qed.

Lemma atLeastOneGradeFilled_spec (form : Form) :
  atLeastOneGradeFilled form = true <->
  exists k n, k ∈ take 5 GRADE_FIELDS /\ val form k = VNumber n.
Proof.
  unfold atLeastOneGradeFilled. rewrite existsb_exists. split.
  - intros [k [Hk Hn]]. destruct (val form k) as [|n|] eqn:E; try discriminate.
    exists k, n. split; [by apply list_elem_of_In|exact E].
  - intros (k & n & Hk & Hv). exists k. split; [by apply list_elem_of_In|].
    by rewrite Hv.
Qed.

(** C10.  On a numeric field (a grade field or the rank percentile) whose
    trimmed text is not empty and is not a number, the accessor returns the
    trimmed text itself, which is neither absent nor a number; the rule on
    the first five grade fields counts values of number type only, so that
    such a field counts as an absent one. *)
Theorem val_non_numeric_text :
  (forall (form : Form) (id value : string),
     id ∈ NUMERIC_FIELDS ->
     form !! id = Some value ->
     JsString.trim value ≠ "" ->
     JsNumeric.Number (JsString.trim value) = NaN ->
     val form id = VString (JsString.trim value) /\
     JsNumeric.isNumber (val form id) = false /\
     atLeastOneGradeFilled form = atLeastOneGradeFilled (delete id form))
  /\
  (forall form : Form,
     atLeastOneGradeFilled form = true <->
     exists k n, k ∈ take 5 GRADE_FIELDS /\ val form k = VNumber n).
Proof.
  split; [|apply atLeastOneGradeFilled_spec].
  intros form id value Hid Hv Hraw Hnan.
  assert (Hval : val form id = VString (JsString.trim value)).
  { unfold val. rewrite Hv, Hnan.
    destruct (String.eqb_spec (JsString.trim value) "") as [|_];
      [contradiction|reflexivity]. }
  split; [exact Hval|]. split; [by rewrite Hval|].
  unfold atLeastOneGradeFilled. simpl take. simpl existsb.
  repeat match goal with
         | |- context [val (delete id form) ?k] =>
             destruct (decide (k = id)) as [->|Hne];
             [rewrite val_delete_same, Hval
             |rewrite (val_delete_other form id k Hne); clear Hne]
         end; reflexivity.
Qed.

Lemma val_non_numeric_text_witness :
  "s1" ∈ NUMERIC_FIELDS /\
  ({[ "s1" := " abc " ]} : Form) !! "s1" = Some " abc " /\
  JsString.trim " abc " ≠ "" /\
  JsNumeric.Number (JsString.trim " abc ") = NaN /\
  val {[ "s1" := " abc " ]} "s1" = VString (JsString.trim " abc ") /\
  JsNumeric.isNumber (val {[ "s1" := " abc " ]} "s1") = false /\
  atLeastOneGradeFilled {[ "s1" := " abc " ]} =
    atLeastOneGradeFilled (delete "s1" ({[ "s1" := " abc " ]} : Form)).
Proof.
  assert (H1 : "s1" ∈ NUMERIC_FIELDS)
    by (apply (bool_decide_unpack _); vm_compute; exact I).
  assert (H2 : ({[ "s1" := " abc " ]} : Form) !! "s1" = Some " abc ")
    by reflexivity.
  assert (H3 : JsString.trim " abc " ≠ "") by (vm_compute; discriminate).
  assert (H4 : JsNumeric.Number (JsString.trim " abc ") = NaN) by reflexivity.
  repeat (split; [assumption|]).
  exact (proj1 val_non_numeric_text _ _ _ H1 H2 H3 H4).
Defined.

(** ** The validator *)

Lemma pushIf_whenever c x issues : pushIf c x issues = issues ++ whenever c x.
Proof. destruct c; simpl; [reflexivity|by rewrite app_nil_r]. Qed.

Lemma length_zero_nil {A} (l : list A) :
  (length l =? 0)%nat = bool_decide (l = []).
Proof. by destruct l. Qed.

Lemma length_pos_not_nil {A} (l : list A) :
  (0 <? length l)%nat = bool_decide (l ≠ []).
Proof. by destruct l. Qed.

(** The issues are those of the six rules, each rule adding its own
    whatever the others found. *)
Lemma validateForm_rules form st :
  validateForm form st =
  issuesGrades form ++ issuesUniversity st ++ issuesMajor st
    ++ issuesPairs st ++ issuesSaintek form st ++ issuesSoshum form st.
Proof.
  unfold validateForm, issuesGrades, issuesUniversity, issuesMajor,
    issuesPairs, issuesPair, issuesSaintek, issuesSoshum, advisoryFor.
  rewrite !length_zero_nil, !length_pos_not_nil.
  set (us := getSelectedUniversities st). set (ms := getSelectedMajors st).
  clearbody us ms. unfold chosen, isTruthy. simpl.
  destruct (strictEquals (val form "program") "saintek"),
           (strictEquals (val form "program") "soshum"),
           (bool_decide (ms ≠ []));
    simpl;
    repeat match goal with
           | |- context [orNull ?x] => destruct (orNull x)
           end;
    rewrite ?pushIf_whenever; simpl;
    rewrite ?app_nil_r, <- ?app_assoc; reflexivity.
Qed.

(** Where none of the four subjects is filled, a Saintek form with a major
    chosen gets the two advisory issues. *)
Lemma saintek_without_subjects form st :
  val form "program" = VString "saintek" ->
  getSelectedMajors st ≠ [] ->
  val form "math" = undefined -> val form "physics" = undefined ->
  val form "chemistry" = undefined -> val form "biology" = undefined ->
  issuesSaintek form st = [ISSUE_MATH; ISSUE_SCIENCE] /\
  issuesSoshum form st = [].
Proof.
  intros Hp Hm H1 H2 H3 H4. unfold issuesSaintek, issuesSoshum, advisoryFor.
  rewrite Hp, H1, H2, H3, H4. simpl strictEquals.
  by rewrite bool_decide_eq_true_2.
Qed.

Lemma elem_of_whenever c x y : y ∈ whenever c x <-> c = true /\ y = x.
Proof.
  destruct c; simpl.
  - rewrite list_elem_of_singleton. split; [by intros ->|by intros [_ ->]].
  - rewrite elem_of_nil. split; [contradiction|by intros [? _]].
Qed.

(** The issues of the first four rules start with the letter P. *)
Lemma hard_issues_start form st y :
  y ∈ issuesGrades form ++ issuesUniversity st ++ issuesMajor st
        ++ issuesPairs st ->
  exists rest, y = String "P" rest.
Proof.
  unfold issuesGrades, issuesUniversity, issuesMajor, issuesPairs, issuesPair.
  rewrite !elem_of_app, !elem_of_whenever.
  intros [[_ ->]|[[_ ->]|[[_ ->]|Hp]]]; try (eexists; reflexivity).
  destruct Hp as [Hp|[Hp|Hp]]; revert Hp;
    repeat match goal with
           | |- context [chosen ?s ?k ?t] => destruct (chosen s k t)
           end;
    rewrite ?elem_of_nil, ?list_elem_of_singleton; try tauto;
    intros ->; eexists; reflexivity.
Qed.

(** What the validator tests for the two advisory issues of a Saintek form:
    that the value read is falsy, which an absent field and the grade 0
    both are. *)
Lemma saintek_issues_reported form st :
  (ISSUE_MATH ∈ validateForm form st <->
   advisoryFor "saintek" form st = true /\
   JsNumeric.truthy (val form "math") = false)
  /\
  (ISSUE_SCIENCE ∈ validateForm form st <->
   advisoryFor "saintek" form st = true /\
   JsNumeric.truthy (val form "physics") = false /\
   JsNumeric.truthy (val form "chemistry") = false /\
   JsNumeric.truthy (val form "biology") = false).
Proof.
  rewrite validateForm_rules.
  assert (Hhard : forall y, (forall rest, y ≠ String "P" rest) ->
            (y ∈ issuesGrades form ++ issuesUniversity st ++ issuesMajor st
                   ++ issuesPairs st ++ issuesSaintek form st
                   ++ issuesSoshum form st <->
             y ∈ issuesSaintek form st \/ y ∈ issuesSoshum form st)).
  { intros y Hy. rewrite !app_assoc, elem_of_app, elem_of_app.
    rewrite <- !app_assoc. split; [|tauto].
    intros [[Hin|Hin]|Hin]; [|tauto..].
    apply hard_issues_start in Hin as [rest ->]. by destruct (Hy rest). }
  rewrite !Hhard by (intros rest; discriminate).
  unfold issuesSaintek, issuesSoshum.
  destruct (advisoryFor "saintek" form st), (advisoryFor "soshum" form st);
    rewrite ?elem_of_app, ?elem_of_whenever, ?elem_of_nil,
      ?andb_true_iff, ?negb_true_iff;
    split; split; intros H; try tauto;
    repeat match type of H with
           | _ \/ _ => destruct H as [H|H]
           | _ /\ _ => destruct H as [? H]
           end;
    try discriminate; try tauto; intuition auto.
Qed.

Example saintek_two_advisories :
  validateForm form_no_science st_one = [ISSUE_MATH; ISSUE_SCIENCE].
Proof. reflexivity. Qed.

(** C2 fails on the code: with the math grade 0, a number that is present,
    the validator reports the math issue; with a text that is not a number
    it reports none.  The test is the truthiness of the value read. *)
Theorem math_zero_reported_missing :
  (val form_math_zero "program" = VString "saintek" /\
   getSelectedMajors st_one = ["Informatika"] /\
   val form_math_zero "math" = VNumber (Num 0) /\
   validateForm form_math_zero st_one = [ISSUE_MATH])
  /\
  (val form_math_text "math" = VString "abc" /\
   validateForm form_math_text st_one = []).
Proof. repeat split; reflexivity. Qed.

(** ** The payload *)

Lemma getSelected_omap type st :
  getSelected type st = omap (fun key => chosen st key type) keys.
Proof.
  rewrite getSelected_chosen. unfold keys. simpl.
  destruct (chosen st Choice1 type), (chosen st Choice2 type),
           (chosen st Choice3 type); reflexivity.
Qed.

Lemma orNull_chosen st key type x :
  chosen st key type = Some x -> orNull (Some x) = Some x.
Proof. intros [_ Hx]%orNull_Some. by apply orNull_Some_intro. Qed.

Lemma firstOrUnknown_firstPopulated type st :
  firstOrUnknown (getSelected type st) =
  default "Unknown" (firstPopulated type st).
Proof.
  assert (Hh : forall (x : string) l, head (option_list (Some x) ++ l) = Some x)
    by reflexivity.
  rewrite getSelected_chosen. unfold firstOrUnknown, firstPopulated.
  destruct (chosen st Choice1 type) as [a|] eqn:E1.
  { by rewrite Hh, (orNull_chosen _ _ _ _ E1). }
  destruct (chosen st Choice2 type) as [b|] eqn:E2.
  { change (option_list None ++ ?l) with l.
    by rewrite Hh, (orNull_chosen _ _ _ _ E2). }
  destruct (chosen st Choice3 type) as [c|] eqn:E3; [|reflexivity].
  change (head (option_list None ++ option_list None ++ option_list (Some c)))
    with (Some c).
  by rewrite (orNull_chosen _ _ _ _ E3).
Qed.

(** C8.  The payload lists the chosen universities in the order of the
    choices, leaving the empty ones out; its three positional fields are the
    value of each choice or [null]; its singular field is the value of the
    first choice that holds one, or the text Unknown when none does; and
    likewise for the majors.  The rank percentile is 100 when the field
    reads as absent, and the value read otherwise.  With the second choice
    alone filled, the singular field and the second positional field are its
    university, the first positional field is [null] and the list has that
    one element. *)
Theorem collectPayload_spec (form : Form) (st : Store) :
  (target_universities (collectPayload form st) =
     omap (fun key => chosen st key University) keys /\
   target_university_1 (collectPayload form st) = chosen st Choice1 University /\
   target_university_2 (collectPayload form st) = chosen st Choice2 University /\
   target_university_3 (collectPayload form st) = chosen st Choice3 University /\
   target_university (collectPayload form st) =
     default "Unknown" (firstPopulated University st))
  /\
  (target_majors (collectPayload form st) =
     omap (fun key => chosen st key Major) keys /\
   target_major_1 (collectPayload form st) = chosen st Choice1 Major /\
   target_major_2 (collectPayload form st) = chosen st Choice2 Major /\
   target_major_3 (collectPayload form st) = chosen st Choice3 Major /\
   target_major (collectPayload form st) =
     default "Unknown" (firstPopulated Major st))
  /\
  ((val form "rank_percentile" = undefined ->
    rank_percentile (collectPayload form st) = VNumber (Num 100)) /\
   (val form "rank_percentile" ≠ undefined ->
    rank_percentile (collectPayload form st) = val form "rank_percentile"))
  /\
  (forall u,
     chosen st Choice1 University = None ->
     chosen st Choice2 University = Some u ->
     chosen st Choice3 University = None ->
     target_university (collectPayload form st) = u /\
     target_university_1 (collectPayload form st) = None /\
     target_university_2 (collectPayload form st) = Some u /\
     target_universities (collectPayload form st) = [u]).
Proof.
  assert (HU := firstOrUnknown_firstPopulated University st).
  assert (HM := firstOrUnknown_firstPopulated Major st).
  assert (LU := getSelected_omap University st).
  assert (LM := getSelected_omap Major st).
  split; [|split; [|split]].
  - repeat split; try assumption; reflexivity.
  - repeat split; try assumption; reflexivity.
  - simpl. split.
    + by intros ->.
    + by destruct (val form "rank_percentile").
  - intros u H1 H2 H3.
    assert (Hf : firstPopulated University st = Some u).
    { unfold firstPopulated. by rewrite H1, H2. }
    assert (Hl : omap (fun key => chosen st key University) keys = [u]).
    { unfold keys. simpl. by rewrite H1, H2, H3. }
    split.
    { change (firstOrUnknown (getSelected University st) = u).
      by rewrite HU, Hf. }
    split; [exact H1|]. split; [exact H2|].
    change (getSelected University st = [u]). by rewrite LU.
Qed.

Lemma collectPayload_spec_witness :
  chosen st_second Choice1 University = None /\
  chosen st_second Choice2 University = Some "Universitas Gadjah Mada" /\
  chosen st_second Choice3 University = None /\
  val ∅ "rank_percentile" = undefined /\
  target_university (collectPayload ∅ st_second) = "Universitas Gadjah Mada" /\
  target_university_1 (collectPayload ∅ st_second) = None /\
  target_university_2 (collectPayload ∅ st_second)
    = Some "Universitas Gadjah Mada" /\
  target_universities (collectPayload ∅ st_second)
    = ["Universitas Gadjah Mada"] /\
  rank_percentile (collectPayload ∅ st_second) = VNumber (Num 100).
Proof.
  assert (H1 : chosen st_second Choice1 University = None) by reflexivity.
  assert (H2 : chosen st_second Choice2 University
               = Some "Universitas Gadjah Mada") by reflexivity.
  assert (H3 : chosen st_second Choice3 University = None) by reflexivity.
  assert (H4 : val ∅ "rank_percentile" = undefined) by reflexivity.
  destruct (collectPayload_spec ∅ st_second) as (_ & _ & [Hr _] & Hsecond).
  destruct (Hsecond _ H1 H2 H3) as (Ha & Hb & Hc & Hd).
  repeat (split; [assumption|]). exact (Hr H4).
Defined.

(** ** The click on the predict button *)

Lemma append_assoc (a b c : string) : (a +:+ b) +:+ c = a +:+ (b +:+ c).
Proof.
  induction a as [|x a IH]; [reflexivity|].
  change (String x ((a +:+ b) +:+ c) = String x (a +:+ (b +:+ c))).
  by rewrite IH.
Qed.

Lemma Substring_here q b : Substring q (q +:+ b).
Proof. by exists "", b. Qed.

Lemma Substring_after q s a : Substring q s -> Substring q (a +:+ s).
Proof.
  intros [a' [b ->]]. exists (a +:+ a'), b. by rewrite append_assoc.
Qed.

Lemma Substring_before q s b : Substring q s -> Substring q (s +:+ b).
Proof.
  intros [a [b' ->]]. exists a, (b' +:+ b). by rewrite !append_assoc.
Qed.

Lemma Substring_concat_map (f : string -> string) e l :
  e ∈ l -> Substring (f e) (concat_strings (map f l)).
Proof.
  induction 1 as [e l|e y l _ IH]; simpl.
  - apply Substring_here.
  - by apply Substring_after.
Qed.

Lemma whenever_true c x : c = true -> x ∈ whenever c x.
Proof. intros ->. apply list_elem_of_here. Qed.

Lemma getSelected_nil type st :
  getSelected type st = [] <-> forall key, chosen st key type = None.
Proof.
  rewrite getSelected_chosen. split.
  - intros H key.
    destruct (chosen st Choice1 type) eqn:E1, (chosen st Choice2 type) eqn:E2,
             (chosen st Choice3 type) eqn:E3; try discriminate.
    by destruct key.
  - intros H. by rewrite !H.
Qed.

(** C9.  When the validator returns issues, the click shows all of them as
    a list in the result area, sends no request, and leaves the store, the
    form and the button as they are; without issues it sends the request to
    the prediction endpoint.  The issues are those of the six rules put
    together, each rule adding its own whatever the others found: every rule
    whose condition holds has its issue in the list. *)
Theorem predict_click_with_issues (p : Page) :
  (validateForm (form p) (store p) ≠ [] ->
   className (result (predictBtn_click p)) = "error" /\
   innerHTML (result (predictBtn_click p)) =
     "<strong>Please check:</strong><ul>"
     +:+ concat_strings
           (map (fun e => "<li>" +:+ e +:+ "</li>")
                (validateForm (form p) (store p)))
     +:+ "</ul>" /\
   (forall e, e ∈ validateForm (form p) (store p) ->
              Substring ("<li>" +:+ e +:+ "</li>")
                        (innerHTML (result (predictBtn_click p)))) /\
   requests (predictBtn_click p) = requests p /\
   store (predictBtn_click p) = store p /\
   form (predictBtn_click p) = form p /\
   predictBtn (predictBtn_click p) = predictBtn p)
  /\
  (validateForm (form p) (store p) = [] ->
   requests (predictBtn_click p) =
     {| url := "/api/predict"; body := collectPayload (form p) (store p) |}
       :: requests p)
  /\
  validateForm (form p) (store p) =
    issuesGrades (form p) ++ issuesUniversity (store p)
      ++ issuesMajor (store p) ++ issuesPairs (store p)
      ++ issuesSaintek (form p) (store p) ++ issuesSoshum (form p) (store p)
  /\
  ((atLeastOneGradeFilled (form p) = false ->
    ISSUE_GRADES ∈ validateForm (form p) (store p)) /\
   ((forall key, chosen (store p) key University = None) ->
    ISSUE_UNIVERSITY ∈ validateForm (form p) (store p)) /\
   ((forall key, chosen (store p) key Major = None) ->
    ISSUE_MAJOR ∈ validateForm (form p) (store p)) /\
   (forall index key u,
      keys !! index = Some key ->
      chosen (store p) key University = Some u ->
      chosen (store p) key Major = None ->
      ISSUE_PAIR index u ∈ validateForm (form p) (store p)) /\
   (advisoryFor "saintek" (form p) (store p) = true ->
    JsNumeric.truthy (val (form p) "math") = false ->
    ISSUE_MATH ∈ validateForm (form p) (store p)) /\
   (advisoryFor "saintek" (form p) (store p) = true ->
    JsNumeric.truthy (val (form p) "physics") = false ->
    JsNumeric.truthy (val (form p) "chemistry") = false ->
    JsNumeric.truthy (val (form p) "biology") = false ->
    ISSUE_SCIENCE ∈ validateForm (form p) (store p)) /\
   (advisoryFor "soshum" (form p) (store p) = true ->
    JsNumeric.truthy (val (form p) "language") = false ->
    ISSUE_LANGUAGE ∈ validateForm (form p) (store p))).
Proof.
  split; [|split; [|split; [apply validateForm_rules|]]].
  - intros Hne. unfold predictBtn_click.
    assert (Hpos : (0 <? length (validateForm (form p) (store p)))%nat = true).
    { destruct (validateForm (form p) (store p)); [contradiction|reflexivity]. }
    rewrite Hpos.
    cbn [result requests store form predictBtn renderResult className innerHTML].
    repeat split.
    intros e He. apply Substring_after, Substring_before.
    by apply (Substring_concat_map (fun e => "<li>" +:+ e +:+ "</li>")).
  - intros E. unfold predictBtn_click. by rewrite E.
  - rewrite validateForm_rules. repeat split.
    + intros H. rewrite !elem_of_app. left. apply whenever_true. by rewrite H.
    + intros H. rewrite !elem_of_app. right; left.
      apply whenever_true, bool_decide_eq_true. by apply getSelected_nil.
    + intros H. rewrite !elem_of_app. do 2 right; left.
      apply whenever_true, bool_decide_eq_true. by apply getSelected_nil.
    + intros index key u Hk HU HM. rewrite !elem_of_app. do 3 right; left.
      unfold issuesPairs. rewrite !elem_of_app.
      destruct index as [|[|[|?]]]; simpl in Hk; try discriminate;
        injection Hk as <-; [left|right; left|right; right];
        unfold issuesPair; rewrite HU, HM; apply list_elem_of_here.
    + intros Ha Hm. rewrite !elem_of_app. do 4 right; left.
      unfold issuesSaintek. rewrite Ha, elem_of_app. left.
      apply whenever_true. by rewrite Hm.
    + intros Ha H1 H2 H3. rewrite !elem_of_app. do 4 right; left.
      unfold issuesSaintek. rewrite Ha, elem_of_app. right.
      apply whenever_true. by rewrite H1, H2, H3.
    + intros Ha Hl. rewrite !elem_of_app. do 5 right. unfold issuesSoshum.
      rewrite Ha. apply whenever_true. by rewrite Hl.
Qed.

Lemma predict_click_with_issues_witness :
  validateForm (form page_empty) (store page_empty) ≠ [] /\
  className (result (predictBtn_click page_empty)) = "error" /\
  requests (predictBtn_click page_empty) = requests page_empty /\
  store (predictBtn_click page_empty) = store page_empty /\
  form (predictBtn_click page_empty) = form page_empty.
Proof.
  assert (H : validateForm (form page_empty) (store page_empty) ≠ [])
    by (vm_compute; discriminate).
  destruct (proj1 (predict_click_with_issues page_empty) H)
    as (H1 & _ & _ & H2 & H3 & H4 & _).
  repeat (split; [assumption|]). exact H4.
Defined.

(** ** A selection that does not come from the current list

    The invariant of the selections rests on every item being taken from
    the list of that moment.  The Enter key fires the first option of a
    dropdown as it was last rendered, hidden or not: after the list of
    choice 1 was rendered and left, and its first university was selected in
    choice 2, Enter in the input of choice 1 selects that university
    again. *)

Example stale_option_selected_twice :
  let st1 := showAllOptions kb_example SELECTION_PAIRS Choice1 University in
  let st2 := update st1 Choice1 University (set_hidden true) in
  let st3 := selectItem st2 Choice2 University "Universitas Indonesia" true in
  ("Universitas Indonesia" ∈ availableFor kb_example st2 Choice2 University) /\
  ("Universitas Indonesia" ∉ availableFor kb_example st3 Choice1 University) /\
  getSelectedUniversities (keydownEnter st3 Choice1 University true) =
    ["Universitas Indonesia"; "Universitas Indonesia"].
Proof.
  split; [|split; [|reflexivity]];
    apply (bool_decide_unpack _); vm_compute; exact I.
Qed.


(** * Further properties *)

(** ** The selectors after an operation *)

Lemma selector_selectItem st key type item removeBtn k t :
  selector (selectItem st key type item removeBtn) k t =
  if decide (k = key) then
    if decide (t = type) then picked item removeBtn (selector st k t)
    else match type with
         | University =>
             if throws item removeBtn then selector st k t
             else cleared false (selector st k t)
         | Major => selector st k t
         end
  else selector st k t.
Proof.
  unfold selectItem, renderSelectedItem, throws, picked, cleared, isTruthy.
  destruct key, type, k, t; cbn;
    destruct (JsString.truthy item), removeBtn; reflexivity.
Qed.

Lemma selector_clearSelection st key type k t :
  selector (clearSelection st key type) k t =
  if decide (k = key) then
    if decide (t = type) then cleared (disabled (selector st k t)) (selector st k t)
    else match type with
         | University => cleared true (selector st k t)
         | Major => selector st k t
         end
  else selector st k t.
Proof. destruct key, type, k, t; reflexivity. Qed.

Lemma selector_resetSelections st k t :
  selector (resetSelections st) k t =
  cleared (match t with
           | University => disabled (selector st k t)
           | Major => true
           end) (selector st k t).
Proof. destruct k, t; reflexivity. Qed.

Lemma selector_setMajorDisabled st key dis k t :
  selector (setMajorDisabled st key dis) k t =
  if decide ((k, t) = (key, Major)) then set_disabled dis (selector st k t)
  else selector st k t.
Proof. destruct key, k, t; reflexivity. Qed.

Lemma selector_update st key type f k t :
  selector (update st key type f) k t =
  if decide ((k, t) = (key, type)) then f (selector st k t)
  else selector st k t.
Proof.
  case_decide as H.
  - injection H as -> ->. apply selector_update_same.
  - by apply selector_update_other.
Qed.
(** ** The invariant of the page *)

Lemma availableFor_names kb st key type x :
  x ∈ availableFor kb st key type -> x ∈ namesOf kb type.
Proof.
  destruct type; simpl.
  - unfold getAvailableUniversities. by intros [_ ?]%list_elem_of_filter.
  - destruct (disabled _); [by intros ?%elem_of_nil|].
    unfold getAvailableMajorsForChoice.
    destruct (negb _); [by intros ?%elem_of_nil|].
    intros [_ Hx]%list_elem_of_filter. revert Hx.
    unfold getMajorsForUniversity. destruct (orNull _);
      [|by intros ?%elem_of_nil].
    by intros [_ ?]%list_elem_of_filter.
Qed.


Lemma invariant_initial intact N : pageInvariant intact N SELECTION_PAIRS.
Proof.
  split; [|split; [|split; [|split]]].
  - by intros [] [].
  - intros [] []; (split; [discriminate|]); simpl; intros items [= <-] x Hx;
      by apply elem_of_nil in Hx.
  - intros []; repeat split; try discriminate; try reflexivity;
      intros Hx; by destruct Hx.
  - intros [] []; simpl; (split; [lia|discriminate]).
  - intros _ [] Hx; by destruct Hx.
Qed.


(** A session that is not known to be intact any more keeps the rest. *)
Lemma invariant_loose intact N st :
  pageInvariant intact N st -> pageInvariant false N st.
Proof.
  intros (Hchip & Hw & Hco & Ht & _).
  repeat (split; [assumption|]). discriminate.
Qed.

Lemma invariant_selectItem intact N st key type item removeBtn :
  N type item ->
  (type = Major -> disabled (selector st key Major) = false) ->
  (intact = true -> throws item removeBtn = false) ->
  pageInvariant intact N st ->
  pageInvariant intact N (selectItem st key type item removeBtn).
Proof.
  intros Hitem Hen Hfound (Hchip & Hcw & Hco & Ht & Hin).
  split; [|split; [|split; [|split]]].
  - intros k t. rewrite selector_selectItem. specialize (Hchip k t).
    repeat case_decide; subst; try exact Hchip.
    + simpl. split; [reflexivity|]. unfold isTruthy. simpl.
      by destruct (JsString.truthy item).
    + destruct type; [|exact Hchip].
      destruct (throws item removeBtn); [exact Hchip|by split].
  - intros k t. rewrite selector_selectItem. specialize (Hcw k t).
    repeat case_decide; subst; try exact Hcw.
    + simpl. split; [by intros x [= <-]|apply Hcw].
    + destruct type; [|exact Hcw].
      destruct (throws item removeBtn); [exact Hcw|].
      simpl. split; [discriminate|apply Hcw].
  - intros k. rewrite !selector_selectItem. specialize (Hco k).
    destruct (decide (k = key)) as [->|Hk]; [|exact Hco].
    destruct Hco as (Hb & Ha & Hc).
    destruct type; repeat (case_decide; try congruence); simpl.
    + destruct (throws item removeBtn).
      * split; [discriminate|]. exact (conj Ha Hc).
      * repeat split; try discriminate; try reflexivity.
    + split; [exact Hb|]. split; [by intros _; apply Hen|reflexivity].
  - intros k t. rewrite selector_selectItem. specialize (Ht k t).
    repeat case_decide; subst; try exact Ht.
    + simpl. destruct (content _); [|exact I]. split; [apply Ht|discriminate].
    + destruct type; [|exact Ht].
      destruct (throws item removeBtn); [exact Ht|]. simpl.
      destruct (content _); [|exact I]. split; [apply Ht|discriminate].
  - intros Hi k. rewrite !selector_selectItem, (Hfound Hi).
    specialize (Hin Hi k).
    destruct (decide (k = key)) as [->|Hk]; [|exact Hin].
    destruct type; repeat (case_decide; try congruence); simpl.
    + reflexivity.
    + intros _. by apply Hen.
Qed.

Lemma invariant_clearSelection intact N st key type :
  pageInvariant intact N st ->
  pageInvariant intact N (clearSelection st key type).
Proof.
  intros (Hchip & Hcw & Hco & Ht & Hin).
  split; [|split; [|split; [|split]]].
  - intros k t. rewrite selector_clearSelection. specialize (Hchip k t).
    repeat case_decide; subst; try exact Hchip; [by split|].
    destruct type; [by split|exact Hchip].
  - intros k t. rewrite selector_clearSelection. specialize (Hcw k t).
    repeat case_decide; subst; try exact Hcw.
    + simpl. split; [discriminate|apply Hcw].
    + destruct type; [|exact Hcw]. simpl. split; [discriminate|apply Hcw].
  - intros k. rewrite !selector_clearSelection. specialize (Hco k).
    destruct (decide (k = key)) as [->|Hk]; [|exact Hco].
    destruct Hco as (Hb & Ha & Hc).
    destruct type; repeat (case_decide; try congruence); simpl.
    + repeat split; try discriminate; try reflexivity;
        intros Hx; by destruct Hx.
    + split; [exact Hb|]. split; [intros Hx; by destruct Hx|reflexivity].
  - intros k t. rewrite selector_clearSelection. specialize (Ht k t).
    repeat case_decide; subst; try exact Ht.
    + simpl. destruct (content _); [|exact I]. split; [apply Ht|discriminate].
    + destruct type; [|exact Ht]. simpl.
      destruct (content _); [|exact I]. split; [apply Ht|discriminate].
  - intros Hi k. rewrite !selector_clearSelection. specialize (Hin Hi k).
    destruct (decide (k = key)) as [->|Hk]; [|exact Hin].
    destruct type; repeat (case_decide; try congruence); simpl.
    + intros Hx; by destruct Hx.
    + exact Hin.
Qed.

Lemma invariant_resetSelections intact N st :
  pageInvariant intact N st -> pageInvariant intact N (resetSelections st).
Proof.
  intros (Hchip & Hcw & Hco & Ht & Hin).
  split; [|split; [|split; [|split]]].
  - intros k t. rewrite selector_resetSelections. by split.
  - intros k t. rewrite selector_resetSelections. simpl.
    split; [discriminate|apply (Hcw k t)].
  - intros k. rewrite !selector_resetSelections. simpl.
    repeat split; try discriminate; try reflexivity; intros Hx; by destruct Hx.
  - intros k t. rewrite selector_resetSelections. specialize (Ht k t). simpl.
    destruct (content _); [|exact I]. split; [apply Ht|discriminate].
  - intros _ k. rewrite !selector_resetSelections. simpl.
    intros Hx; by destruct Hx.
Qed.

Lemma invariant_quiet intact N st key type f :
  quiet f -> pageInvariant intact N st ->
  pageInvariant intact N (update st key type f).
Proof.
  intros Hq (Hchip & Hcw & Hco & Ht & Hin).
  split; [|split; [|split; [|split]]]; cycle 4.
  { intros Hi k. rewrite !selector_update. specialize (Hin Hi k).
    destruct (decide ((k, Major) = (key, type))) as [E1|N1],
             (decide ((k, University) = (key, type))) as [E2|N2];
      simplify_eq.
    - by destruct (Hq (selector st key Major)) as (_ & -> & _).
    - by destruct (Hq (selector st key University)) as (-> & _).
    - exact Hin. }
  - intros k t. rewrite selector_update. specialize (Hchip k t).
    destruct (decide ((k, t) = (key, type))); [|exact Hchip].
    destruct (Hq (selector st k t)) as (-> & _ & -> & _ & _ & Hb).
    destruct Hchip as [H1 H2]. split; [exact H1|]. intros Hx. by apply Hb, H2.
  - intros k t. rewrite selector_update. specialize (Hcw k t).
    destruct (decide ((k, t) = (key, type))); [|exact Hcw].
    by destruct (Hq (selector st k t)) as (-> & _ & _ & -> & _).
  - intros k. rewrite !selector_update. specialize (Hco k).
    destruct Hco as (Hb & Ha & Hc).
    destruct (decide ((k, Major) = (key, type))) as [E1|N1],
             (decide ((k, University) = (key, type))) as [E2|N2];
      simplify_eq.
    + destruct (Hq (selector st key Major)) as (Hs & Hd & _ & _ & Hh & _).
      rewrite Hs, Hd. split; [exact Hb|]. split; [exact Ha|].
      intros Hx. by apply Hh, Hc.
    + destruct (Hq (selector st key University)) as (Hs & _).
      rewrite Hs. exact (conj Hb (conj Ha Hc)).
    + exact (conj Hb (conj Ha Hc)).
  - intros k t. rewrite selector_update. specialize (Ht k t).
    destruct (decide ((k, t) = (key, type))); [|exact Ht].
    destruct (Hq (selector st k t)) as (_ & _ & _ & -> & Hh & _).
    destruct (content _); [|exact I]. split; [apply Ht|].
    intros Hv. apply Ht. destruct (hidden (dropdown (selector st k t)));
      [by rewrite Hh in Hv|reflexivity].
Qed.

Lemma invariant_show intact N st key type c :
  bool_decide (type = Major) && disabled (selector st key type) = false ->
  (forall items, c = Options items -> forall x, x ∈ items -> N type x) ->
  tidyContent true c ->
  pageInvariant intact N st ->
  pageInvariant intact N (update st key type (show c)).
Proof.
  intros Hen Hc Hshape (Hchip & Hcw & Hco & Ht & Hin).
  split; [|split; [|split; [|split]]]; cycle 4.
  { intros Hi k. rewrite !selector_update. specialize (Hin Hi k).
    destruct (decide ((k, Major) = (key, type))) as [E1|N1],
             (decide ((k, University) = (key, type))) as [E2|N2];
      simplify_eq; exact Hin. }
  - intros k t. rewrite selector_update. specialize (Hchip k t).
    destruct (decide ((k, t) = (key, type))); exact Hchip.
  - intros k t. rewrite selector_update. specialize (Hcw k t).
    destruct (decide ((k, t) = (key, type))) as [E|NE]; [|exact Hcw].
    injection E as -> ->. simpl. split; [apply Hcw|exact Hc].
  - intros k. rewrite !selector_update. specialize (Hco k).
    destruct Hco as (Hb & Ha & Hh).
    destruct (decide ((k, Major) = (key, type))) as [E1|N1],
             (decide ((k, University) = (key, type))) as [E2|N2];
      simplify_eq; simpl; try exact (conj Hb (conj Ha Hh)).
    split; [exact Hb|]. split; [exact Ha|].
    rewrite bool_decide_eq_true_2 in Hen by reflexivity. simpl in Hen.
    congruence.
  - intros k t. rewrite selector_update. specialize (Ht k t).
    destruct (decide ((k, t) = (key, type))); [exact Hshape|exact Ht].
Qed.

Lemma invariant_enable intact N st key :
  selected (selector st key University) ≠ None ->
  pageInvariant intact N st ->
  pageInvariant intact N (setMajorDisabled st key false).
Proof.
  intros Hu (Hchip & Hcw & Hco & Ht & Hin).
  split; [|split; [|split; [|split]]]; cycle 4.
  { intros Hi k. rewrite !selector_setMajorDisabled. specialize (Hin Hi k).
    rewrite (decide_False (P := (k, University) = (key, Major)))
      by congruence.
    destruct (decide ((k, Major) = (key, Major))); [by intros _|exact Hin]. }
  - intros k t. rewrite selector_setMajorDisabled. specialize (Hchip k t).
    destruct (decide ((k, t) = (key, Major))); exact Hchip.
  - intros k t. rewrite selector_setMajorDisabled. specialize (Hcw k t).
    destruct (decide ((k, t) = (key, Major))); exact Hcw.
  - intros k. rewrite !selector_setMajorDisabled. specialize (Hco k).
    destruct Hco as (Hb & Ha & Hh).
    destruct (decide ((k, Major) = (key, Major))) as [E1|N1];
      [|rewrite decide_False by congruence; exact (conj Hb (conj Ha Hh))].
    rewrite decide_False by congruence. simplify_eq. simpl.
    split; [done|]. split; [done|discriminate].
  - intros k t. rewrite selector_setMajorDisabled. specialize (Ht k t).
    destruct (decide ((k, t) = (key, Major))); exact Ht.
Qed.

Lemma tidyContent_take (l : list string) x rest :
  take 12 l = x :: rest -> tidyContent true (Options (x :: rest)).
Proof.
  intros E. split; [rewrite <- E, length_take; lia|discriminate].
Qed.

Lemma invariant_showAllOptions intact N kb st key type :
  (forall type x, x ∈ namesOf kb type -> N type x) ->
  pageInvariant intact N st ->
  pageInvariant intact N (showAllOptions kb st key type).
Proof.
  intros HN Hinv. unfold showAllOptions.
  destruct (bool_decide (type = Major) && disabled (selector st key type))
    eqn:E; [exact Hinv|].
  destruct (availableFor kb st key type) as [|x l] eqn:Ha;
    apply invariant_show; try assumption; try discriminate; try exact I.
  - intros items [= <-] y Hy. apply HN, (availableFor_names kb st key).
    rewrite Ha. exact (subseteq_take 12 (x :: l) y Hy).
  - by apply (tidyContent_take (x :: l) x (take 11 l)).
Qed.

Lemma quiet_set_hidden : quiet (set_hidden true).
Proof. intros s. by repeat split. Qed.

Lemma quiet_set_input_value text : quiet (set_input_value text).
Proof. intros s. by repeat split. Qed.

Lemma quiet_set_input_block : quiet (set_input_block true).
Proof. intros s. by repeat split. Qed.

Lemma invariant_renderSearchResults intact N kb st key type query :
  (forall type x, x ∈ namesOf kb type -> N type x) ->
  pageInvariant intact N st ->
  pageInvariant intact N (renderSearchResults kb st key type query).
Proof.
  intros HN Hinv. unfold renderSearchResults.
  destruct (negb (JsString.truthy query));
    [apply invariant_quiet; [apply quiet_set_hidden|exact Hinv]|].
  destruct (bool_decide (type = Major) && disabled (selector st key type))
    eqn:E; [exact Hinv|].
  destruct (take 12 _) as [|x l] eqn:Ha;
    apply invariant_show; try assumption; try discriminate; try exact I.
  - intros items [= <-]. rewrite <- Ha.
    intros y Hy%subseteq_take. apply list_elem_of_filter in Hy as [_ Hy].
    by apply HN, (availableFor_names kb st key type).
  - by apply (tidyContent_take _ _ _ Ha).
Qed.

(** ** The listeners keep the invariant *)

Section ListenersKeep.

Variable intact : bool.
Variable N : SelectorType -> string -> Prop.
Variable kb : KnowledgeBase.
Hypothesis HN : forall type x, x ∈ namesOf kb type -> N type x.

Lemma isTruthy_not_None x : isTruthy x = true -> x ≠ None.
Proof. by destruct x. Qed.

Lemma invariant_optionMousedown st key type index removeBtn :
  (intact = true -> removeBtn = true) ->
  pageInvariant intact N st ->
  pageInvariant intact N (optionMousedown st key type index removeBtn).
Proof.
  intros Hfound Hinv. unfold optionMousedown.
  destruct (hidden _) eqn:Hh; [exact Hinv|].
  destruct (content _) as [items|] eqn:Hc; [|exact Hinv].
  destruct (items !! index) as [item|] eqn:Hi; [|exact Hinv].
  pose proof Hinv as (Hchip & Hw & Hco & Ht).
  apply invariant_selectItem; [| | |exact Hinv].
  - apply (proj2 (Hw key type) items Hc). by apply list_elem_of_lookup_2 in Hi.
  - intros ->. destruct (disabled (selector st key Major)) eqn:Hd;
      [|reflexivity].
    apply (Hco key) in Hd. congruence.
  - intros ->%Hfound. apply throws_found.
Qed.

Lemma invariant_removeClick st key type :
  pageInvariant intact N st ->
  pageInvariant intact N (removeClick st key type).
Proof.
  intros Hinv. unfold removeClick. destruct (selectedDiv _); [|exact Hinv].
  destruct (chip_button _); [|exact Hinv].
  by apply invariant_clearSelection.
Qed.

Lemma invariant_inputFocus st key type :
  pageInvariant intact N st -> pageInvariant intact N (inputFocus kb st key type).
Proof.
  intros Hinv. unfold inputFocus.
  destruct (_ && _); [exact Hinv|].
  destruct (JsString.truthy _); [|exact Hinv].
  by apply invariant_renderSearchResults.
Qed.

Lemma invariant_inputTyped st key type text :
  pageInvariant intact N st -> pageInvariant intact N (inputTyped kb st key type text).
Proof.
  intros Hinv. unfold inputTyped.
  apply invariant_renderSearchResults; [exact HN|].
  apply invariant_quiet; [apply quiet_set_input_value|exact Hinv].
Qed.

Lemma invariant_keydownEnter st key type removeBtn :
  (intact = true -> removeBtn = true) ->
  pageInvariant intact N st ->
  pageInvariant intact N (keydownEnter st key type removeBtn).
Proof.
  intros Hfound Hinv. unfold keydownEnter.
  destruct (_ && _) eqn:Hen; [exact Hinv|].
  destruct (content _) as [[|first rest]|] eqn:Hc; try exact Hinv.
  pose proof Hinv as (Hchip & Hw & Hco & Ht).
  apply invariant_selectItem; [| | |exact Hinv].
  - apply (proj2 (Hw key type) _ Hc). apply list_elem_of_here.
  - intros ->. by rewrite bool_decide_eq_true_2 in Hen.
  - intros ->%Hfound. apply throws_found.
Qed.

Lemma invariant_keydownEscape st key type :
  pageInvariant intact N st -> pageInvariant intact N (keydownEscape st key type).
Proof.
  intros Hinv. unfold keydownEscape. destruct (_ && _); [exact Hinv|].
  apply invariant_quiet; [apply quiet_set_hidden|exact Hinv].
Qed.

Lemma invariant_blurTimeout st key type :
  pageInvariant intact N st -> pageInvariant intact N (blurTimeout st key type).
Proof.
  intros Hinv. apply invariant_quiet; [apply quiet_set_hidden|exact Hinv].
Qed.

Lemma invariant_boxClick st key type focused :
  pageInvariant intact N st -> pageInvariant intact N (boxClick kb st key type focused).
Proof.
  intros Hinv. unfold boxClick. destruct (_ && _); [exact Hinv|].
  apply invariant_showAllOptions; [exact HN|].
  assert (pageInvariant intact N
            (if isTruthy (selected (selector st key type))
             then update st key type (set_input_block true) else st)) as Hb.
  { destruct (isTruthy _); [|exact Hinv].
    apply invariant_quiet; [apply quiet_set_input_block|exact Hinv]. }
  destruct focused; [exact Hb|]. by apply invariant_inputFocus.
Qed.

Lemma invariant_inputChange st key type :
  pageInvariant intact N st -> pageInvariant intact N (inputChange kb st key type).
Proof.
  intros Hinv. unfold inputChange.
  set (st' := if JsString.truthy _ then _ else st).
  assert (pageInvariant intact N st') as Hinv'.
  { unfold st'. destruct (JsString.truthy _); [|exact Hinv].
    by apply invariant_renderSearchResults. }
  clearbody st'. destruct (isTruthy _) eqn:Hs; [|exact Hinv'].
  apply invariant_showAllOptions; [exact HN|].
  apply invariant_enable; [|exact Hinv'].
  apply isTruthy_not_None in Hs. destruct type; [exact Hs|].
  destruct Hinv' as (_ & _ & Hco & _).
  destruct (Hco key) as (Ha & Hb & _). by apply Ha, Hb.
Qed.

Lemma invariant_programChange st :
  pageInvariant intact N st -> pageInvariant intact N (programChange kb st).
Proof.
  unfold programChange. generalize keys. intros ks. revert st.
  induction ks as [|k ks IH]; intros st Hinv; [exact Hinv|].
  simpl. apply IH.
  assert (forall st t, pageInvariant intact N st ->
            pageInvariant intact N
              (if negb (hidden (dropdown (selector st k t))) then
                 if JsString.truthy (JsString.trim (input_value (selector st k t)))
                 then renderSearchResults kb st k t
                        (JsString.trim (input_value (selector st k t)))
                 else showAllOptions kb st k t
               else st)) as Hstep.
  { intros st0 t H0. destruct (negb _); [|exact H0].
    destruct (JsString.truthy _);
      [by apply invariant_renderSearchResults|by apply invariant_showAllOptions]. }
  exact (Hstep _ Major (Hstep _ University Hinv)).
Qed.

Lemma invariant_emptyInputs st :
  pageInvariant intact N st -> pageInvariant intact N (emptyInputs st).
Proof.
  intros Hinv. unfold emptyInputs, keys. cbn [foldl].
  repeat (apply invariant_quiet; [apply quiet_set_input_value|]).
  exact Hinv.
Qed.

Lemma invariant_dispatch st e :
  (intact = true -> buttonFound e = true) ->
  pageInvariant intact N st -> pageInvariant intact N (dispatch kb st e).
Proof.
  intros Hfound Hinv. destruct e; simpl.
  - by apply invariant_optionMousedown.
  - by apply invariant_removeClick.
  - by apply invariant_boxClick.
  - by apply invariant_inputFocus.
  - by apply invariant_inputTyped.
  - by apply invariant_keydownEnter.
  - by apply invariant_keydownEscape.
  - by apply invariant_blurTimeout.
  - by apply invariant_inputChange.
  - by apply invariant_programChange.
  - unfold resetClick. destruct allFields;
      [apply invariant_resetSelections|]; by apply invariant_emptyInputs.
Qed.

End ListenersKeep.

(** ** The invariant over a session *)

Lemma buttonsFound_cons s steps :
  buttonsFound (s :: steps) ->
  (forall e, s = Ui e -> buttonFound e = true) /\ buttonsFound steps.
Proof.
  intros Hb. split.
  - intros e ->. apply Hb, list_elem_of_here.
  - intros e He. by apply Hb, list_elem_of_further.
Qed.

Lemma steps_shape intact steps : forall g,
  (intact = true -> buttonsFound steps) ->
  pageInvariant intact (fun _ _ => True) (PAIRS g) ->
  pageInvariant intact (fun _ _ => True) (PAIRS (foldl step g steps)).
Proof.
  induction steps as [|s steps IH]; intros g Hb Hinv; [exact Hinv|].
  simpl. apply IH.
  - intros Hi. by apply (buttonsFound_cons s), Hb.
  - destruct s; simpl; try exact Hinv.
    apply invariant_dispatch; [done| |exact Hinv].
    intros Hi. destruct (buttonsFound_cons _ _ (Hb Hi)) as [H _].
    by apply H.
Qed.

(** What every session keeps, whatever the chips answered. *)
Lemma session_shape steps :
  pageInvariant false (fun _ _ => True) (PAIRS (session steps)).
Proof. apply steps_shape; [discriminate|apply invariant_initial]. Qed.






(** ** What a session never breaks *)

(** X1.  At every moment of a session, whatever the user did and however
    the two requests were answered, the chip of each selector shows
    exactly what the selector holds (no chip for [null] or the empty
    name), and a selector that holds nothing shows its input. *)
Theorem session_chips_show_selection (steps : list Step) :
  chipsShowSelection (PAIRS (session steps)).
Proof. apply (session_shape steps). Qed.


(** X3.  At every moment of a session a dropdown lists twelve options at
    most, and a dropdown that is shown lists an option or holds a note:
    it is never shown blank. *)
Theorem session_dropdowns_tidy (steps : list Step) :
  tidy (PAIRS (session steps)).
Proof. apply (session_shape steps). Qed.



Lemma none_selected st type :
  (forall key, selected (selector st key type) = None) ->
  getSelected type st = [].
Proof.
  intros Hn. apply getSelected_nil. intros key. unfold chosen.
  by rewrite Hn.
Qed.



(** ** The body of a request *)





(** ** One choice at a time *)







(** ** Reset *)

(** X8.  On a page with the five fields it writes to, the reset handler
    leaves, whatever the store was, nothing selected and no chip, every
    major selector disabled, every input empty and shown and every
    dropdown hidden with the content it had; the two lists of selections
    are empty, and a second reset changes nothing. *)
Theorem reset_clears_everything (st : Store) :
  (forall key type,
     let s := selector (resetClick st true) key type in
     selected s = None /\ selectedDiv s = None /\
     input_value s = "" /\ input_block s = true /\
     hidden (dropdown s) = true /\
     content (dropdown s) = content (dropdown (selector st key type))) /\
  (forall key, disabled (selector (resetClick st true) key Major) = true) /\
  initialStore (resetClick st true) /\
  getSelectedUniversities (resetClick st true) = [] /\
  getSelectedMajors (resetClick st true) = [] /\
  resetClick (resetClick st true) true = resetClick st true.
Proof.
  unfold resetClick.
  split; [|split; [|split; [|split; [|split]]]].
  - intros key type. simpl. rewrite selector_resetSelections.
    repeat split. by destruct key, type.
  - intros key. by rewrite selector_resetSelections.
  - intros key. rewrite !selector_resetSelections. repeat split.
    apply offered_hidden. by rewrite selector_resetSelections.
  - apply none_selected. intros key. by rewrite selector_resetSelections.
  - apply none_selected. intros key. by rewrite selector_resetSelections.
  - reflexivity.
Qed.

(** ** The last operation on a selector decides *)

(** X9.  On one selector, a selection that is cleared leaves the store as
    clearing alone does, whatever the chip of the selection answered.  Of
    two selections in a row the second alone decides what the selector
    holds; it decides the whole store, and so does a selection after a
    clearing, when it is the selection of a major or does not stop at its
    chip.  The selection of a university that stops at its chip leaves the
    major as the operation before it did: after another university was
    selected the major selector is enabled, and with that selection alone
    it is still disabled. *)
Theorem last_operation_decides (st : Store) (key : ChoiceKey)
    (type : SelectorType) (a b : string) (removeBtn removeBtn' : bool) :
  clearSelection (selectItem st key type a removeBtn) key type =
    clearSelection st key type /\
  selector
    (selectItem (selectItem st key type a removeBtn) key type b removeBtn')
    key type =
    selector (selectItem st key type b removeBtn') key type /\
  (type = Major \/ throws b removeBtn' = false ->
   selectItem (selectItem st key type a removeBtn) key type b removeBtn' =
     selectItem st key type b removeBtn' /\
   selectItem (clearSelection st key type) key type b removeBtn' =
     selectItem st key type b removeBtn') /\
  clearSelection (clearSelection st key type) key type =
    clearSelection st key type /\
  (disabled
     (selector
        (selectItem
           (selectItem SELECTION_PAIRS Choice1 University
                       "Universitas Indonesia" true)
           Choice1 University "A<!--B" false) Choice1 Major) = false /\
   disabled
     (selector (selectItem SELECTION_PAIRS Choice1 University "A<!--B" false)
               Choice1 Major) = true).
Proof.
  split; [|split; [|split; [|split; [|by split]]]].
  - unfold selectItem, renderSelectedItem, isTruthy.
    destruct key, type; cbn;
      destruct (JsString.truthy a), removeBtn; reflexivity.
  - unfold selectItem, renderSelectedItem, isTruthy.
    destruct key, type; cbn;
      destruct (JsString.truthy a), removeBtn, (JsString.truthy b), removeBtn';
      reflexivity.
  - unfold throws, selectItem, renderSelectedItem, isTruthy.
    intros [->|Ht]; destruct key; try destruct type; cbn in *;
      destruct (JsString.truthy a), removeBtn, (JsString.truthy b), removeBtn';
      try discriminate; split; reflexivity.
  - destruct key, type; reflexivity.
Qed.
(** ** Enter on a list that was just rendered *)

Lemma sameSelection_availableFor kb st st' key type :
  sameSelection st st' ->
  availableFor kb st' key type = availableFor kb st key type.
Proof.
  intros Hs.
  assert (forall k t, selected (selector st' k t) = selected (selector st k t))
    as Hsel by (intros k t; apply Hs).
  assert (forall k, disabled (selector st' k Major) =
                    disabled (selector st k Major))
    as Hdis by (intros k; apply Hs).
  pose proof (Hsel Choice1 University) as A1.
  pose proof (Hsel Choice2 University) as A2.
  pose proof (Hsel Choice3 University) as A3.
  pose proof (Hsel Choice1 Major) as B1.
  pose proof (Hsel Choice2 Major) as B2.
  pose proof (Hsel Choice3 Major) as B3.
  pose proof (Hdis key) as D. clear Hs Hsel Hdis.
  destruct type; simpl in *;
    unfold getAvailableUniversities, getAvailableMajorsForChoice,
      alreadySelected, keys; simpl.
  - by rewrite A1, A2, A3.
  - rewrite D. destruct key; simpl in *; by rewrite ?A1, ?A2, ?A3, ?B1, ?B2, ?B3.
Qed.

Lemma sameSelection_trans st1 st2 st3 :
  sameSelection st1 st2 -> sameSelection st2 st3 -> sameSelection st1 st3.
Proof.
  intros H1 H2 key type. destruct (H1 key type) as [<- <-]. apply H2.
Qed.

Lemma sameSelection_refl st : sameSelection st st.
Proof. by intros key type. Qed.

Lemma quiet_sameSelection st key type f :
  quiet f -> sameSelection st (update st key type f).
Proof.
  intros Hq. apply update_sameSelection. intros s.
  by destruct (Hq s) as (-> & -> & _).
Qed.

Lemma inputFocus_sameSelection kb st key type :
  sameSelection st (inputFocus kb st key type).
Proof.
  unfold inputFocus. destruct (_ && _); [apply sameSelection_refl|].
  destruct (JsString.truthy _); [|apply sameSelection_refl].
  apply renderSearchResults_sameSelection.
Qed.

Lemma keydownEnter_showAllOptions kb st0 st key type removeBtn :
  sameSelection st0 st ->
  keydownEnter (showAllOptions kb st key type) key type removeBtn =
  match availableFor kb st0 key type with
  | [] => showAllOptions kb st key type
  | first :: _ =>
      selectItem (showAllOptions kb st key type) key type first removeBtn
  end.
Proof.
  intros Hs. rewrite <- (sameSelection_availableFor kb st0 st key type Hs).
  unfold showAllOptions, keydownEnter.
  destruct (bool_decide (type = Major) && disabled (selector st key type))
    eqn:Hd.
  - rewrite Hd. apply andb_true_iff in Hd as [->%bool_decide_eq_true Hd].
    simpl in *. by rewrite Hd.
  - destruct (availableFor kb st key type) as [|x l];
      rewrite selector_update_same; simpl; by rewrite Hd.
Qed.

(** X10.  Enter on a list that was just rendered selects its first item:
    after a click on the box, the first name available to the selector;
    after typing a query that is not blank, the first available name that
    matches it.  With no such name, and on a disabled major selector,
    Enter changes nothing.  The selection is the one [selectItem] makes
    with the answer of the chip, whatever that answer is. *)
Theorem enter_selects_first (kb : KnowledgeBase) (st : Store)
    (key : ChoiceKey) (type : SelectorType) (removeBtn : bool) :
  (forall focused,
     keydownEnter (boxClick kb st key type focused) key type removeBtn =
     match availableFor kb st key type with
     | [] => boxClick kb st key type focused
     | first :: _ =>
         selectItem (boxClick kb st key type focused) key type first removeBtn
     end)
  /\
  (forall text,
     JsString.trim text ≠ "" ->
     keydownEnter (inputTyped kb st key type text) key type removeBtn =
     match filter (matchesQuery (JsString.trim text))
                  (availableFor kb st key type) with
     | [] => inputTyped kb st key type text
     | first :: _ =>
         selectItem (inputTyped kb st key type text) key type first removeBtn
     end).
Proof.
  split.
  - intros focused. unfold boxClick.
    destruct (bool_decide (type = Major) && disabled (selector st key type))
      eqn:Hd.
    + unfold keydownEnter. rewrite Hd.
      apply andb_true_iff in Hd as [->%bool_decide_eq_true Hd].
      simpl in *. by rewrite Hd.
    + apply keydownEnter_showAllOptions.
      assert (sameSelection st
                (if isTruthy (selected (selector st key type))
                 then update st key type (set_input_block true) else st))
        as Hb.
      { destruct (isTruthy _); [|apply sameSelection_refl].
        apply quiet_sameSelection, quiet_set_input_block. }
      destruct focused; [exact Hb|].
      eapply sameSelection_trans; [exact Hb|apply inputFocus_sameSelection].
  - intros text Hq. unfold inputTyped.
    set (st1 := update st key type (set_input_value text)).
    assert (sameSelection st st1) as Hs
      by apply quiet_sameSelection, quiet_set_input_value.
    rewrite <- (sameSelection_availableFor kb st st1 key type Hs).
    pose proof (renderSearchResults_cases kb st1 key type (JsString.trim text))
      as Hc. simpl in Hc.
    destruct (decide (JsString.trim text = "")); [done|].
    destruct (bool_decide (type = Major) && disabled (selector st1 key type))
      eqn:Hd.
    + destruct Hc as [-> Hnil]. unfold keydownEnter. rewrite Hd.
      apply andb_true_iff in Hd as [->%bool_decide_eq_true Hd].
      simpl in *. by rewrite Hd.
    + destruct Hc as (Hh & Ho & _).
      set (st' := renderSearchResults kb st1 key type (JsString.trim text))
        in *.
      assert (disabled (selector st' key type) = disabled (selector st1 key type))
        as Hd' by apply (renderSearchResults_sameSelection kb st1 key type).
      unfold keydownEnter. rewrite Hd', Hd.
      unfold offered in Ho. rewrite Hh in Ho.
      destruct (filter _ _) as [|x l] eqn:Hf.
      * destruct (content _) as [items|]; [|reflexivity].
        rewrite Ho. reflexivity.
      * destruct (content _) as [items|]; [|done].
        rewrite Ho. reflexivity.
Qed.

Lemma enter_selects_first_witness :
  JsString.trim " gadjah" ≠ "" /\
  selected (selector
    (keydownEnter
       (inputTyped kb_example st_example Choice3 University " gadjah")
       Choice3 University true) Choice3 University)
  = Some "Universitas Gadjah Mada".
Proof.
  assert (JsString.trim " gadjah" ≠ "") as Hq by discriminate.
  split; [exact Hq|].
  rewrite (proj2 (enter_selects_first kb_example st_example Choice3 University
                    true)
             " gadjah" Hq).
  reflexivity.
Defined.
(** ** The end of a prediction *)

(** X11.  A click that passes the validator disables the predict button,
    and however the two calls end the handler leaves it enabled again with
    the label it had at the click, or with [Predict] when that label was
    empty: at once when the first call throws or is not ok, after the
    second call otherwise. *)
Theorem predict_button_restored (p : Page) (a : Awaited ResultData)
    (r : Awaited (option string)) :
  validateForm (form p) (store p) = [] ->
  let payload := collectPayload (form p) (store p) in
  let waiting := predictBtn_click p in
  let answered := predictAnswered payload a waiting in
  let label :=
    if JsString.truthy (textContent (predictBtn p))
    then textContent (predictBtn p) else "Predict" in
  btn_disabled (predictBtn waiting) = true /\
  match a with
  | Body _ =>
      btn_disabled (predictBtn answered) = true /\
      btn_disabled (predictBtn (recommendAnswered r answered)) = false /\
      textContent (predictBtn (recommendAnswered r answered)) = label
  | _ =>
      btn_disabled (predictBtn answered) = false /\
      textContent (predictBtn answered) = label
  end.
Proof.
  intros Hv. unfold predictBtn_click. rewrite Hv. simpl.
  split; [reflexivity|].
  destruct a as [m|s|data]; simpl;
    [by destruct (JsString.truthy _)|by destruct (JsString.truthy _)|].
  split; [reflexivity|].
  destruct r as [m|s|[tables|]]; simpl; by destruct (JsString.truthy _).
Qed.

Lemma predict_button_restored_witness :
  validateForm (form page_ready) (store page_ready) = [] /\
  textContent
    (predictBtn
       (predictAnswered (collectPayload (form page_ready) (store page_ready))
          (NotOk "500") (predictBtn_click page_ready))) = "Predict".
Proof.
  assert (validateForm (form page_ready) (store page_ready) = []) as Hv
    by (vm_compute; reflexivity).
  split; [exact Hv|].
  exact (proj2 (proj2 (predict_button_restored page_ready (NotOk "500")
                         (Body None) Hv))).
Defined.

(** X12.  A click that passes the validator sends the payload built at the
    click to [/api/predict], and after an answer with a body the same
    payload to [/api/recommend], and nothing else.  A first call that
    throws or is not ok ends with an error text.  After a prediction is
    rendered, a second call that is not ok or holds no table leaves it as
    it is, tables are appended to it, and a second call that throws
    replaces it by the error text. *)
Theorem prediction_outcomes (p : Page) (data : ResultData) :
  validateForm (form p) (store p) = [] ->
  let payload := collectPayload (form p) (store p) in
  let waiting := predictBtn_click p in
  let answered := predictAnswered payload (Body data) waiting in
  requests waiting = {| url := "/api/predict"; body := payload |} :: requests p
  /\
  (forall m,
     requests (predictAnswered payload (Thrown m) waiting) = requests waiting /\
     className (result (predictAnswered payload (Thrown m) waiting)) = "error")
  /\
  (forall s,
     requests (predictAnswered payload (NotOk s) waiting) = requests waiting /\
     result (predictAnswered payload (NotOk s) waiting) =
       {| className := "error"; innerHTML := "Error: Server error: " +:+ s |})
  /\
  requests answered =
    {| url := "/api/recommend?pref_n=8&alt_n=8&per_uni=2"; body := payload |}
      :: requests waiting
  /\
  result answered = renderResult data
  /\
  (forall r, requests (recommendAnswered r answered) = requests answered)
  /\
  (forall s, result (recommendAnswered (NotOk s) answered) = renderResult data)
  /\
  result (recommendAnswered (Body None) answered) = renderResult data
  /\
  (forall tables,
     result (recommendAnswered (Body (Some tables)) answered) =
       {| className := className (renderResult data);
          innerHTML := innerHTML (renderResult data) +:+ tables |})
  /\
  (forall m,
     className (result (recommendAnswered (Thrown m) answered)) = "error" /\
     exists text, text ≠ "" /\
       innerHTML (result (recommendAnswered (Thrown m) answered)) =
         "Error: " +:+ text).
Proof.
  intros Hv. unfold predictBtn_click. rewrite Hv. simpl.
  repeat split; try done.
  - by destruct r as [m|s|[tables|]].
  - unfold predictFailed. simpl. destruct (JsString.truthy m) eqn:Hm.
    + exists m. split; [|reflexivity]. intros ->. discriminate Hm.
    + eexists. split; [|reflexivity]. discriminate.
Qed.

Lemma prediction_outcomes_witness :
  validateForm (form page_ready) (store page_ready) = [] /\
  length
    (requests
       (recommendAnswered (Thrown "")
          (predictAnswered
             (collectPayload (form page_ready) (store page_ready))
             (Body (Prediction "<div></div>"))
             (predictBtn_click page_ready)))) = 2.
Proof.
  assert (validateForm (form page_ready) (store page_ready) = []) as Hv
    by (vm_compute; reflexivity).
  split; [exact Hv|].
  destruct (prediction_outcomes page_ready (Prediction "<div></div>") Hv)
    as (H1 & _ & _ & H2 & _ & H3 & _).
  rewrite H3, H2, H1. reflexivity.
Defined.
(** ** The click on the reset button *)

Lemma assignValues_all l : forall form : Form,
  (forall id, id ∈ l.*1 -> is_Some (form !! id)) ->
  assignValues l form =
    (foldl (fun f '(id, v) => <[id := v]> f) form l, true).
Proof.
  induction l as [|[id v] l IH]; intros form Hall; [reflexivity|].
  simpl. destruct (Hall id) as [x ->]; [apply list_elem_of_here|].
  apply IH. intros id' Hid'.
  destruct (decide (id' = id)) as [->|Hne].
  - rewrite lookup_insert_eq. by eexists.
  - rewrite lookup_insert_ne by done. apply Hall. by apply list_elem_of_further.
Qed.

Lemma assignValues_missing l : forall form : Form,
  (exists id, id ∈ l.*1 /\ form !! id = None) ->
  (assignValues l form).2 = false.
Proof.
  induction l as [|[id v] l IH]; intros form (id' & Hin & Hnone).
  - by apply elem_of_nil in Hin.
  - simpl. destruct (form !! id) as [x|] eqn:Hx; [|reflexivity].
    apply IH. exists id'. simpl in Hin.
    apply elem_of_cons in Hin as [->|Hin]; [congruence|].
    split; [exact Hin|]. rewrite lookup_insert_ne; [exact Hnone|].
    intros <-. congruence.
Qed.

Lemma selector_emptyInputs st key type :
  selector (emptyInputs st) key type = set_input_value "" (selector st key type).
Proof. by destruct key, type. Qed.

Lemma val_empty (form : Form) id :
  form !! id = None \/ form !! id = Some "" -> val form id = undefined.
Proof. unfold val. by intros [->| ->]. Qed.

Lemma nothing_chosen_issues form st :
  atLeastOneGradeFilled form = false ->
  (forall key type, selected (selector st key type) = None) ->
  validateForm form st = [ISSUE_GRADES; ISSUE_UNIVERSITY; ISSUE_MAJOR].
Proof.
  intros Hg Hs. rewrite validateForm_rules.
  unfold issuesGrades, issuesUniversity, issuesMajor, issuesPairs, issuesPair,
    issuesSaintek, issuesSoshum, advisoryFor, getSelectedUniversities,
    getSelectedMajors, chosen.
  rewrite Hg, !none_selected by (intros key; apply Hs).
  rewrite !Hs. simpl. by rewrite !andb_false_r.
Qed.

(** X13.  On a page that has the five fields the handler writes to, a
    click on the reset button gives those fields their defaults and empties
    every other field, resets the selections and shows the muted prompt.
    Every grade then reads as absent, the validator reports exactly the
    three basic issues, and a click on the predict button sends nothing. *)
Theorem reset_then_predict (p : Page) :
  (forall id, id ∈ RESET_DEFAULTS.*1 -> is_Some (form p !! id)) ->
  let q := resetBtn_click p in
  store q = resetClick (store p) true /\
  (forall id v, (id, v) ∈ RESET_DEFAULTS -> form q !! id = Some v) /\
  (forall id, id ∉ RESET_DEFAULTS.*1 ->
              form q !! id = (fun _ => "") <$> form p !! id) /\
  (forall id, id ∈ GRADE_FIELDS -> val (form q) id = undefined) /\
  result q = {| className := "muted";
                innerHTML := "Fill the form and click Predict." |} /\
  validateForm (form q) (store q) =
    [ISSUE_GRADES; ISSUE_UNIVERSITY; ISSUE_MAJOR] /\
  requests (predictBtn_click q) = requests p.
Proof.
  intros Hall q. subst q. unfold resetBtn_click.
  rewrite assignValues_all
    by (intros id Hid; rewrite lookup_fmap; destruct (Hall id Hid) as [x ->];
        by eexists).
  set (form1 := foldl _ _ RESET_DEFAULTS).
  assert (forall id, id ∉ RESET_DEFAULTS.*1 ->
                     form1 !! id = (fun _ => "") <$> form p !! id) as Hother.
  { intros id Hid. unfold form1. simpl.
    rewrite !lookup_insert_ne, lookup_fmap; [reflexivity|..];
      intros <-; apply Hid; simpl; rewrite !elem_of_cons; auto 10. }
  assert (forall id, id ∈ GRADE_FIELDS -> val form1 id = undefined) as Hgrades.
  { intros id Hid. apply val_empty. rewrite Hother.
    - destruct (form p !! id); [by right|by left].
    - revert id Hid. apply Forall_forall.
      apply (bool_decide_unpack _). vm_compute. exact I. }
  assert (validateForm form1 (resetClick (store p) true) =
            [ISSUE_GRADES; ISSUE_UNIVERSITY; ISSUE_MAJOR]) as Hv.
  { apply nothing_chosen_issues.
    - apply not_true_iff_false. rewrite atLeastOneGradeFilled_spec.
      intros (k & n & Hk & Hn). rewrite Hgrades in Hn; [done|].
      apply (subseteq_take 5). exact Hk.
    - intros key type. unfold resetClick.
      by rewrite selector_resetSelections. }
  cbn [form store result requests predictBtn].
  split; [reflexivity|]. split; [|split; [exact Hother|]].
  - intros id v Hin. unfold form1, RESET_DEFAULTS in *.
    rewrite !elem_of_cons, elem_of_nil in Hin. simpl.
    destruct Hin as [[= -> ->]|[[= -> ->]|[[= -> ->]|[[= -> ->]|[[= -> ->]|[]]]]]];
      by (repeat (rewrite lookup_insert_ne by discriminate)); rewrite lookup_insert_eq.
  - split; [exact Hgrades|]. split; [reflexivity|]. split; [exact Hv|].
    unfold predictBtn_click. cbn [form store]. by rewrite Hv.
Qed.

Lemma reset_then_predict_witness :
  (forall id, id ∈ RESET_DEFAULTS.*1 -> is_Some (form page_filled !! id)) /\
  validateForm (form (resetBtn_click page_filled))
               (store (resetBtn_click page_filled)) =
    [ISSUE_GRADES; ISSUE_UNIVERSITY; ISSUE_MAJOR].
Proof.
  assert (forall id, id ∈ RESET_DEFAULTS.*1 -> is_Some (form page_filled !! id))
    as Hall.
  { intros id Hid. simpl in Hid. rewrite !elem_of_cons, elem_of_nil in Hid.
    destruct Hid as [->|[->|[->|[->|[->|[]]]]]]; by eexists. }
  split; [exact Hall|].
  exact (proj1 (proj2 (proj2 (proj2 (proj2 (proj2
           (reset_then_predict page_filled Hall))))))).
Defined.

(** X14.  On a page that lacks one of the five fields the handler writes
    to, the click on the reset button stops at that field: the selections,
    the chips and the result stay as they were, and only the fields and
    the inputs of the selectors are emptied. *)
Theorem reset_stops_at_missing_field (p : Page) (id : string) :
  id ∈ RESET_DEFAULTS.*1 -> form p !! id = None ->
  let q := resetBtn_click p in
  result q = result p /\
  (forall key type,
     selector (store q) key type =
       set_input_value "" (selector (store p) key type)) /\
  getSelectedUniversities (store q) = getSelectedUniversities (store p) /\
  getSelectedMajors (store q) = getSelectedMajors (store p).
Proof.
  intros Hin Hnone q. subst q. unfold resetBtn_click.
  pose proof (assignValues_missing RESET_DEFAULTS ((fun _ => "") <$> form p))
    as Hm.
  destruct (assignValues _ _) as [form1 ok]. simpl in Hm.
  rewrite Hm by (exists id; split; [exact Hin|by rewrite lookup_fmap, Hnone]).
  simpl. split; [reflexivity|]. split; [apply selector_emptyInputs|].
  by split.
Qed.

Lemma reset_stops_at_missing_field_witness :
  "program" ∈ RESET_DEFAULTS.*1 /\
  form page_ready !! "program" = None /\
  getSelectedMajors (store (resetBtn_click page_ready)) = ["Informatika"].
Proof.
  assert ("program" ∈ RESET_DEFAULTS.*1) as Hin by apply list_elem_of_here.
  assert (form page_ready !! "program" = None) as Hn by reflexivity.
  split; [exact Hin|]. split; [exact Hn|].
  rewrite (proj2 (proj2 (proj2
             (reset_stops_at_missing_field page_ready "program" Hin Hn)))).
  reflexivity.
Defined.
(** ** The numbers of a request *)

Lemma val_kinds (form : Form) id :
  match val form id with
  | undefined => True
  | VString s => s ≠ "" /\
                 (id ∈ NUMERIC_FIELDS -> JsNumeric.Number s = NaN)
  | VNumber n =>
      id ∈ NUMERIC_FIELDS /\ n ≠ NaN /\
      (id ∈ GRADE_FIELDS ->
       exists q, n = Num q /\ (0 <= q <= 100)%Q) /\
      (id = "rank_percentile" ->
       exists z, n = Num (inject_Z z) /\ (1 <= z <= 100)%Z)
  end.
Proof.
  unfold val. destruct (form !! id) as [value|]; [|exact I].
  set (raw := JsString.trim value).
  destruct (String.eqb_spec raw ""); [exact I|].
  destruct (JsNumeric.isNaN (JsNumeric.Number raw)) eqn:Hnan; simpl.
  { split; [done|]. intros _. by destruct (JsNumeric.Number raw). }
  destruct (arrayIncludes NUMERIC_FIELDS id) eqn:Hnum; simpl;
    [|split; [done|]; intros Hin%arrayIncludes_true; congruence].
  apply arrayIncludes_true in Hnum.
  assert (JsNumeric.Number raw ≠ NaN) as Hn
    by (intros E; by rewrite E in Hnan).
  destruct (arrayIncludes GRADE_FIELDS id) eqn:Hg.
  - apply arrayIncludes_true in Hg.
    rewrite (grade_field_not_rank id Hg).
    destruct (clamp_spec 0 100 (JsNumeric.Number raw)) as (r & -> & Hr & _);
      [lra|exact Hn|].
    split; [exact Hnum|]. split; [done|]. split.
    + intros _. by exists r.
    + intros ->. discriminate (grade_field_not_rank _ Hg).
  - destruct (String.eqb_spec id "rank_percentile") as [->|Hne];
      cbv beta iota zeta.
    + unfold JsNumeric.ToNumber. cbv beta iota zeta.
      assert (exists z,
                clamp (JsNumeric.Math_round (JsNumeric.Number raw))
                      (Num 1) (Num 100) = VNumber (Num (inject_Z z)) /\
                (1 <= z <= 100)%Z) as (z & -> & Hz).
      { destruct (JsNumeric.Number raw) as [| | |q]; [done|..].
        - exists 100%Z. split; [reflexivity|lia].
        - exists 1%Z. split; [reflexivity|lia].
        - simpl. eexists. split; [apply (clamp_integer 1 100)|lia]. }
      split; [exact Hnum|]. split; [done|]. split; [|intros _; by exists z].
      intros Hin%arrayIncludes_true. congruence.
    + split; [exact Hnum|]. split; [exact Hn|]. split.
      * intros Hin%arrayIncludes_true. congruence.
      * intros ->. done.
Qed.

(** X15.  Whatever the form holds, a grade in the body of a request is
    absent, a text that is not a number, or a number from 0 to 100, never
    [NaN] or an infinity; and the rank percentile is never absent: it is a
    text that is not a number or a whole number from 1 to 100. *)
Theorem payload_numbers_in_range (form : Form) (st : Store) :
  (forall k v,
     (k, v) ∈ grades (collectPayload form st) ->
     k ∈ GRADE_FIELDS /\
     match v with
     | undefined => True
     | VString s => s ≠ "" /\ JsNumeric.Number s = NaN
     | VNumber n => exists q, n = Num q /\ (0 <= q <= 100)%Q
     end) /\
  (forall k, k ∈ GRADE_FIELDS ->
             exists v, (k, v) ∈ grades (collectPayload form st)) /\
  match rank_percentile (collectPayload form st) with
  | undefined => False
  | VString s => s ≠ "" /\ JsNumeric.Number s = NaN
  | VNumber n => exists z, n = Num (inject_Z z) /\ (1 <= z <= 100)%Z
  end.
Proof.
  split; [|split].
  - intros k v Hin.
    change (grades (collectPayload form st))
      with ((fun k => (k, val form k)) <$> GRADE_FIELDS) in Hin.
    apply list_elem_of_fmap in Hin as (k' & [= -> ->] & Hk').
    split; [exact Hk'|].
    pose proof (val_kinds form k') as Hv.
    destruct (val form k') as [|n|s].
    + exact I.
    + by apply Hv.
    + split; [apply Hv|]. apply Hv. by apply elem_of_app; left.
  - intros k Hk. exists (val form k).
    change (grades (collectPayload form st))
      with ((fun k => (k, val form k)) <$> GRADE_FIELDS).
    apply list_elem_of_fmap. by exists k.
  - unfold collectPayload. simpl.
    pose proof (val_kinds form "rank_percentile") as Hv.
    destruct (val form "rank_percentile") as [|n|s]; simpl.
    + exists 100%Z. split; [reflexivity|lia].
    + by apply Hv.
    + split; [apply Hv|]. apply Hv. apply elem_of_app; right.
      apply list_elem_of_here.
Qed.
(** ** The chatbot *)

Lemma indicators_app l l' : indicators (l ++ l') = indicators l + indicators l'.
Proof. unfold indicators. by rewrite List.filter_app, length_app. Qed.

Lemma indicators_elem_of l : TypingIndicator ∈ l <-> 0 < indicators l.
Proof.
  unfold indicators. induction l as [|x l IH]; simpl.
  - split; [by intros ?%elem_of_nil|lia].
  - rewrite elem_of_cons, IH. destruct x; simpl; split; try lia;
      try (intros [?|?]; [done|lia]); auto with lia.
Qed.

Lemma indicators_removeIndicator l :
  indicators (removeIndicator l) = pred (indicators l).
Proof.
  unfold indicators. induction l as [|x l IH]; [reflexivity|].
  destruct x; simpl; try exact IH. reflexivity.
Qed.

Lemma messages_removeIndicator l :
  List.filter isMessage (removeIndicator l) = List.filter isMessage l.
Proof.
  induction l as [|x l IH]; [reflexivity|].
  destruct x; simpl; try reflexivity; try exact IH; f_equal; exact IH.
Qed.

Lemma userText_removeIndicator l :
  omap userText (removeIndicator l) = omap userText l.
Proof.
  induction l as [|x l IH]; [reflexivity|].
  destruct x; simpl; try reflexivity; try exact IH; f_equal; exact IH.
Qed.

Lemma removeIndicator_absent l :
  TypingIndicator ∉ l -> removeIndicator l = l.
Proof.
  induction l as [|x l IH]; [reflexivity|].
  rewrite not_elem_of_cons. intros [Hx Hl].
  destruct x; simpl; try by rewrite IH. done.
Qed.

(** The transcript after [setTypingIndicator]. *)
Lemma chatMessages_setTypingIndicator show c :
  chatMessages (setTypingIndicator show c) =
  if show then
    if bool_decide (TypingIndicator ∈ chatMessages c) then chatMessages c
    else chatMessages c ++ [TypingIndicator]
  else removeIndicator (chatMessages c).
Proof.
  unfold setTypingIndicator. simpl.
  destruct show; simpl; case_bool_decide; simpl; try reflexivity.
  by rewrite removeIndicator_absent.
Qed.

Lemma invariant_setTypingIndicator show c :
  (show = true -> 0 < awaiting c) ->
  chatInvariant c -> chatInvariant (setTypingIndicator show c).
Proof.
  intros Hshow (H1 & H2 & H3 & H4 & H5 & H6).
  unfold chatInvariant. rewrite chatMessages_setTypingIndicator.
  change (chatbotHistory (setTypingIndicator show c)) with (chatbotHistory c).
  change (posted (setTypingIndicator show c)) with (posted c).
  change (awaiting (setTypingIndicator show c)) with (awaiting c).
  destruct show.
  - destruct (bool_decide_reflect (TypingIndicator ∈ chatMessages c))
      as [Hin|Hin]; [done|].
    rewrite indicators_elem_of in Hin.
    rewrite indicators_app, List.filter_app, omap_app, H3, H4. simpl.
    rewrite !app_nil_r. unfold indicators at 2 4. simpl.
    repeat split; try done; try lia.
  - rewrite indicators_removeIndicator, messages_removeIndicator,
      userText_removeIndicator.
    repeat split; try done; lia.
Qed.

Lemma invariant_botMessage text c :
  chatInvariant c -> chatInvariant (addMessageToChat text false c).
Proof.
  intros (H1 & H2 & H3 & H4 & H5 & H6). unfold chatInvariant. simpl.
  rewrite indicators_app, List.filter_app, omap_app, map_app, H3, H4. simpl.
  rewrite !app_nil_r. unfold indicators at 2 4. simpl. rewrite !Nat.add_0_r.
  by repeat split.
Qed.

Lemma invariant_appendItem item c :
  isMessage item = false -> isIndicator item = false ->
  chatInvariant c -> chatInvariant (appendItem item c).
Proof.
  intros Hm Hi (H1 & H2 & H3 & H4 & H5 & H6). unfold chatInvariant. simpl.
  rewrite indicators_app, List.filter_app, omap_app, H3, H4.
  destruct item; try discriminate; simpl;
    unfold indicators at 2 4; simpl; rewrite !app_nil_r, !Nat.add_0_r;
    by repeat split.
Qed.

Lemma invariant_chatFailed c :
  chatInvariant c -> chatInvariant (chatFailed c).
Proof.
  intros Hinv. apply invariant_botMessage.
  by apply invariant_setTypingIndicator.
Qed.

Lemma invariant_answer_ends c :
  chatInvariant c ->
  chatInvariant
    (setTypingIndicator false
       {| chatInput_value := chatInput_value c; chatMessages := chatMessages c;
          chatbotHistory := chatbotHistory c;
          posted := posted c; awaiting := pred (awaiting c) |}).
Proof.
  intros (H1 & H2 & H3 & H4 & H5 & H6).
  unfold chatInvariant. rewrite chatMessages_setTypingIndicator. simpl.
  rewrite indicators_removeIndicator, messages_removeIndicator,
    userText_removeIndicator.
  repeat split; try done; lia.
Qed.

Lemma invariant_chatAnswered answer c :
  chatInvariant c -> chatInvariant (chatAnswered answer c).
Proof.
  intros Hinv. unfold chatAnswered.
  pose proof (invariant_answer_ends c Hinv) as H1.
  destruct answer as [m|s|data]; try by apply invariant_botMessage.
  set (c1 := setTypingIndicator false _) in *. clearbody c1.
  destruct (response data) as [text|]; [|by apply invariant_chatFailed].
  set (c2 := addMessageToChat text false c1).
  assert (chatInvariant c2) as H2 by by apply invariant_botMessage.
  clearbody c2.
  destruct (recommendations data) as [|html|];
    [| |by apply invariant_chatFailed].
  - destruct (study_plan data) as [|html'|];
      [done| |by apply invariant_chatFailed].
    by apply invariant_appendItem.
  - assert (chatInvariant (appendItem (RecommendationCard html) c2)) as H3
      by by apply invariant_appendItem.
    destruct (study_plan data) as [|html'|];
      [done| |by apply invariant_chatFailed].
    by apply invariant_appendItem.
Qed.

Lemma invariant_sendChatMessage message c :
  chatInvariant c -> chatInvariant (sendChatMessage message c).
Proof.
  intros Hinv. unfold sendChatMessage.
  destruct (JsString.truthy (JsString.trim message)) eqn:Ht; [|exact Hinv].
  destruct Hinv as (H1 & H2 & H3 & H4 & H5 & H6).
  unfold chatInvariant. cbn [chatMessages chatbotHistory posted awaiting].
  rewrite chatMessages_setTypingIndicator. simpl.
  assert (indicators (chatMessages c ++ [UserMessage message]) =
            indicators (chatMessages c)) as Hi
    by (rewrite indicators_app; unfold indicators at 2; simpl; lia).
  assert (List.filter isMessage (chatMessages c ++ [UserMessage message]) =
            map shownAs (chatbotHistory c ++ [(message, true)])) as Hm
    by (by rewrite List.filter_app, map_app, H3).
  assert (omap userText (chatMessages c ++ [UserMessage message]) =
            posted c ++ [message]) as Hu
    by (by rewrite omap_app, H4).
  assert (Forall (fun m => JsString.trim m ≠ "") (posted c ++ [message]))
    as Hp.
  { apply Forall_app. split; [exact H5|]. apply Forall_singleton.
    intros E. by rewrite E in Ht. }
  rewrite length_app. simpl.
  destruct (bool_decide_reflect
              (TypingIndicator ∈ chatMessages c ++ [UserMessage message]))
    as [Hin|Hin].
  - rewrite Hi, Hm, Hu. repeat split; try done; lia.
  - rewrite indicators_elem_of, Hi in Hin.
    rewrite indicators_app, List.filter_app, omap_app, Hi, Hm, Hu. simpl.
    unfold indicators at 2 4. simpl. rewrite !app_nil_r.
    repeat split; try done; lia.
Qed.

Lemma invariant_chatDispatch c e :
  chatInvariant c -> chatInvariant (chatDispatch c e).
Proof.
  intros Hinv. destruct e as [text| |shiftKey|text|answer]; simpl.
  - exact Hinv.
  - unfold sendTrimmed. destruct (JsString.truthy _); [|exact Hinv].
    by apply invariant_sendChatMessage.
  - destruct shiftKey; [exact Hinv|].
    unfold sendTrimmed. destruct (JsString.truthy _); [|exact Hinv].
    by apply invariant_sendChatMessage.
  - destruct (JsString.truthy text); [|exact Hinv].
    by apply invariant_sendChatMessage.
  - destruct (awaiting c); [exact Hinv|].
    by apply invariant_chatAnswered.
Qed.

Lemma chatRun_invariant events : chatInvariant (chatRun events).
Proof.
  unfold chatRun.
  assert (chatInvariant chat_initial) as H0.
  { unfold chatInvariant, indicators. simpl. repeat split; try done; lia. }
  revert H0. generalize chat_initial.
  induction events as [|e events IH]; intros c Hc; [exact Hc|].
  simpl. by apply IH, invariant_chatDispatch.
Qed.

Lemma removeIndicator_last l :
  indicators l <= 1 -> TypingIndicator ∉ removeIndicator l.
Proof.
  intros Hl. rewrite indicators_elem_of, indicators_removeIndicator. lia.
Qed.

Lemma chatMessages_chatFailed c :
  chatMessages (chatFailed c) =
  removeIndicator (chatMessages c) ++ [BotMessage (replaceNewlines APOLOGY)].
Proof.
  unfold chatFailed, addMessageToChat.
  cbn [chatMessages]. by rewrite chatMessages_setTypingIndicator.
Qed.

Lemma chatMessages_chatAnswered answer c :
  indicators (chatMessages c) <= 1 ->
  chatMessages (chatAnswered answer c) =
  removeIndicator (chatMessages c) ++ replyItems answer.
Proof.
  intros Hl. apply removeIndicator_last in Hl.
  unfold chatAnswered, replyItems.
  destruct answer as [m|s|data]; try by rewrite chatMessages_chatFailed.
  set (c1 := setTypingIndicator false _).
  assert (chatMessages c1 = removeIndicator (chatMessages c)) as H1
    by (unfold c1; by rewrite chatMessages_setTypingIndicator).
  clearbody c1. revert Hl. rewrite <- H1. clear H1. intros Hl.
  destruct (response data) as [text|];
    [|by rewrite chatMessages_chatFailed, removeIndicator_absent].
  destruct (recommendations data) as [|html|], (study_plan data) as [|html'|];
    rewrite ?chatMessages_chatFailed; cbn [chatMessages appendItem addMessageToChat];
    rewrite ?removeIndicator_absent; rewrite <- ?app_assoc; try reflexivity;
    rewrite ?elem_of_app, ?elem_of_cons, ?elem_of_nil; intuition discriminate.
Qed.

Lemma replyItems_shape answer :
  (exists html rest, replyItems answer = BotMessage html :: rest) /\
  (TypingIndicator ∉ replyItems answer) /\
  length (replyItems answer) <= 4.
Proof.
  unfold replyItems.
  destruct answer as [m|s|data]; simpl.
  1,2: split; [by eexists _, _|]; split; [|lia];
    rewrite elem_of_cons, elem_of_nil; intuition discriminate.
  destruct (response data) as [text|], (recommendations data) as [|html|],
    (study_plan data) as [|html'|]; simpl;
    (split; [by eexists _, _|]); (split; [|lia]);
    rewrite ?elem_of_cons, ?elem_of_nil; intuition discriminate.
Qed.

(** X16.  Over any run of the chat the transcript holds one typing
    indicator at most, it holds one only while a call is awaited, and the
    end of any call leaves it with none, also when a later call is still
    awaited. *)
Theorem chat_typing_indicator (events : list ChatEvent) :
  indicators (chatMessages (chatRun events)) <= 1 /\
  (TypingIndicator ∈ chatMessages (chatRun events) ->
   0 < awaiting (chatRun events)) /\
  (forall answer,
     0 < awaiting (chatRun events) ->
     TypingIndicator ∉
       chatMessages (chatDispatch (chatRun events) (ChatAnswered answer))).
Proof.
  destruct (chatRun_invariant events) as (H1 & H2 & _).
  split; [exact H1|]. split.
  - intros Hin. by apply H2, indicators_elem_of.
  - intros answer Haw. simpl. destruct (awaiting _); [lia|].
    rewrite chatMessages_chatAnswered by exact H1.
    rewrite elem_of_app. intros [Hin|Hin].
    + by apply (removeIndicator_last _ H1).
    + by apply (replyItems_shape answer).
Qed.

(** X17.  Over any run of the chat, [chatbotHistory] holds exactly the
    messages the transcript shows, in the same order: the text of a
    message of the user as it is, that of the bot with every line break
    written as a [br] element.  The indicator and the cards are in the
    transcript only. *)
Theorem chat_history_matches_transcript (events : list ChatEvent) :
  List.filter isMessage (chatMessages (chatRun events)) =
  map shownAs (chatbotHistory (chatRun events)).
Proof. apply (chatRun_invariant events). Qed.

(** X18.  Over any run of the chat, the messages sent to the server are
    the messages of the user in the transcript, one call for each and in
    the same order; none of them is blank, and no more calls are awaited
    than were sent. *)
Theorem chat_posts_user_messages (events : list ChatEvent) :
  omap userText (chatMessages (chatRun events)) = posted (chatRun events) /\
  Forall (fun message => JsString.trim message ≠ "")
         (posted (chatRun events)) /\
  awaiting (chatRun events) <= length (posted (chatRun events)).
Proof. apply (chatRun_invariant events). Qed.

(** X19.  Over any run of the chat, the end of a call that is awaited
    changes nothing the transcript holds but the indicator, which it
    removes, and appends a reply: a message of the bot first (the response
    of the server, or the apology when the call failed or the response is
    no text), then the cards at most, and the apology again when a card
    cannot be rendered.  A failed call appends the apology alone. *)
Theorem chat_answer_replies (events : list ChatEvent)
    (answer : Awaited ChatData) :
  0 < awaiting (chatRun events) ->
  exists html rest,
    chatMessages (chatDispatch (chatRun events) (ChatAnswered answer)) =
      removeIndicator (chatMessages (chatRun events))
        ++ BotMessage html :: rest /\
    (TypingIndicator ∉ rest) /\ length rest <= 3 /\
    awaiting (chatDispatch (chatRun events) (ChatAnswered answer)) =
      pred (awaiting (chatRun events)) /\
    posted (chatDispatch (chatRun events) (ChatAnswered answer)) =
      posted (chatRun events) /\
    match answer with
    | Body data =>
        forall text, response data = Some text -> html = replaceNewlines text
    | _ => html = replaceNewlines APOLOGY /\ rest = []
    end.
Proof.
  intros Haw. destruct (chatRun_invariant events) as (H1 & _).
  destruct (replyItems_shape answer) as ((html & rest & Hr) & Hn & Hlen).
  exists html, rest. simpl. destruct (awaiting _) as [|n] eqn:Hn'; [lia|].
  rewrite chatMessages_chatAnswered, Hr by exact H1.
  rewrite Hr in Hn, Hlen. simpl in Hlen.
  apply not_elem_of_cons in Hn as [_ Hn].
  split; [reflexivity|]. split; [exact Hn|].
  split; [lia|].
  assert (forall c, awaiting (chatFailed c) = awaiting c /\
                    posted (chatFailed c) = posted c) as Hf by done.
  split; [|split].
  - unfold chatAnswered. rewrite Hn'.
    destruct answer as [m|s|data]; try reflexivity.
    destruct (response data), (recommendations data), (study_plan data);
      reflexivity.
  - unfold chatAnswered.
    destruct answer as [m|s|data]; try reflexivity.
    destruct (response data), (recommendations data), (study_plan data);
      reflexivity.
  - destruct answer as [m|s|data]; simpl in Hr.
    + by injection Hr as <- <-.
    + by injection Hr as <- <-.
    + intros text Ht. rewrite Ht in Hr. by injection Hr as <- _.
Qed.

Lemma chat_answer_replies_witness :
  0 < awaiting (chatRun [ChatTyped " halo "; SendClick]) /\
  chatMessages
    (chatDispatch (chatRun [ChatTyped " halo "; SendClick])
       (ChatAnswered (NotOk "500"))) =
    [UserMessage "halo"; BotMessage (replaceNewlines APOLOGY)].
Proof.
  assert (0 < awaiting (chatRun [ChatTyped " halo "; SendClick])) as Haw
    by (vm_compute; lia).
  split; [exact Haw|].
  destruct (chat_answer_replies [ChatTyped " halo "; SendClick]
              (NotOk "500") Haw)
    as (html & rest & -> & _ & _ & _ & _ & -> & ->).
  reflexivity.
Defined.
(** ** The theme *)

(** X20.  After a click on the theme toggle the theme is dark or light and
    it is stored; loading the page again shows the same theme whatever
    the browser prefers, and two more clicks return to it.  On a page
    with nothing stored the script follows the browser and stores
    nothing; a stored theme of another name is applied as it is, and the
    first click turns it dark. *)
Theorem theme_toggle_persists (prefersDark prefersDark' : bool) (t : Theme) :
  let loaded := themeInit prefersDark t in
  let clicked := themeToggle_click loaded in
  (data_theme clicked = Some "dark" \/ data_theme clicked = Some "light") /\
  storage clicked = data_theme clicked /\
  themeInit prefersDark' clicked = clicked /\
  themeToggle_click (themeToggle_click clicked) = clicked /\
  data_theme (themeToggle_click clicked) ≠ data_theme clicked /\
  storage loaded = storage t /\
  (orNull (storage t) = None ->
   data_theme loaded = Some (if prefersDark then "dark" else "light")) /\
  (forall saved, orNull (storage t) = Some saved ->
                 data_theme loaded = Some saved /\
                 (saved ≠ "dark" -> data_theme clicked = Some "dark")).
Proof.
  simpl. unfold themeToggle_click, themeInit. simpl.
  destruct (orNull (storage t)) as [saved|] eqn:Hs; simpl.
  - destruct (bool_decide_reflect (Some saved = Some "dark")) as [E|NE];
      simpl; repeat split; auto; try discriminate; try congruence.
  - destruct prefersDark; simpl; repeat split; auto; try discriminate.
Qed.

(** ** The two views *)

(** X21.  Clicks on the view toggle alternate between the two views,
    starting from the prediction view: after an odd number of clicks the
    chatbot is shown and after an even number the prediction form, and from
    the first click on exactly one of the two views is displayed and the
    button names the other. *)
Theorem view_toggle_alternates (v : Views) (n : nat) :
  currentView v = "prediction" ->
  let v' := Nat.iter n toggleView_click v in
  currentView v' = (if Nat.odd n then "chatbot" else "prediction") /\
  (0 < n ->
   v' = if Nat.odd n then switchView "chatbot" v
        else switchView "prediction" v) /\
  (0 < n ->
   (predictionView_display v' = "block" /\ chatbotView_display v' = "none" /\
    toggleBtn_textContent v' = "Konsultasi Chatbot" /\
    currentView v' = "prediction") \/
   (predictionView_display v' = "none" /\ chatbotView_display v' = "block" /\
    toggleBtn_textContent v' = "SNBP Prediction" /\
    currentView v' = "chatbot")).
Proof.
  intros Hv. simpl.
  assert (currentView (Nat.iter n toggleView_click v) =
            (if Nat.odd n then "chatbot" else "prediction") /\
          (0 < n ->
           Nat.iter n toggleView_click v =
             if Nat.odd n then switchView "chatbot" v
             else switchView "prediction" v)) as [H1 H2].
  { induction n as [|n [IH1 IH2]]; [split; [exact Hv|lia]|].
    rewrite Nat.odd_succ, <- Nat.negb_odd.
    change (Nat.iter (S n) toggleView_click v)
      with (toggleView_click (Nat.iter n toggleView_click v)).
    set (x := Nat.iter n toggleView_click v) in *.
    unfold toggleView_click. rewrite IH1.
    destruct (Nat.odd n); simpl; by split. }
  split; [exact H1|]. split; [exact H2|].
  intros Hn. rewrite (H2 Hn). destruct (Nat.odd n); simpl; [right|left];
    by repeat split.
Qed.

Lemma view_toggle_alternates_witness :
  currentView
    {| predictionView_display := ""; chatbotView_display := "none";
       toggleBtn_textContent := "Konsultasi Chatbot";
       currentView := "prediction" |} = "prediction" /\
  currentView
    (Nat.iter 3 toggleView_click
       {| predictionView_display := ""; chatbotView_display := "none";
          toggleBtn_textContent := "Konsultasi Chatbot";
          currentView := "prediction" |}) = "chatbot".
Proof.
  split; [reflexivity|].
  exact (proj1 (view_toggle_alternates
    {| predictionView_display := ""; chatbotView_display := "none";
       toggleBtn_textContent := "Konsultasi Chatbot";
       currentView := "prediction" |} 3 eq_refl)).
Defined.

(** ** The height of the chat input *)

(** X22.  The listener of typing and the one of pasting give the chat
    input the same height: the height of its content, kept between 56 and
    160 pixels. *)
Theorem chat_input_height (scrollHeight : Z) :
  inputHeight scrollHeight = pasteHeight scrollHeight /\
  (56 <= inputHeight scrollHeight <= 160)%Z /\
  ((56 <= scrollHeight <= 160)%Z -> inputHeight scrollHeight = scrollHeight).
Proof.
  unfold inputHeight, pasteHeight. simpl.
  destruct (Z.ltb_spec (Z.min scrollHeight 160) 56); lia.
Qed.
(** ** The program of a major *)

Lemma existsb_includes s words :
  existsb (fun k => JsString.includes s k) words = true <->
  exists k, k ∈ words /\ Substring k s.
Proof.
  rewrite existsb_exists. split; intros (k & Hk & Hs); exists k.
  - split; [by apply list_elem_of_In|by apply includes_spec].
  - split; [by apply list_elem_of_In|by apply includes_spec].
Qed.

(** X23.  [programOfMajor] answers [unknown] when the university or the
    major is [null] or empty, whether [MAJORS_DATA.details] is set or not.
    For a university and a major that are not empty it throws while the
    details are not set, which is in every session until the request for
    the majors is answered.  Once they are set, a program recorded in the details of
    the pair decides, in lower case; and with none recorded the name of the
    major decides, in lower case: [saintek] exactly when it holds one of
    the Saintek words, [soshum] exactly when it holds none of them and one
    of the Soshum words, [unknown] otherwise. *)
Theorem programOfMajor_spec (all : gmap string MajorDetail) (u n : string) :
  u ≠ "" -> n ≠ "" ->
  let recorded :=
    all !! (u +:+ " | " +:+ n) ≫= (fun d => orNull (program d)) in
  let holds words :=
    exists k, k ∈ words /\ Substring k (JsString.toLowerCase n) in
  (forall details x,
     programOfMajor details None x = Some "unknown" /\
     programOfMajor details x None = Some "unknown" /\
     programOfMajor details (Some "") x = Some "unknown" /\
     programOfMajor details x (Some "") = Some "unknown") /\
  programOfMajor None (Some u) (Some n) = None /\
  (forall steps,
     existsb isMajorsLoaded steps = false ->
     programOfMajor (detailsAfter steps) (Some u) (Some n) = None) /\
  (forall p, recorded = Some p ->
             programOfMajor (Some all) (Some u) (Some n) =
             Some (JsString.toLowerCase p)) /\
  (recorded = None ->
   (programOfMajor (Some all) (Some u) (Some n) = Some "saintek" <->
    holds SAINTEK_WORDS) /\
   (programOfMajor (Some all) (Some u) (Some n) = Some "soshum" <->
    ¬ holds SAINTEK_WORDS /\ holds SOSHUM_WORDS) /\
   (programOfMajor (Some all) (Some u) (Some n) = Some "unknown" <->
    ¬ holds SAINTEK_WORDS /\ ¬ holds SOSHUM_WORDS)).
Proof.
  intros Hu Hn recorded holds. subst recorded holds.
  unfold programOfMajor. split; [|split; [|split; [|split]]].
  - intros details [x|]; simpl; [|done]. by destruct (JsString.truthy x).
  - by rewrite !orNull_Some_intro by done.
  - intros steps Hs. unfold detailsAfter. rewrite Hs.
    by rewrite !orNull_Some_intro by done.
  - intros p Hp. rewrite !orNull_Some_intro by done.
    cbv beta iota zeta. by rewrite Hp.
  - intros Hnone. rewrite !orNull_Some_intro by done.
    cbv beta iota zeta. rewrite Hnone, <- !existsb_includes.
    destruct (existsb _ SAINTEK_WORDS), (existsb _ SOSHUM_WORDS);
      repeat split; intros; try reflexivity; try discriminate;
      intuition discriminate.
Qed.

Lemma programOfMajor_spec_witness :
  "Universitas Gadjah Mada" ≠ "" /\ "Teknik Sipil" ≠ "" /\
  programOfMajor (detailsAfter []) (Some "Universitas Gadjah Mada")
                 (Some "Teknik Sipil") = None /\
  programOfMajor (Some (MAJORS_DATA_details kb_example))
                 (Some "Universitas Gadjah Mada") (Some "Teknik Sipil")
    = Some "saintek".
Proof.
  assert ("Universitas Gadjah Mada" ≠ "") as Hu by discriminate.
  assert ("Teknik Sipil" ≠ "") as Hn by discriminate.
  split; [exact Hu|]. split; [exact Hn|].
  destruct (programOfMajor_spec (MAJORS_DATA_details kb_example)
              "Universitas Gadjah Mada" "Teknik Sipil" Hu Hn)
    as (_ & _ & Hthrown & _ & H).
  split; [exact (Hthrown [] eq_refl)|].
  apply (H eq_refl). exists "teknik". split.
  - unfold SAINTEK_WORDS. rewrite !elem_of_cons. auto 20.
  - exists "", " sipil". reflexivity.
Defined.
(** ** A disabled major selector *)





(** ** The change of a major input *)

(** X25.  The [change] listener of an input searches the universities for
    either type: when the input of a major selector holds a query that is
    not blank, it leaves the dropdown of the university selector of the
    same choice shown, with the first twelve available universities that
    match the query, and nothing the two selectors hold is changed. *)
Theorem major_change_searches_universities (kb : KnowledgeBase) (st : Store)
    (key : ChoiceKey) :
  let query := JsString.trim (input_value (selector st key Major)) in
  query ≠ "" ->
  let st' := inputChange kb st key Major in
  hidden (dropdown (selector st' key University)) = false /\
  offered st' key University =
    take 12 (filter (matchesQuery query) (availableFor kb st key University)) /\
  (forall k t, selected (selector st' k t) = selected (selector st k t)).
Proof.
  intros query Hq st'. subst st'. unfold inputChange. fold query.
  assert (JsString.truthy query = true) as ->
    by (unfold JsString.truthy; by destruct (String.eqb_spec query "")).
  pose proof (renderSearchResults_cases kb st key University query) as Hc.
  simpl in Hc. destruct (decide (query = "")); [done|].
  destruct Hc as (Hh & Ho & _).
  pose proof (renderSearchResults_sameSelection kb st key University query)
    as Hs.
  set (st1 := renderSearchResults kb st key University query) in *.
  destruct (isTruthy (selected (selector st1 key Major))).
  - assert (forall k t,
              (k, t) ≠ (key, Major) ->
              selector (showAllOptions kb (setMajorDisabled st1 key false)
                          key Major) k t = selector st1 k t) as Hother.
    { intros k t Hne. unfold showAllOptions.
      destruct (_ && _);
        [|destruct (availableFor _ _ _ _);
          rewrite selector_update_other by done];
        unfold setMajorDisabled; by rewrite selector_update_other. }
    split; [by rewrite Hother|]. split.
    + unfold offered in *. by rewrite Hother.
    + intros k t.
      pose proof (showAllOptions_sameSelection kb
                    (setMajorDisabled st1 key false) key Major k t) as [-> _].
      rewrite selector_setMajorDisabled.
      destruct (decide _); [|apply Hs]. simpl. apply Hs.
  - split; [exact Hh|]. split; [exact Ho|]. intros k t. apply Hs.
Qed.

Lemma major_change_searches_universities_witness :
  JsString.trim
    (input_value
       (selector (update st_example Choice3 Major (set_input_value "gadjah"))
                 Choice3 Major)) ≠ "" /\
  offered
    (inputChange kb_example
       (update st_example Choice3 Major (set_input_value "gadjah"))
       Choice3 Major) Choice3 University =
    ["Universitas Gadjah Mada"].
Proof.
  assert (JsString.trim
            (input_value
               (selector
                  (update st_example Choice3 Major (set_input_value "gadjah"))
                  Choice3 Major)) ≠ "") as Hq by discriminate.
  split; [exact Hq|].
  rewrite (proj1 (proj2 (major_change_searches_universities kb_example
                           (update st_example Choice3 Major
                              (set_input_value "gadjah")) Choice3 Hq))).
  reflexivity.
Defined.
(** ** A pick from a list that was just rendered *)







(** ** The change of the program *)






(** ** White space and letter case *)

Lemma trimEnd_idem s : JsString.trimEnd (JsString.trimEnd s) = JsString.trimEnd s.
Proof.
  induction s as [|c s IH]; [reflexivity|]. simpl.
  destruct (JsString.isWhiteSpace c) eqn:Hc; simpl.
  - destruct (String.eqb_spec (JsString.trimEnd s) "") as [E|NE]; simpl;
      [reflexivity|].
    rewrite IH, Hc. simpl.
    by destruct (String.eqb_spec (JsString.trimEnd s) "").
  - by rewrite IH, Hc.
Qed.

Lemma trimStart_head s :
  JsString.trimStart s = "" \/
  exists c r, JsString.trimStart s = String c r /\
              JsString.isWhiteSpace c = false.
Proof.
  induction s as [|c s IH]; [by left|]. simpl.
  destruct (JsString.isWhiteSpace c) eqn:Hc; [exact IH|].
  right. by exists c, s.
Qed.

Lemma trim_idem s : JsString.trim (JsString.trim s) = JsString.trim s.
Proof.
  unfold JsString.trim.
  destruct (trimStart_head s) as [->|(c & r & -> & Hc)]; [reflexivity|].
  simpl. repeat (rewrite Hc; simpl). by rewrite trimEnd_idem.
Qed.

Lemma lowerChar_idem c : JsString.lowerChar (JsString.lowerChar c) = JsString.lowerChar c.
Proof. by destruct c as [[] [] [] [] [] [] [] []]. Qed.

Lemma toLowerCase_idem s :
  JsString.toLowerCase (JsString.toLowerCase s) = JsString.toLowerCase s.
Proof.
  induction s as [|c s IH]; [reflexivity|]. simpl.
  by rewrite lowerChar_idem, IH.
Qed.

Lemma toLowerCase_empty s : JsString.toLowerCase s = "" <-> s = "".
Proof. by destruct s. Qed.

(** X28.  White space around the text of a field never matters: a field
    reads the same with its text trimmed, whatever the field; so do the
    test for a semester grade and the validator, for every store. *)
Theorem val_ignores_surrounding_space (form : Form) (id value : string) :
  JsString.trim (JsString.trim value) = JsString.trim value /\
  (forall k, val (<[id := JsString.trim value]> form) k =
             val (<[id := value]> form) k) /\
  atLeastOneGradeFilled (<[id := JsString.trim value]> form) =
    atLeastOneGradeFilled (<[id := value]> form) /\
  (forall st, validateForm (<[id := JsString.trim value]> form) st =
              validateForm (<[id := value]> form) st).
Proof.
  assert (forall k, val (<[id := JsString.trim value]> form) k =
                    val (<[id := value]> form) k) as Hval.
  { intros k. unfold val. destruct (decide (k = id)) as [->|Hne].
    - by rewrite !lookup_insert_eq, trim_idem.
    - by rewrite !lookup_insert_ne. }
  split; [apply trim_idem|]. split; [exact Hval|].
  assert (atLeastOneGradeFilled (<[id := JsString.trim value]> form) =
            atLeastOneGradeFilled (<[id := value]> form)) as Hg.
  { unfold atLeastOneGradeFilled. simpl. by rewrite !Hval. }
  split; [exact Hg|]. intros st.
  rewrite !validateForm_rules.
  unfold issuesGrades, issuesSaintek, issuesSoshum, advisoryFor.
  by rewrite Hg, !Hval.
Qed.

(** X29.  The case of the letters of a query never matters: two queries
    that are equal in lower case leave the dropdown of a selector hidden or
    shown alike and offering the same options. *)
Theorem search_ignores_case (kb : KnowledgeBase) (st : Store)
    (key : ChoiceKey) (type : SelectorType) (q q' : string) :
  JsString.toLowerCase q = JsString.toLowerCase q' ->
  offered (renderSearchResults kb st key type q) key type =
    offered (renderSearchResults kb st key type q') key type /\
  hidden (dropdown (selector (renderSearchResults kb st key type q) key type)) =
    hidden (dropdown (selector (renderSearchResults kb st key type q') key type))
  /\
  offered (renderSearchResults kb st key type (JsString.toLowerCase q)) key type
    = offered (renderSearchResults kb st key type q) key type.
Proof.
  assert (forall a b, JsString.toLowerCase a = JsString.toLowerCase b ->
            offered (renderSearchResults kb st key type a) key type =
              offered (renderSearchResults kb st key type b) key type /\
            hidden (dropdown (selector (renderSearchResults kb st key type a)
                                key type)) =
              hidden (dropdown (selector (renderSearchResults kb st key type b)
                                  key type))) as Hgen.
  { intros a b Hab.
    pose proof (renderSearchResults_cases kb st key type a) as Ha.
    pose proof (renderSearchResults_cases kb st key type b) as Hb.
    simpl in Ha, Hb.
    assert (a = "" <-> b = "") as Hnil
      by (by rewrite <- (toLowerCase_empty a), <- (toLowerCase_empty b), Hab).
    assert (filter (matchesQuery a) (availableFor kb st key type) =
              filter (matchesQuery b) (availableFor kb st key type)) as Hf
      by (apply list_filter_iff; intros x; unfold matchesQuery;
          by rewrite Hab).
    destruct (decide (a = "")) as [Ea|Na], (decide (b = "")) as [Eb|Nb];
      try tauto.
    - destruct Ha as [-> ->], Hb as [-> ->]. by split.
    - destruct (_ && _).
      + destruct Ha as [-> _], Hb as [-> _]. by split.
      + destruct Ha as (-> & -> & _), Hb as (-> & -> & _).
        by rewrite Hf. }
  intros Hq. split; [by apply Hgen|]. split; [by apply Hgen|].
  apply Hgen, toLowerCase_idem.
Qed.

Lemma search_ignores_case_witness :
  JsString.toLowerCase "GADJAH" = JsString.toLowerCase "gadjah" /\
  offered (renderSearchResults kb_example st_example Choice3 University
             "GADJAH") Choice3 University = ["Universitas Gadjah Mada"].
Proof.
  assert (JsString.toLowerCase "GADJAH" = JsString.toLowerCase "gadjah")
    as Hq by reflexivity.
  split; [exact Hq|].
  rewrite (proj1 (search_ignores_case kb_example st_example Choice3
                    University "GADJAH" "gadjah" Hq)).
  reflexivity.
Defined.
